(** * Custom emoji picker: record store, dataset composer, insertion, picker toggle

    A shallow embedding of the two script files of the extension:
    - [src/src/index.js]  (module [IndexJs] below), and
    - the script part of [src/unnamed/part_000] (module [Part000] below),
      which extends the former with a duplicate-name check, import/export and
      user-visible alerts.

    The scripts run against three platform services that are not part of the
    repository: JavaScript values with [JSON.stringify]/[JSON.parse], the
    browser's [localStorage], and the DOM (the text area, the picker element
    and its class list).  Each of them is modelled in the first part of the
    file; the second part transcribes the functions of the two scripts; the
    third part states and proves their properties. *)

From Stdlib Require Import ZArith String Ascii List Bool Lia.
From Stdlib Require Import DecimalString DecimalZ DecimalPos DecimalFacts.
From stdpp Require Import gmap strings list fin_maps.

Open Scope string_scope.
Open Scope Z_scope.
Open Scope nat_scope.

(* ===================================================================== *)
(** * Part 1. Platform model                                              *)
(* ===================================================================== *)

(** ** JavaScript values that JSON can carry

    Numbers are restricted to integers; an object is its list of own
    properties in insertion order.  The value [undefined] is not a JSON value:
    a property read returns [option JSON], with [None] for [undefined]. *)

#[warnings="-register-all"]
Inductive JSON : Type :=
| JNull
| JBool (b : bool)
| JNum (n : Z)
| JStr (s : string)
| JArr (elems : list JSON)
| JObj (props : list (string * JSON)).

(** Exceptions the scripts can meet. *)
Inductive Exn : Type :=
| TypeError
| SyntaxError
| QuotaExceededError
| IndexSizeError
| Error (message : string).

Inductive Completion (A : Type) : Type :=
| Normal (a : A)
| Throw (e : Exn).
Arguments Normal {A} a.
Arguments Throw {A} e.

(** The double quote character, code 34. *)
Definition dquote : ascii := ascii_of_nat 34.

(** Own property lookup, [o[k]] on a property list. *)
Fixpoint lookup_prop (k : string) (props : list (string * JSON)) : option JSON :=
  match props with
  | [] => None
  | (k', v) :: rest => if String.eqb k' k then Some v else lookup_prop k rest
  end.

(** [CreateDataProperty]: overwrite the value of an existing key in place,
    otherwise append the new property. *)
Fixpoint set_prop (k : string) (v : JSON) (props : list (string * JSON))
  : list (string * JSON) :=
  match props with
  | [] => [(k, v)]
  | (k', v') :: rest =>
      if String.eqb k' k then (k', v) :: rest else (k', v') :: set_prop k v rest
  end.

(** [v.k] for the property names the scripts read on stored records
    ([id], [name], [src]): reading a property of [null] throws a TypeError;
    arrays, strings, numbers and booleans have no such property. *)
Definition get_prop (k : string) (v : JSON) : Completion (option JSON) :=
  match v with
  | JNull => Throw TypeError
  | JObj props => Normal (lookup_prop k props)
  | _ => Normal None
  end.

(** [ToBoolean]. *)
Definition truthy (v : option JSON) : bool :=
  match v with
  | None => false
  | Some JNull => false
  | Some (JBool b) => b
  | Some (JNum n) => negb (Z.eqb n 0)
  | Some (JStr s) => negb (String.eqb s "")
  | Some (JArr _) => true
  | Some (JObj _) => true
  end.

(** [a === b].  Primitives compare by value.  Arrays and objects compare by
    identity; the scripts only ever compare values that come from different
    nodes of parsed JSON text, which are never identical. *)
Definition strict_eq (a b : option JSON) : bool :=
  match a, b with
  | None, None => true
  | Some JNull, Some JNull => true
  | Some (JBool x), Some (JBool y) => Bool.eqb x y
  | Some (JNum x), Some (JNum y) => Z.eqb x y
  | Some (JStr x), Some (JStr y) => String.eqb x y
  | _, _ => false
  end.

(** ** JSON text: [JSON.stringify] *)

Definition print_Z (n : Z) : string := NilZero.string_of_int (Z.to_int n).

Definition hex_digit (n : nat) : ascii :=
  match n with
  | 0 => "0" | 1 => "1" | 2 => "2" | 3 => "3" | 4 => "4" | 5 => "5" | 6 => "6"
  | 7 => "7" | 8 => "8" | 9 => "9" | 10 => "a" | 11 => "b" | 12 => "c"
  | 13 => "d" | 14 => "e" | _ => "f"
  end%char.

(** [QuoteJSONString], one character: the quote, the backslash and the
    control characters are escaped, everything else is copied. *)
Definition escape_char (c : ascii) : string :=
  let n := nat_of_ascii c in
  if Ascii.eqb c dquote then String "\" (String dquote "")
  else if Ascii.eqb c "\" then "\\"
  else if Nat.eqb n 8 then "\b"
  else if Nat.eqb n 9 then "\t"
  else if Nat.eqb n 10 then "\n"
  else if Nat.eqb n 12 then "\f"
  else if Nat.eqb n 13 then "\r"
  else if Nat.ltb n 32 then
    "\u00" ++ String (hex_digit (n / 16)) (String (hex_digit (n mod 16)) "")
  else String c "".

Fixpoint escape (s : string) : string :=
  match s with
  | EmptyString => ""
  | String c s' => escape_char c ++ escape s'
  end.

Definition quote (s : string) : string :=
  String dquote (escape s ++ String dquote "").

(** Comma-separated concatenation. *)
Fixpoint join_comma (parts : list string) : string :=
  match parts with
  | [] => ""
  | [p] => p
  | p :: rest => p ++ "," ++ join_comma rest
  end.

(** [SerializeJSONProperty] without indentation, as [JSON.stringify(v)]. *)
Fixpoint stringify (v : JSON) : string :=
  match v with
  | JNull => "null"
  | JBool true => "true"
  | JBool false => "false"
  | JNum n => print_Z n
  | JStr s => quote s
  | JArr elems => "[" ++ join_comma (map stringify elems) ++ "]"
  | JObj props =>
      "{" ++ join_comma (map (fun kv => quote (fst kv) ++ ":" ++ stringify (snd kv)) props)
          ++ "}"
  end.

Definition JSON_stringify (v : JSON) : string := stringify v.

(** ** JSON text: [JSON.parse]

    A recursive-descent reader of the JSON grammar.  Two parts of the grammar
    are left out and make the reader fail: fractions, exponents and the
    negative zero in numbers, and [\u] escapes above U+007F.  The properties
    of an object are kept in the order of the text (the engine moves keys
    that are array indices to the front). *)

Definition is_ws (c : ascii) : bool :=
  let n := nat_of_ascii c in
  Nat.eqb n 32 || Nat.eqb n 9 || Nat.eqb n 10 || Nat.eqb n 13.

Fixpoint skip_ws (s : string) : string :=
  match s with
  | EmptyString => ""
  | String c s' => if is_ws c then skip_ws s' else s
  end.

Definition hex_value (c : ascii) : option nat :=
  let n := nat_of_ascii c in
  if Nat.leb 48 n && Nat.leb n 57 then Some (n - 48)
  else if Nat.leb 97 n && Nat.leb n 102 then Some (n - 87)
  else if Nat.leb 65 n && Nat.leb n 70 then Some (n - 55)
  else None.

Definition hex4 (h1 h2 h3 h4 : ascii) : option ascii :=
  match hex_value h1, hex_value h2, hex_value h3, hex_value h4 with
  | Some a, Some b, Some c, Some d =>
      let n := ((a * 16 + b) * 16 + c) * 16 + d in
      if Nat.ltb n 128 then Some (ascii_of_nat n) else None
  | _, _, _, _ => None
  end.

Definition unescape (e : ascii) : option ascii :=
  if Ascii.eqb e dquote then Some dquote
  else if Ascii.eqb e "\" then Some "\"%char
  else if Ascii.eqb e "/" then Some "/"%char
  else if Ascii.eqb e "b" then Some (ascii_of_nat 8)
  else if Ascii.eqb e "t" then Some (ascii_of_nat 9)
  else if Ascii.eqb e "n" then Some (ascii_of_nat 10)
  else if Ascii.eqb e "f" then Some (ascii_of_nat 12)
  else if Ascii.eqb e "r" then Some (ascii_of_nat 13)
  else None.

Definition push_char (c : ascii) (r : option (string * string))
  : option (string * string) :=
  match r with
  | Some (s, rest) => Some (String c s, rest)
  | None => None
  end.

(** The characters of a string literal, after its opening quote. *)
Fixpoint parse_chars (s : string) : option (string * string) :=
  match s with
  | EmptyString => None
  | String c s1 =>
      if Ascii.eqb c dquote then Some ("", s1)
      else if Ascii.eqb c "\" then
        match s1 with
        | EmptyString => None
        | String e s2 =>
            if Ascii.eqb e "u" then
              match s2 with
              | String h1 (String h2 (String h3 (String h4 s3))) =>
                  match hex4 h1 h2 h3 h4 with
                  | Some c' => push_char c' (parse_chars s3)
                  | None => None
                  end
              | _ => None
              end
            else
              match unescape e with
              | Some c' => push_char c' (parse_chars s2)
              | None => None
              end
        end
      else if Nat.ltb (nat_of_ascii c) 32 then None
      else push_char c (parse_chars s1)
  end.

Definition is_num_char (c : ascii) : bool :=
  let n := nat_of_ascii c in
  Ascii.eqb c "-" || (Nat.leb 48 n && Nat.leb n 57).

Fixpoint span_num (s : string) : string * string :=
  match s with
  | EmptyString => ("", "")
  | String c s' =>
      if is_num_char c then let (lit, rest) := span_num s' in (String c lit, rest)
      else ("", s)
  end.

Definition parse_number (s : string) : option (JSON * string) :=
  let (lit, rest) := span_num s in
  match NilZero.int_of_string lit with
  | Some d =>
      let n := Z.of_int d in
      if String.eqb (print_Z n) lit then Some (JNum n, rest) else None
  | None => None
  end.

(** [strip_prefix p s] is the rest of [s] after its prefix [p]. *)
Fixpoint strip_prefix (p s : string) : option string :=
  match p, s with
  | EmptyString, _ => Some s
  | String a p', String b s' => if Ascii.eqb a b then strip_prefix p' s' else None
  | _, _ => None
  end.

(** Object members are entered one by one, a repeated key overwriting. *)
Definition object_of_members (members : list (string * JSON)) : list (string * JSON) :=
  fold_left (fun acc kv => set_prop (fst kv) (snd kv) acc) members [].

Fixpoint parse_value (fuel : nat) (s : string) : option (JSON * string) :=
  match fuel with
  | O => None
  | S fuel' =>
      match skip_ws s with
      | EmptyString => None
      | String c r =>
          if Ascii.eqb c "[" then
            match skip_ws r with
            | String c' r' =>
                if Ascii.eqb c' "]" then Some (JArr [], r')
                else match parse_elements fuel' r with
                     | Some (l, r'') => Some (JArr l, r'')
                     | None => None
                     end
            | EmptyString => None
            end
          else if Ascii.eqb c "{" then
            match skip_ws r with
            | String c' r' =>
                if Ascii.eqb c' "}" then Some (JObj [], r')
                else match parse_members fuel' r with
                     | Some (ms, r'') => Some (JObj (object_of_members ms), r'')
                     | None => None
                     end
            | EmptyString => None
            end
          else if Ascii.eqb c dquote then
            match parse_chars r with
            | Some (str, r') => Some (JStr str, r')
            | None => None
            end
          else if Ascii.eqb c "n" then
            match strip_prefix "ull" r with
            | Some r' => Some (JNull, r') | None => None end
          else if Ascii.eqb c "t" then
            match strip_prefix "rue" r with
            | Some r' => Some (JBool true, r') | None => None end
          else if Ascii.eqb c "f" then
            match strip_prefix "alse" r with
            | Some r' => Some (JBool false, r') | None => None end
          else parse_number (String c r)
      end
  end
with parse_elements (fuel : nat) (s : string) : option (list JSON * string) :=
  match fuel with
  | O => None
  | S fuel' =>
      match parse_value fuel' s with
      | Some (v, r) =>
          match skip_ws r with
          | String c r' =>
              if Ascii.eqb c "," then
                match parse_elements fuel' r' with
                | Some (l, r'') => Some (v :: l, r'')
                | None => None
                end
              else if Ascii.eqb c "]" then Some ([v], r')
              else None
          | EmptyString => None
          end
      | None => None
      end
  end
with parse_members (fuel : nat) (s : string)
  : option (list (string * JSON) * string) :=
  match fuel with
  | O => None
  | S fuel' =>
      match skip_ws s with
      | String q r0 =>
          if Ascii.eqb q dquote then
            match parse_chars r0 with
            | Some (k, r1) =>
                match skip_ws r1 with
                | String colon r2 =>
                    if Ascii.eqb colon ":" then
                      match parse_value fuel' r2 with
                      | Some (v, r3) =>
                          match skip_ws r3 with
                          | String c r4 =>
                              if Ascii.eqb c "," then
                                match parse_members fuel' r4 with
                                | Some (ms, r5) => Some ((k, v) :: ms, r5)
                                | None => None
                                end
                              else if Ascii.eqb c "}" then Some ([(k, v)], r4)
                              else None
                          | EmptyString => None
                          end
                      | None => None
                      end
                    else None
                | EmptyString => None
                end
            | None => None
            end
          else None
      | EmptyString => None
      end
  end.

(** [JSON.parse(text)]: one value, then only white space; a SyntaxError
    otherwise.  Every step of the reader consumes a character, so the length
    of the text bounds the recursion. *)
Definition JSON_parse (text : string) : Completion JSON :=
  match parse_value (S (String.length text)) text with
  | Some (v, rest) =>
      match skip_ws rest with
      | EmptyString => Normal v
      | _ => Throw SyntaxError
      end
  | None => Throw SyntaxError
  end.


(** A value [JSON.parse] can deliver: no object lists a key twice. *)
Fixpoint no_dup (keys : list string) : bool :=
  match keys with
  | [] => true
  | k :: rest => negb (existsb (String.eqb k) rest) && no_dup rest
  end.

Fixpoint distinct_keys (v : JSON) : bool :=
  match v with
  | JArr elems => forallb distinct_keys elems
  | JObj props =>
      no_dup (map fst props) && forallb (fun kv => distinct_keys (snd kv)) props
  | _ => true
  end.

(** The number of reader steps a value takes. *)
Fixpoint size (v : JSON) : nat :=
  match v with
  | JArr elems => S (list_sum (map (fun e => S (size e)) elems))
  | JObj props => S (list_sum (map (fun kv => S (size (snd kv))) props))
  | _ => 1
  end.

(** [ToString], as applied to a computed property key or inside a template
    literal.  (Exact for integers below 10^21 in absolute value.) *)
Fixpoint toString (v : JSON) : string :=
  match v with
  | JNull => "null"
  | JBool true => "true"
  | JBool false => "false"
  | JNum n => print_Z n
  | JStr s => s
  | JArr elems =>
      join_comma (map (fun e => match e with JNull => "" | _ => toString e end) elems)
  | JObj _ => "[object Object]"
  end.

Definition toPropertyKey (v : option JSON) : string :=
  match v with
  | None => "undefined"
  | Some v => toString v
  end.

(** ** The page: storage, console, text field, picker element *)

Inductive LogEntry : Type :=
| console_error (label : string) (e : Exn)
| alert (message : string)
(* alert(`Successfully imported ${n} new emojis and updated ${m} existing emojis`) *)
| alert_imported (n m : nat)
(* alert(`Error importing emojis: ${error.message}`) *)
| alert_import_error (e : Exn).

(** A text control: its content and, where the control supports it, the
    selection range (offsets into the content). *)
Record TextControl : Type := {
  value : string;
  selection : option (nat * nat)
}.

(** Everything the scripts read and write outside their own variables.
    [quota] is the number of characters (keys and values) the storage area
    accepts; [log] lists the console and alert calls, oldest first;
    [pickerClassList] is [picker.classList]. *)
Record World : Type := {
  localStorage : gmap string string;
  quota : nat;
  log : list LogEntry;
  textarea : TextControl;
  pickerClassList : list string
}.

Definition set_localStorage (m : gmap string string) (w : World) : World :=
  {| localStorage := m; quota := quota w; log := log w;
     textarea := textarea w; pickerClassList := pickerClassList w |}.

Definition set_log (l : list LogEntry) (w : World) : World :=
  {| localStorage := localStorage w; quota := quota w; log := l;
     textarea := textarea w; pickerClassList := pickerClassList w |}.

Definition set_textarea (t : TextControl) (w : World) : World :=
  {| localStorage := localStorage w; quota := quota w; log := log w;
     textarea := t; pickerClassList := pickerClassList w |}.

Definition set_pickerClassList (c : list string) (w : World) : World :=
  {| localStorage := localStorage w; quota := quota w; log := log w;
     textarea := textarea w; pickerClassList := c |}.

(** A script computation: it runs in a world, completes normally or throws,
    and leaves a world behind. *)
Definition M (A : Type) : Type := World -> Completion A * World.

Definition ret {A : Type} (a : A) : M A := fun w => (Normal a, w).

Definition bind {A B : Type} (m : M A) (k : A -> M B) : M B :=
  fun w =>
    match m w with
    | (Normal a, w') => k a w'
    | (Throw e, w') => (Throw e, w')
    end.

Definition throw {A : Type} (e : Exn) : M A := fun w => (Throw e, w).

(** [try { body } catch (error) { handler }] *)
Definition try_catch {A : Type} (body : M A) (handler : Exn -> M A) : M A :=
  fun w =>
    match body w with
    | (Normal a, w') => (Normal a, w')
    | (Throw e, w') => handler e w'
    end.

(** A pure step that may throw. *)
Definition lift {A : Type} (c : Completion A) : M A := fun w => (c, w).

Declare Scope js_scope.
Delimit Scope js_scope with js.
Notation "'let*' x ':=' m 'in' k" := (bind m (fun x => k))
  (at level 10, x pattern, m at level 100, k at level 200) : js_scope.
Notation "m ';;' k" := (bind m (fun _ => k))
  (at level 100, k at level 200, right associativity) : js_scope.
Open Scope js_scope.

Definition emit (e : LogEntry) : M unit :=
  fun w => (Normal tt, set_log (log w ++ [e])%list w).

(** Characters held by a storage area. *)
Definition usage (m : gmap string string) : nat :=
  map_fold (fun k v acc => String.length k + String.length v + acc) 0 m.

(** [localStorage.getItem(key)]: [None] stands for [null]. *)
Definition getItem (key : string) : M (option string) :=
  fun w => (Normal (localStorage w !! key), w).

(** [localStorage.setItem(key, value)]: throws when the area would exceed
    its quota, and then stores nothing. *)
Definition setItem (key value : string) : M unit :=
  fun w =>
    let m := <[key := value]> (localStorage w) in
    if Nat.leb (usage m) (quota w) then (Normal tt, set_localStorage m w)
    else (Throw QuotaExceededError, w).

(** ** Array methods with callbacks that may throw *)

Definition cbind {A B : Type} (c : Completion A) (k : A -> Completion B) : Completion B :=
  match c with
  | Normal a => k a
  | Throw e => Throw e
  end.

(** The receiver of an array method: a value without the method makes the
    call throw a TypeError. *)
Definition as_array (v : JSON) : Completion (list JSON) :=
  match v with
  | JArr elems => Normal elems
  | _ => Throw TypeError
  end.

(** [Array.prototype.findIndex]; [None] stands for the result -1. *)
Fixpoint findIndex_from (i : nat) (p : JSON -> Completion bool) (l : list JSON)
  : Completion (option nat) :=
  match l with
  | [] => Normal None
  | x :: rest =>
      cbind (p x) (fun b => if b then Normal (Some i) else findIndex_from (S i) p rest)
  end.

Definition findIndex (p : JSON -> Completion bool) (l : list JSON)
  : Completion (option nat) := findIndex_from 0 p l.

(** [Array.prototype.some] *)
Fixpoint some (p : JSON -> Completion bool) (l : list JSON) : Completion bool :=
  match l with
  | [] => Normal false
  | x :: rest => cbind (p x) (fun b => if b then Normal true else some p rest)
  end.

(** [Array.prototype.filter] *)
Fixpoint filter_js (p : JSON -> Completion bool) (l : list JSON)
  : Completion (list JSON) :=
  match l with
  | [] => Normal []
  | x :: rest =>
      cbind (p x) (fun b =>
      cbind (filter_js p rest) (fun rest' =>
      Normal (if b then x :: rest' else rest')))
  end.

(** [Array.prototype.map] *)
Fixpoint map_js {B : Type} (f : JSON -> Completion B) (l : list JSON)
  : Completion (list B) :=
  match l with
  | [] => Normal []
  | x :: rest =>
      cbind (f x) (fun y => cbind (map_js f rest) (fun ys => Normal (y :: ys)))
  end.

(** [[...v]]: arrays and strings are iterable, a string by its characters;
    anything else throws a TypeError. *)
Definition spread (v : JSON) : Completion (list JSON) :=
  match v with
  | JArr elems => Normal elems
  | JStr s => Normal (map (fun c => JStr (String c "")) (list_ascii_of_string s))
  | _ => Throw TypeError
  end.

(** ** [DOMTokenList] *)

Definition contains (token : string) (classes : list string) : bool :=
  existsb (String.eqb token) classes.

Definition classList_add (token : string) (classes : list string) : list string :=
  if contains token classes then classes else (classes ++ [token])%list.

Definition classList_remove (token : string) (classes : list string) : list string :=
  List.filter (fun t => negb (String.eqb token t)) classes.

Definition classList_toggle (token : string) (classes : list string) : list string :=
  if contains token classes then classList_remove token classes
  else (classes ++ [token])%list.

(** ** The base dataset of the picker widget

    The object imported from the widget's data package: a list of
    categories, the table of emojis by id, and further members the scripts
    pass through untouched. *)

Record Category : Type := {
  cat_id : string;
  cat_name : option string;
  cat_emojis : list (option JSON)
}.

Record EmojiData : Type := {
  categories : list Category;
  emojis : gmap string JSON;
  aliases : gmap string string;
  sheet : JSON
}.

(** The descriptor the widget hands to its selection callback. *)
Record Selected : Type := {
  sel_native : option string;
  sel_id : string;
  sel_src : option string
}.

(** Where a mouse click lands: on the trigger button, on the button that
    opens the manager, on an emoji of the picker (the widget then hands the
    descriptor of the emoji to its selection callback), elsewhere inside the
    picker, or on an element outside the picker and outside the two buttons
    that has no click listener of its own. *)
Inductive Target : Type :=
| OnAddEmojiButton
| OnManageButton
| OnEmoji (inputEmoji : Selected)
| InsidePicker
| Elsewhere.

(* ===================================================================== *)
(** * Part 2. The scripts                                                 *)
(* ===================================================================== *)

Definition CUSTOM_EMOJI_CATEGORY : string := "custom".
Definition CUSTOM_EMOJI_STORAGE_KEY : string := "custom_emojis".
Definition displayNone : string := "displayNone".

(** ** Functions whose text is the same in the two scripts *)

(** [!s] for a string-or-undefined operand is [negb (nonempty s)]. *)
Definition nonempty (s : option string) : bool :=
  match s with
  | Some s => negb (String.eqb s "")
  | None => false
  end.

(** What a DOM string argument makes of a string-or-undefined value. *)
Definition toDOMString (s : option string) : string :=
  match s with
  | Some s => s
  | None => "undefined"
  end.

(** [el.setRangeText(newText, start, end, 'end')]: the range is replaced and
    the caret put after the new text; offsets beyond the content are clamped
    to its length. *)
Definition setRangeText (newText : string) (start end_ : nat) (el : TextControl)
  : Completion TextControl :=
  if Nat.ltb end_ start then Throw IndexSizeError
  else
    let len := String.length (value el) in
    let s := Nat.min start len in
    let e := Nat.min end_ len in
    Normal {| value := substring 0 s (value el) ++ newText
                       ++ substring e (len - e) (value el);
              selection := Some (s + String.length newText, s + String.length newText) |}.

Definition typeInTextarea (newText : option string) (el : TextControl)
  : Completion TextControl :=
  match selection el with
  | None =>
      Normal {| value := value el ++ toDOMString newText; selection := None |}
  | Some (start, end_) => setRangeText (toDOMString newText) start end_ el
  end.

(** The local variable [emojiText] of [insertEmoji]. *)
Definition emojiText (inputEmoji : Selected) : option string :=
  if nonempty (sel_src inputEmoji) && negb (nonempty (sel_native inputEmoji)) then
    Some ("![" ++ sel_id inputEmoji ++ "](" ++ toDOMString (sel_src inputEmoji) ++ ")")
  else sel_native inputEmoji.

Definition insertEmoji (inputEmoji : Selected) : M unit :=
  fun w =>
    match typeInTextarea (emojiText inputEmoji) (textarea w) with
    | Normal el =>
        (Normal tt,
         set_pickerClassList (classList_add displayNone (pickerClassList w))
           (set_textarea el w))
    | Throw e => (Throw e, w)
    end.

Definition picker_contains (t : Target) : bool :=
  match t with InsidePicker | OnEmoji _ => true | _ => false end.

Definition addEmojiButton_contains (t : Target) : bool :=
  match t with OnAddEmojiButton => true | _ => false end.

(** The click listener of the button container. *)
Definition onContainerClick (target : Target) : M unit :=
  fun w =>
    if addEmojiButton_contains target then
      (Normal tt, set_pickerClassList (classList_toggle displayNone (pickerClassList w)) w)
    else (Normal tt, w).

(** The click listener of the document body. *)
Definition onBodyClick (target : Target) : M unit :=
  fun w =>
    if negb (contains displayNone (pickerClassList w))
       && negb (picker_contains target)
       && negb (addEmojiButton_contains target) then
      (Normal tt, set_pickerClassList (classList_add displayNone (pickerClassList w)) w)
    else (Normal tt, w).

(** The keyup listener of the document body. *)
Definition onBodyKeyup (key : string) : M unit :=
  fun w =>
    if negb (contains displayNone (pickerClassList w)) && String.eqb key "Escape" then
      (Normal tt, set_pickerClassList (classList_add displayNone (pickerClassList w)) w)
    else (Normal tt, w).

(** [emoji => emoji.id === id] *)
Definition id_is (id : option JSON) (emoji : JSON) : Completion bool :=
  cbind (get_prop "id" emoji) (fun v => Normal (strict_eq v id)).

(** [emoji => emoji.id !== id] *)
Definition id_is_not (id : option JSON) (emoji : JSON) : Completion bool :=
  cbind (get_prop "id" emoji) (fun v => Normal (negb (strict_eq v id))).

(** The object literal [newEmoji] of [addCustomEmoji]. *)
Definition newEmoji (id name url : string) (keywords : list string) : JSON :=
  JObj [("id", JStr id);
        ("name", JStr name);
        ("src", JStr url);
        ("keywords", JArr (JStr name :: map JStr keywords));
        ("skins", JArr [JObj [("src", JStr url)]])].

(** [customEmojis.length === 0] *)
Definition length_is_zero (v : JSON) : Completion bool :=
  match v with
  | JNull => Throw TypeError
  | JArr elems => Normal (Nat.eqb (length elems) 0)
  | JStr s => Normal (String.eqb s "")
  | JObj props => Normal (strict_eq (lookup_prop "length" props) (Some (JNum 0)))
  | _ => Normal false
  end.

(** The accumulator of the [reduce] call: the own properties of the object
    that starts as [{}], and the object that an assignment to the key
    [__proto__] has installed as its prototype, if any. *)
Definition Accumulator : Type := (gmap string JSON * option JSON)%type.

(** [acc[key] = emoji].  The key [__proto__] reaches the inherited setter,
    which replaces the prototype when the value is an object, unless a data
    property of that name is found first, on [acc] or on its prototype. *)
Definition assign (acc : Accumulator) (key : string) (emoji : JSON) : Accumulator :=
  let (own, proto) := acc in
  if String.eqb key "__proto__" then
    match own !! key with
    | Some _ => (<[key := emoji]> own, proto)
    | None =>
        match proto with
        | Some (JObj props) =>
            match lookup_prop key props with
            | Some _ => (<[key := emoji]> own, proto)
            | None =>
                match emoji with
                | JObj _ | JArr _ => (own, Some emoji)
                | _ => (own, proto)
                end
            end
        | _ =>
            match emoji with
            | JObj _ | JArr _ => (own, Some emoji)
            | _ => (own, proto)
            end
        end
    end
  else (<[key := emoji]> own, proto).

(** [customEmojis.reduce((acc, emoji) => { acc[emoji.id] = emoji; return acc; }, {})] *)
Fixpoint reduce_by_id (acc : Accumulator) (l : list JSON) : Completion Accumulator :=
  match l with
  | [] => Normal acc
  | emoji :: rest =>
      cbind (get_prop "id" emoji) (fun id =>
      reduce_by_id (assign acc (toPropertyKey id) emoji) rest)
  end.

(** The body of [createCustomEmojiData] after the call of
    [loadCustomEmojis]. *)
Definition enhancedData (data : EmojiData) (customEmojis : JSON) : Completion EmojiData :=
  cbind (length_is_zero customEmojis) (fun empty =>
  if empty then Normal data
  else
    cbind (as_array customEmojis) (fun l =>
    cbind (map_js (get_prop "id") l) (fun ids =>
    let customCategory :=
      {| cat_id := CUSTOM_EMOJI_CATEGORY; cat_name := Some "Custom"; cat_emojis := ids |} in
    cbind (reduce_by_id (∅, None) l) (fun acc =>
    Normal {| categories := (categories data ++ [customCategory])%list;
              emojis := fst acc ∪ emojis data;
              aliases := aliases data;
              sheet := sheet data |})))).

(** ** [src/src/index.js] *)

Module IndexJs.

Definition loadCustomEmojis : M JSON :=
  try_catch
    (let* stored := getItem CUSTOM_EMOJI_STORAGE_KEY in
     match stored with
     | Some text => if negb (String.eqb text "") then lift (JSON_parse text) else ret (JArr [])
     | None => ret (JArr [])
     end)
    (fun error =>
       emit (console_error "Error loading custom emojis:" error);;
       ret (JArr [])).

Definition saveCustomEmojis (emojis : list JSON) : M unit :=
  try_catch
    (setItem CUSTOM_EMOJI_STORAGE_KEY (JSON_stringify (JArr emojis)))
    (fun error => emit (console_error "Error saving custom emojis:" error)).

Definition addCustomEmoji (id name url : string) (keywords : list string) : M bool :=
  let* customEmojis := loadCustomEmojis in
  let newEmoji := newEmoji id name url keywords in
  let* customEmojis := lift (as_array customEmojis) in
  let* existingIndex := lift (findIndex (id_is (Some (JStr id))) customEmojis) in
  let customEmojis :=
    match existingIndex with
    | Some i => <[i := newEmoji]> customEmojis
    | None => (customEmojis ++ [newEmoji])%list
    end in
  saveCustomEmojis customEmojis;;
  ret true.

Definition removeCustomEmoji (id : string) : M bool :=
  let* customEmojis := loadCustomEmojis in
  let* customEmojis := lift (as_array customEmojis) in
  let* filteredEmojis := lift (filter_js (id_is_not (Some (JStr id))) customEmojis) in
  saveCustomEmojis filteredEmojis;;
  ret true.

Definition createCustomEmojiData (data : EmojiData) : M EmojiData :=
  let* customEmojis := loadCustomEmojis in
  lift (enhancedData data customEmojis).

End IndexJs.

(** ** The script of [src/unnamed/part_000] *)

Module Part000.

Definition loadCustomEmojis : M JSON :=
  try_catch
    (let* stored := getItem CUSTOM_EMOJI_STORAGE_KEY in
     match stored with
     | Some text => if negb (String.eqb text "") then lift (JSON_parse text) else ret (JArr [])
     | None => ret (JArr [])
     end)
    (fun error =>
       emit (console_error "Error loading custom emojis:" error);;
       emit (alert "Failed to load custom emojis. Please try again.");;
       ret (JArr [])).

Definition saveCustomEmojis (emojis : list JSON) : M unit :=
  try_catch
    (setItem CUSTOM_EMOJI_STORAGE_KEY (JSON_stringify (JArr emojis)))
    (fun error =>
       emit (console_error "Error saving custom emojis:" error);;
       emit (alert "Failed to save custom emojis. Check browser storage settings.")).

Definition createCustomEmojiData (data : EmojiData) : M EmojiData :=
  let* customEmojis := loadCustomEmojis in
  lift (enhancedData data customEmojis).

(** [refreshEmojiPicker], without the construction and placement of the
    widget: the dataset is composed again and the picker element the script
    holds gets the class [displayNone]. *)
Definition refreshEmojiPicker (data : EmojiData) : M unit :=
  let* _ := createCustomEmojiData data in
  fun w => (Normal tt, set_pickerClassList (classList_add displayNone (pickerClassList w)) w).

(** [updateCustomEmojiList], without the rendering: the records are loaded
    and the markup of each item reads its [src], [name] and [id]. *)
Definition updateCustomEmojiList : M unit :=
  let* customEmojis := loadCustomEmojis in
  let* customEmojis := lift (as_array customEmojis) in
  let* _ := lift (map_js (fun emoji =>
                    cbind (get_prop "src" emoji) (fun _ =>
                    cbind (get_prop "name" emoji) (fun _ =>
                    get_prop "id" emoji))) customEmojis) in
  ret tt.

(** The validation loop of [importCustomEmojis]. *)
Fixpoint validate (importedEmojis : list JSON) : Completion unit :=
  match importedEmojis with
  | [] => Normal tt
  | emoji :: rest =>
      cbind (get_prop "id" emoji) (fun id =>
      if negb (truthy id) then
        Throw (Error "Invalid emoji format: missing required fields (id, name, src)")
      else
        cbind (get_prop "name" emoji) (fun name =>
        if negb (truthy name) then
          Throw (Error "Invalid emoji format: missing required fields (id, name, src)")
        else
          cbind (get_prop "src" emoji) (fun src =>
          if negb (truthy src) then
            Throw (Error "Invalid emoji format: missing required fields (id, name, src)")
          else validate rest)))
  end.

(** The merge loop of [importCustomEmojis], on the pair of its two
    variables [mergedEmojis] and [importCount]. *)
Fixpoint merge (importedEmojis : list JSON) (mergedEmojis : list JSON) (importCount : nat)
  : Completion (list JSON * nat) :=
  match importedEmojis with
  | [] => Normal (mergedEmojis, importCount)
  | importedEmoji :: rest =>
      cbind (findIndex (fun e =>
               cbind (get_prop "id" e) (fun a =>
               cbind (get_prop "id" importedEmoji) (fun b =>
               Normal (strict_eq a b)))) mergedEmojis) (fun existingIndex =>
      match existingIndex with
      | Some i => merge rest (<[i := importedEmoji]> mergedEmojis) importCount
      | None => merge rest (mergedEmojis ++ [importedEmoji])%list (S importCount)
      end)
  end.

(** [importCustomEmojis(file)], from the text that [file.text()] delivers. *)
Definition importCustomEmojis (data : EmojiData) (text : string) : M bool :=
  try_catch
    (let* importedEmojis := lift (JSON_parse text) in
     let* importedEmojis :=
       match importedEmojis with
       | JArr elems => ret elems
       | _ => throw (Error "Invalid file format: expected array of emojis")
       end in
     lift (validate importedEmojis);;
     let* existingEmojis := loadCustomEmojis in
     let* mergedEmojis := lift (spread existingEmojis) in
     let* r := lift (merge importedEmojis mergedEmojis 0) in
     let (mergedEmojis, importCount) := r : list JSON * nat in
     saveCustomEmojis mergedEmojis;;
     refreshEmojiPicker data;;
     updateCustomEmojiList;;
     emit (alert_imported importCount (length importedEmojis - importCount));;
     ret true)
    (fun error =>
       emit (console_error "Error importing emojis:" error);;
       emit (alert_import_error error);;
       ret false).

(** [emoji => emoji.name === name && emoji.id !== id] *)
Definition name_taken (name id : string) (emoji : JSON) : Completion bool :=
  cbind (get_prop "name" emoji) (fun n =>
  if strict_eq n (Some (JStr name)) then id_is_not (Some (JStr id)) emoji
  else Normal false).

Definition addCustomEmoji (id name url : string) (keywords : list string) : M bool :=
  let* customEmojis := loadCustomEmojis in
  let* customEmojis := lift (as_array customEmojis) in
  let* duplicate := lift (some (name_taken name id) customEmojis) in
  if duplicate then
    emit (alert "An emoji with this name already exists. Please choose a different name.");;
    ret false
  else
    let newEmoji := newEmoji id name url keywords in
    let* existingIndex := lift (findIndex (id_is (Some (JStr id))) customEmojis) in
    let customEmojis :=
      match existingIndex with
      | Some i => <[i := newEmoji]> customEmojis
      | None => (customEmojis ++ [newEmoji])%list
      end in
    try_catch
      (saveCustomEmojis customEmojis;; ret true)
      (fun error =>
         emit (console_error "Error adding emoji:" error);;
         emit (alert "Failed to add emoji due to storage error.");;
         ret false).

Definition removeCustomEmoji (id : string) : M bool :=
  let* customEmojis := loadCustomEmojis in
  let* customEmojis := lift (as_array customEmojis) in
  let* filteredEmojis := lift (filter_js (id_is_not (Some (JStr id))) customEmojis) in
  try_catch
    (saveCustomEmojis filteredEmojis;; ret true)
    (fun error =>
       emit (console_error "Error removing emoji:" error);;
       emit (alert "Failed to remove emoji due to storage error.");;
       ret false).

End Part000.

(** ** Notions used in the statements *)

(** The content of the storage slot of the custom emojis. *)
Definition slot (w : World) : option string :=
  localStorage w !! CUSTOM_EMOJI_STORAGE_KEY.

(** The collection a slot content stands for: what [loadCustomEmojis]
    returns in a world with that slot (lemmas [IndexJs_load_collection] and
    [Part000_load_collection]). *)
Definition decode (stored : option string) : JSON :=
  match stored with
  | None => JArr []
  | Some s =>
      if String.eqb s "" then JArr []
      else match JSON_parse s with
           | Normal v => v
           | Throw _ => JArr []
           end
  end.

Definition collection (w : World) : JSON := decode (slot w).

(** The storage area accepts the text of [emojis] in the slot. *)
Definition write_ok (w : World) (emojis : list JSON) : bool :=
  Nat.leb (usage (<[CUSTOM_EMOJI_STORAGE_KEY := JSON_stringify (JArr emojis)]>
                    (localStorage w)))
          (quota w).

(** The world after a successful write of [emojis]. *)
Definition written (w : World) (emojis : list JSON) : World :=
  set_localStorage (<[CUSTOM_EMOJI_STORAGE_KEY := JSON_stringify (JArr emojis)]>
                      (localStorage w)) w.

(** A record is a JSON object; [prop_of k r] is [r.k]. *)
Definition is_record (v : JSON) : bool :=
  match v with JObj _ => true | _ => false end.

Definition prop_of (k : string) (v : JSON) : option JSON :=
  match v with
  | JObj props => lookup_prop k props
  | _ => None
  end.

(** A record the import accepts: [id], [name] and [src] are present and
    not empty. *)
Definition valid_record (v : JSON) : bool :=
  is_record v && truthy (prop_of "id" v) && truthy (prop_of "name" v)
  && truthy (prop_of "src" v).

(** The result of [add] on a collection: the new record replaces the first
    record of the same id, or is appended when there is none. *)
Definition first_index (id : option JSON) (l : list JSON) : option nat :=
  fst <$> list_find (fun e => strict_eq (prop_of "id" e) id = true) l.

Definition upsert (id : option JSON) (record : JSON) (l : list JSON) : list JSON :=
  match first_index id l with
  | Some i => <[i := record]> l
  | None => (l ++ [record])%list
  end.

(** The result of an import on a collection: every imported record, in the
    order of the file, replaces the first record of its id or is appended
    when there is none. *)
Definition merged_by_id (existing imported : list JSON) : list JSON :=
  fold_left (fun cur r => upsert (prop_of "id" r) r cur) imported existing.

(** Some record other than [id] bears the name [name]. *)
Definition name_in_use (name id : string) (l : list JSON) : bool :=
  existsb (fun e => strict_eq (prop_of "name" e) (Some (JStr name))
                    && negb (strict_eq (prop_of "id" e) (Some (JStr id)))) l.

(** The records whose id is not [id]. *)
Definition without (id : string) (l : list JSON) : list JSON :=
  List.filter (fun e => negb (strict_eq (prop_of "id" e) (Some (JStr id)))) l.

(** Imported records whose id is that of a record of [existing]. *)
Definition overlaps (existing imported : list JSON) : nat :=
  length (List.filter (fun r =>
            existsb (fun e => strict_eq (prop_of "id" e) (prop_of "id" r)) existing)
            imported).

(** No two records of the list have the same id. *)
Fixpoint distinct_ids (l : list JSON) : bool :=
  match l with
  | [] => true
  | r :: rest =>
      negb (existsb (fun e => strict_eq (prop_of "id" r) (prop_of "id" e)) rest)
      && distinct_ids rest
  end.

(** The picker shows unless its class list holds [displayNone]. *)
Definition visible (w : World) : bool :=
  negb (contains displayNone (pickerClassList w)).

(** A click outside the picker and outside the trigger button. *)
Definition outside (t : Target) : bool :=
  negb (picker_contains t) && negb (addEmojiButton_contains t).

(** The image reference [![id](src)]. *)
Definition image_markdown (id src : string) : string :=
  "![" ++ id ++ "](" ++ src ++ ")".

(** ** Sample worlds *)

(** A page with an empty storage area of the given quota. *)
Definition empty_page (q : nat) : World :=
  {| localStorage := ∅; quota := q; log := [];
     textarea := {| value := ""; selection := Some (0, 0) |};
     pickerClassList := [displayNone] |}.

(** A page whose slot holds the text of [emojis]. *)
Definition page_with (emojis : list JSON) (q : nat) : World :=
  written (empty_page q) emojis.

Definition wave : JSON := newEmoji "wave" "Wave" "https://x/y.png" [].
Definition smile : JSON := newEmoji "smile" "Smile" "https://x/s.png" ["happy"].

(** A record as an import file may carry it: [id], [name] and [src] only. *)
Definition plain_record (id name src : string) : JSON :=
  JObj [("id", JStr id); ("name", JStr name); ("src", JStr src)].

Definition sample_data : EmojiData :=
  {| categories := [{| cat_id := "people"; cat_name := None;
                       cat_emojis := [Some (JStr "grinning")] |}];
     emojis := {["grinning" := JObj [("id", JStr "grinning"); ("name", JStr "Grinning Face")]]};
     aliases := ∅;
     sheet := JObj [("cols", JNum 61); ("rows", JNum 61)] |}.

(** Texts of import files. *)
Definition import_text_two_new : string :=
  JSON_stringify (JArr [plain_record "a" "A" "https://x/a.png";
                        plain_record "b" "B" "https://x/b.png"]).

Definition import_text_invalid : string :=
  JSON_stringify (JArr [plain_record "a" "A" "https://x/a.png";
                        JObj [("id", JStr "b"); ("name", JStr ""); ("src", JStr "s")]]).

Definition import_text_repeated : string :=
  JSON_stringify (JArr [plain_record "a" "A" "https://x/a.png";
                        plain_record "a" "A2" "https://x/a2.png"]).

(** A descriptor with an image source and an empty native glyph. *)
Definition selected_empty_native : Selected :=
  {| sel_native := Some ""; sel_id := "wave"; sel_src := Some "https://x/y.png" |}.

(** A page whose slot holds the given text, whatever it is. *)
Definition page_with_text (text : string) (q : nat) : World :=
  set_localStorage (<[CUSTOM_EMOJI_STORAGE_KEY := text]> ∅) (empty_page q).

(** ** Induction on JSON values

    The induction principle that reaches under the lists of an array and of
    an object. *)

Section JSON_induction.
Variable P : JSON -> Prop.
Hypothesis Hnull : P JNull.
Hypothesis Hbool : forall b, P (JBool b).
Hypothesis Hnum : forall n, P (JNum n).
Hypothesis Hstr : forall s, P (JStr s).
Hypothesis Harr : forall elems, Forall P elems -> P (JArr elems).
Hypothesis Hobj : forall props, Forall (fun kv => P (snd kv)) props -> P (JObj props).

Fixpoint JSON_nested_ind (v : JSON) : P v :=
  match v with
  | JNull => Hnull
  | JBool b => Hbool b
  | JNum n => Hnum n
  | JStr s => Hstr s
  | JArr elems =>
      Harr elems
        ((fix go (l : list JSON) : Forall P l :=
            match l with
            | [] => @List.Forall_nil _ P
            | x :: r => @List.Forall_cons _ P x r (JSON_nested_ind x) (go r)
            end) elems)
  | JObj props =>
      Hobj props
        ((fix go (l : list (string * JSON)) : Forall (fun kv => P (snd kv)) l :=
            match l with
            | [] => @List.Forall_nil _ _
            | kv :: r =>
                @List.Forall_cons _ (fun kv => P (snd kv)) kv r
                  (JSON_nested_ind (snd kv)) (go r)
            end) props)
  end.
End JSON_induction.

(* ===================================================================== *)
(** * Part 2, continued. The panel, the files and the start-up code       *)
(* ===================================================================== *)

(** ** String methods and patterns of the engine

    From here on a string of the model is read as the UTF-8 encoding of the
    script's string: a character is one to four bytes, and a character of
    four bytes is two code units of the script. *)

(** The rest of a string after one leading white space or line terminator
    character (what [trim] strips and what [\s] matches): U+0009 to U+000D,
    U+0020, U+00A0, U+1680, U+2000 to U+200A, U+2028, U+2029, U+202F, U+205F,
    U+3000 and U+FEFF. *)
Definition strip_space (s : string) : option string :=
  match s with
  | EmptyString => None
  | String c r =>
      let n := nat_of_ascii c in
      if (Nat.leb 9 n && Nat.leb n 13) || Nat.eqb n 32 then Some r
      else
        match r with
        | String d r1 =>
            let a := nat_of_ascii d in
            if Nat.eqb n 194 then (if Nat.eqb a 160 then Some r1 else None)
            else
              match r1 with
              | String e r2 =>
                  let b := nat_of_ascii e in
                  if Nat.eqb n 225 then
                    (if Nat.eqb a 154 && Nat.eqb b 128 then Some r2 else None)
                  else if Nat.eqb n 226 then
                    (if Nat.eqb a 128 &&
                        ((Nat.leb 128 b && Nat.leb b 138) || Nat.eqb b 168
                         || Nat.eqb b 169 || Nat.eqb b 175) then Some r2
                     else if Nat.eqb a 129 && Nat.eqb b 159 then Some r2
                     else None)
                  else if Nat.eqb n 227 then
                    (if Nat.eqb a 128 && Nat.eqb b 128 then Some r2 else None)
                  else if Nat.eqb n 239 then
                    (if Nat.eqb a 187 && Nat.eqb b 191 then Some r2 else None)
                  else None
              | EmptyString => None
              end
        | EmptyString => None
        end
  end.

(** [String.prototype.trimStart]; every step takes a character off, so the
    length of the string bounds the steps. *)
Fixpoint trimStart_steps (steps : nat) (s : string) : string :=
  match steps with
  | O => s
  | S steps' =>
      match strip_space s with
      | Some r => trimStart_steps steps' r
      | None => s
      end
  end.

Definition trimStart (s : string) : string := trimStart_steps (String.length s) s.

(** [String.prototype.trimEnd]: the string up to its last character that is
    not white space. *)
Fixpoint trimEnd (s : string) : string :=
  match s with
  | EmptyString => ""
  | String c r =>
      if String.eqb (trimStart s) "" then "" else String c (trimEnd r)
  end.

(** [String.prototype.trim] *)
Definition trim (s : string) : string := trimEnd (trimStart s).

(** [s.split(sep)] for a separator of one character. *)
Fixpoint split_on (sep : ascii) (s : string) : list string :=
  match s with
  | EmptyString => [""]
  | String c r =>
      if Ascii.eqb c sep then "" :: split_on sep r
      else
        match split_on sep r with
        | p :: ps => String c p :: ps
        | [] => [String c ""]
        end
  end.

(** [s.startsWith(p)] *)
Definition startsWith (p s : string) : bool :=
  match strip_prefix p s with
  | Some _ => true
  | None => false
  end.

(** [String.prototype.toLowerCase] on the ASCII letters and on the Kelvin
    sign (U+212A), the one other character whose lower case is an ASCII
    letter; the remaining letters keep their bytes.  The scripts compare the
    result with ASCII words only. *)
Fixpoint toLowerCase (s : string) : string :=
  match s with
  | EmptyString => ""
  | String c r =>
      let n := nat_of_ascii c in
      if Nat.leb 65 n && Nat.leb n 90 then String (ascii_of_nat (n + 32)) (toLowerCase r)
      else
        match r with
        | String d (String e r2) =>
            if Nat.eqb n 226 && Nat.eqb (nat_of_ascii d) 132
               && Nat.eqb (nat_of_ascii e) 170
            then String "k" (toLowerCase r2)
            else String c (toLowerCase r)
        | _ => String c (toLowerCase r)
        end
  end.

(** [/^[a-zA-Z0-9_-]+$/.test(id)] *)
Definition id_char (c : ascii) : bool :=
  let n := nat_of_ascii c in
  (Nat.leb 97 n && Nat.leb n 122) || (Nat.leb 65 n && Nat.leb n 90)
  || (Nat.leb 48 n && Nat.leb n 57) || Nat.eqb n 95 || Nat.eqb n 45.

Fixpoint all_chars (p : ascii -> bool) (s : string) : bool :=
  match s with
  | EmptyString => true
  | String c r => p c && all_chars p r
  end.

Definition id_pattern (id : string) : bool :=
  negb (String.eqb id "") && all_chars id_char id.

(** The number of bytes of the character that starts with the byte [c]. *)
Definition char_bytes (c : ascii) : nat :=
  let n := nat_of_ascii c in
  if Nat.leb 240 n then 4 else if Nat.leb 224 n then 3 else if Nat.leb 192 n then 2 else 1.

Fixpoint drop_bytes (n : nat) (s : string) : string :=
  match n, s with
  | S n', String _ r => drop_bytes n' r
  | _, _ => s
  end.

(** No white space anywhere: the match of [[^\s]*$]. *)
Fixpoint no_space (s : string) : bool :=
  match s with
  | EmptyString => true
  | String _ r =>
      match strip_space s with
      | Some _ => false
      | None => no_space r
      end
  end.

(** A line terminator leads the string: what [.] does not match. *)
Definition line_terminator_first (s : string) : bool :=
  match s with
  | String c (String d (String e _)) =>
      let n := nat_of_ascii c in
      Nat.eqb n 10 || Nat.eqb n 13
      || (Nat.eqb n 226 && Nat.eqb (nat_of_ascii d) 128
          && (Nat.eqb (nat_of_ascii e) 168 || Nat.eqb (nat_of_ascii e) 169))
  | String c _ => let n := nat_of_ascii c in Nat.eqb n 10 || Nat.eqb n 13
  | EmptyString => false
  end.

Definition url_punctuation (c : ascii) : bool :=
  Ascii.eqb c "$" || Ascii.eqb c "." || Ascii.eqb c "?" || Ascii.eqb c "#".

(** The match of [[^\s$.?#].[^\s]*$] on what follows the scheme.  The
    pattern works on code units: a character of four bytes serves both the
    class and the dot, or the dot and the first step of the star. *)
Definition url_rest_pattern (r : string) : bool :=
  match r with
  | EmptyString => false
  | String c _ =>
      match strip_space r with
      | Some _ => false
      | None =>
          if url_punctuation c then false
          else if Nat.eqb (char_bytes c) 4 then no_space (drop_bytes 4 r)
          else
            let r1 := drop_bytes (char_bytes c) r in
            match r1 with
            | EmptyString => false
            | String d _ =>
                if line_terminator_first r1 then false
                else no_space (drop_bytes (char_bytes d) r1)
            end
      end
  end.

(** [url.match(/^https?:\/\/[^\s$.?#].[^\s]*$/)] is not null. *)
Definition url_pattern (url : string) : bool :=
  match strip_prefix "https://" url with
  | Some r => url_rest_pattern r
  | None =>
      match strip_prefix "http://" url with
      | Some r => url_rest_pattern r
      | None => false
      end
  end.

(** ** [encodeURIComponent] and the body of a data URL *)

Definition uri_unreserved (c : ascii) : bool :=
  let n := nat_of_ascii c in
  (Nat.leb 97 n && Nat.leb n 122) || (Nat.leb 65 n && Nat.leb n 90)
  || (Nat.leb 48 n && Nat.leb n 57)
  || Ascii.eqb c "-" || Ascii.eqb c "_" || Ascii.eqb c "." || Ascii.eqb c "!"
  || Ascii.eqb c "~" || Ascii.eqb c "*" || Ascii.eqb c "'" || Ascii.eqb c "("
  || Ascii.eqb c ")".

Definition HEX_digit (n : nat) : ascii :=
  match n with
  | 0 => "0" | 1 => "1" | 2 => "2" | 3 => "3" | 4 => "4" | 5 => "5" | 6 => "6"
  | 7 => "7" | 8 => "8" | 9 => "9" | 10 => "A" | 11 => "B" | 12 => "C"
  | 13 => "D" | 14 => "E" | _ => "F"
  end%char.

(** Every byte of the UTF-8 text that is not unreserved becomes [%XX]. *)
Fixpoint encodeURIComponent (s : string) : string :=
  match s with
  | EmptyString => ""
  | String c r =>
      if uri_unreserved c then String c (encodeURIComponent r)
      else
        let n := nat_of_ascii c in
        String "%" (String (HEX_digit (n / 16)) (String (HEX_digit (n mod 16))
                                                   (encodeURIComponent r)))
  end.

(** The percent-decoding a browser applies to the body of a data URL. *)
Fixpoint percent_decode (s : string) : string :=
  match s with
  | EmptyString => ""
  | String c r =>
      if Ascii.eqb c "%" then
        match r with
        | String h1 (String h2 r2) =>
            match hex_value h1, hex_value h2 with
            | Some a, Some b => String (ascii_of_nat (a * 16 + b)) (percent_decode r2)
            | _, _ => String c (percent_decode r)
            end
        | _ => String c (percent_decode r)
        end
      else String c (percent_decode r)
  end.

(** ** [JSON.stringify(value, null, 2)] *)

Fixpoint indentation (depth : nat) : string :=
  match depth with
  | O => ""
  | S d => "  " ++ indentation d
  end.

Definition newline : string := String (ascii_of_nat 10) "".

(** Concatenation with the separator [,], a line break and the indentation
    of the elements. *)
Fixpoint join_lines (depth : nat) (parts : list string) : string :=
  match parts with
  | [] => ""
  | [p] => p
  | p :: rest => p ++ "," ++ newline ++ indentation depth ++ join_lines depth rest
  end.

Fixpoint stringify_indented (depth : nat) (v : JSON) : string :=
  match v with
  | JArr [] => "[]"
  | JArr elems =>
      "[" ++ newline ++ indentation (S depth)
          ++ join_lines (S depth) (map (stringify_indented (S depth)) elems)
          ++ newline ++ indentation depth ++ "]"
  | JObj [] => "{}"
  | JObj props =>
      "{" ++ newline ++ indentation (S depth)
          ++ join_lines (S depth)
               (map (fun kv => quote (fst kv) ++ ": " ++ stringify_indented (S depth) (snd kv))
                    props)
          ++ newline ++ indentation depth ++ "}"
  | _ => stringify v
  end.

Definition JSON_stringify_2 (v : JSON) : string := stringify_indented 0 v.

(** ** Files, the network, the clock and the panel *)

(** A file the user picks: its size in bytes, its media type, what
    [FileReader.readAsDataURL] delivers (the data URL, or the error event
    the promise rejects with), and what [file.text()] delivers. *)
Record File : Type := {
  file_size : N;
  file_type : string;
  file_dataURL : Completion string;
  file_text : string
}.

(** What [fetch(url, { method: 'HEAD' })] comes to: a rejection, or a
    response with its [ok] flag and its [Content-Type] header ([None] for
    [null]). *)
Inductive FetchResult : Type :=
| Rejected (e : Exn)
| Response (ok : bool) (contentType : option string).

(** The link [exportCustomEmojis] clicks. *)
Record Download : Type := {
  href : string;
  download : string
}.

(** The value of a radio button of the group [imageSource]. *)
Inductive ImageSource : Type :=
| Upload
| Url.

(** The panel [createCustomEmojiManager] builds: whether it shows, the
    values of its inputs, the checked radio button, the picked file, the
    image of the preview, and whether each of the two source sections
    shows. *)
Record Manager : Type := {
  shown : bool;
  emojiId : string;
  emojiName : string;
  emojiKeywords : string;
  imageSource : ImageSource;
  emojiFile : option File;
  emojiUrl : string;
  imagePreview : option string;
  uploadSection : bool;
  urlSection : bool
}.

(** The panel as it is created. *)
Definition new_manager : Manager :=
  {| shown := false; emojiId := ""; emojiName := ""; emojiKeywords := "";
     imageSource := Upload; emojiFile := None; emojiUrl := "";
     imagePreview := None; uploadSection := true; urlSection := false |}.

(** [value.trim().split(',').map(k => k.trim()).filter(k => k)] *)
Definition keywords_of (value : string) : list string :=
  List.filter (fun k => negb (String.eqb k "")) (map trim (split_on "," (trim value))).

(** ** Functions whose text is the same in the two scripts, continued *)

(** [getLanguageCode] *)
Definition getLanguageCode : M string :=
  let* language := getItem "language" in
  match language with
  | Some language =>
      if negb (String.eqb language "") then
        ret (toLowerCase (trim (hd "" (split_on "-" language))))
      else ret "en"
  | None => ret "en"
  end.

(** The language codes [getLocaleData] has a case for. *)
Definition locales : list string :=
  ["ar"; "be"; "cs"; "de"; "en"; "es"; "fa"; "fi"; "fr"; "hi"; "it"; "ja"; "ko";
   "nl"; "pl"; "pt"; "ru"; "sa"; "tr"; "uk"; "vi"; "zh"].

Definition includes (words : list string) (w : string) : bool :=
  existsb (String.eqb w) words.

(** [getLocaleData]: the module the [switch] imports. *)
Definition getLocaleData : M string :=
  let* languageCode := getLanguageCode in
  if includes locales languageCode then
    ret ("@emoji-mart/data/i18n/" ++ languageCode ++ ".json")
  else ret "@emoji-mart/data/i18n/en.json".

(** The panel once it shows. *)
Definition opened (m : Manager) : Manager :=
  {| shown := true; emojiId := emojiId m; emojiName := emojiName m;
     emojiKeywords := emojiKeywords m; imageSource := imageSource m;
     emojiFile := emojiFile m; emojiUrl := emojiUrl m;
     imagePreview := imagePreview m; uploadSection := uploadSection m;
     urlSection := urlSection m |}.

(** The click listener of [manageButton], after its [e.stopPropagation()]:
    the panel shows, then the list is drawn by [updateCustomEmojiList].  The
    panel shows also when the drawing throws. *)
Definition onManageButtonClick (updateCustomEmojiList : M unit) (m : Manager) (w : World)
  : Completion unit * Manager * World :=
  let (c, w') := updateCustomEmojiList w in (c, opened m, w').

(** A click on [target], listener by listener in the order of the dispatch;
    the result is what the listeners complete with, the panel and the page.
    The listener of the manage button
    stops the event, so the listeners of the button container and of the
    body do not run.  A click on an emoji runs the selection callback of the
    widget, [insertEmoji], and then, like every click inside the picker, the
    listener of the body; the button container is no ancestor of the
    picker.  A click on the trigger button or elsewhere runs the listener of
    the button container, which acts on the trigger button only, and then
    the listener of the body. *)
Definition click (updateCustomEmojiList : M unit) (target : Target) (m : Manager) (w : World)
  : Completion unit * Manager * World :=
  match target with
  | OnManageButton => onManageButtonClick updateCustomEmojiList m w
  | OnEmoji inputEmoji =>
      let (c, w1) := insertEmoji inputEmoji w in
      let (_, w2) := onBodyClick target w1 in
      (c, m, w2)
  | InsidePicker =>
      let (c, w') := onBodyClick target w in (c, m, w')
  | OnAddEmojiButton | Elsewhere =>
      let (c, w') := (onContainerClick target;; onBodyClick target) w in (c, m, w')
  end.

(** ** [src/src/index.js], continued *)

Module IndexJsPanel.

(** [refreshEmojiPicker], without the construction and placement of the
    widget. *)
Definition refreshEmojiPicker (data : EmojiData) : M unit :=
  let* _ := IndexJs.createCustomEmojiData data in
  fun w => (Normal tt, set_pickerClassList (classList_add displayNone (pickerClassList w)) w).

(** [updateCustomEmojiList], without the rendering. *)
Definition updateCustomEmojiList : M unit :=
  let* customEmojis := IndexJs.loadCustomEmojis in
  let* customEmojis := lift (as_array customEmojis) in
  let* _ := lift (map_js (fun emoji =>
                    cbind (get_prop "src" emoji) (fun _ =>
                    cbind (get_prop "name" emoji) (fun _ =>
                    get_prop "id" emoji))) customEmojis) in
  ret tt.

(** The form after [addCustomEmoji] succeeded. *)
Definition cleared (m : Manager) : Manager :=
  {| shown := shown m; emojiId := ""; emojiName := ""; emojiKeywords := "";
     imageSource := imageSource m; emojiFile := emojiFile m; emojiUrl := "";
     imagePreview := imagePreview m; uploadSection := uploadSection m;
     urlSection := urlSection m |}.

(** The click listener of the button [addEmoji]. *)
Definition onAddEmojiClick (data : EmojiData) (m : Manager) : M Manager :=
  let id := trim (emojiId m) in
  let name := trim (emojiName m) in
  let url := trim (emojiUrl m) in
  let keywords := keywords_of (emojiKeywords m) in
  if String.eqb id "" || String.eqb name "" || String.eqb url "" then
    emit (alert "Please fill in all required fields");;
    ret m
  else
    let* added := IndexJs.addCustomEmoji id name url keywords in
    if added then
      let m := cleared m in
      refreshEmojiPicker data;;
      updateCustomEmojiList;;
      ret m
    else ret m.

(** The click listener of a button [removeEmoji] of the list, with the
    answer to [confirm]. *)
Definition onRemoveEmojiClick (data : EmojiData) (id : string) (confirmed : bool) : M unit :=
  if confirmed then
    IndexJs.removeCustomEmoji id;;
    refreshEmojiPicker data;;
    updateCustomEmojiList
  else ret tt.

End IndexJsPanel.

(** ** The script of [src/unnamed/part_000], continued *)

Module Part000Panel.

(** [fileToDataURL] *)
Definition fileToDataURL (file : File) : M string := lift (file_dataURL file).

Definition allowedTypes : list string :=
  ["image/png"; "image/jpeg"; "image/jpg"; "image/gif"; "image/webp"].

Definition maxSize : N := 2 * 1024 * 1024.

(** [validateImageFile] *)
Definition validateImageFile (file : File) : M bool :=
  if N.ltb maxSize (file_size file) then
    emit (alert "File size must be less than 2MB");;
    ret false
  else if negb (includes allowedTypes (file_type file)) then
    emit (alert "Only PNG, JPEG, GIF, and WebP images are allowed");;
    ret false
  else ret true.

(** [validateImageUrl], against the network [fetch]. *)
Definition validateImageUrl (fetch : string -> FetchResult) (url : string) : M bool :=
  if negb (url_pattern url) then
    emit (alert "Please enter a valid HTTP/HTTPS URL");;
    ret false
  else
    try_catch
      (match fetch url with
       | Rejected e => throw e
       | Response ok contentType =>
           if ok then
             match contentType with
             | Some contentType => ret (startsWith "image/" contentType)
             | None => throw TypeError
             end
           else ret false
       end)
      (fun error =>
         emit (console_error "Error validating image URL:" error);;
         emit (alert "Invalid or unreachable image URL");;
         ret false).

(** [exportCustomEmojis], at the time whose [toISOString()] is [now]: the
    link it clicks, or [None] when there is nothing to export. *)
Definition exportCustomEmojis (now : string) : M (option Download) :=
  let* customEmojis := Part000.loadCustomEmojis in
  let* empty := lift (length_is_zero customEmojis) in
  if empty then
    emit (alert "No custom emojis to export.");;
    ret None
  else
    let dataStr := JSON_stringify_2 customEmojis in
    let dataUri := "data:application/json;charset=utf-8," ++ encodeURIComponent dataStr in
    let exportFileDefaultName :=
      "custom_emojis_" ++ hd "" (split_on "T" now) ++ ".json" in
    ret (Some {| href := dataUri; download := exportFileDefaultName |}).

(** The file a browser saves for a link: the decoded body of its data URL. *)
Definition saved_text (d : Download) : option string :=
  match strip_prefix "data:application/json;charset=utf-8," (href d) with
  | Some body => Some (percent_decode body)
  | None => None
  end.

(** The click listener of [closeManager]. *)
Definition onCloseManagerClick (m : Manager) : Manager :=
  {| shown := false; emojiId := emojiId m; emojiName := emojiName m;
     emojiKeywords := emojiKeywords m; imageSource := imageSource m;
     emojiFile := emojiFile m; emojiUrl := emojiUrl m;
     imagePreview := imagePreview m; uploadSection := uploadSection m;
     urlSection := urlSection m |}.

(** The change listener of the radio buttons, once the button of [value] is
    checked. *)
Definition onImageSourceChange (value : ImageSource) (m : Manager) : Manager :=
  {| shown := shown m; emojiId := emojiId m; emojiName := emojiName m;
     emojiKeywords := emojiKeywords m; imageSource := value;
     emojiFile := emojiFile m; emojiUrl := emojiUrl m;
     imagePreview := imagePreview m;
     uploadSection := match value with Upload => true | Url => false end;
     urlSection := match value with Upload => false | Url => true end |}.

Definition set_file (file : option File) (preview : option string) (m : Manager) : Manager :=
  {| shown := shown m; emojiId := emojiId m; emojiName := emojiName m;
     emojiKeywords := emojiKeywords m; imageSource := imageSource m;
     emojiFile := file; emojiUrl := emojiUrl m;
     imagePreview := preview; uploadSection := uploadSection m;
     urlSection := urlSection m |}.

(** The change listener of the file input [emojiFile], once the user has
    picked [file] (or no file). *)
Definition onEmojiFileChange (file : option File) (m : Manager) : M Manager :=
  match file with
  | None => ret (set_file None None m)
  | Some f =>
      let* valid := validateImageFile f in
      if negb valid then ret (set_file None None m)
      else
        try_catch
          (let* dataURL := fileToDataURL f in
           ret (set_file (Some f) (Some dataURL) m))
          (fun error =>
             emit (console_error "Error reading file:" error);;
             emit (alert "Error reading the selected file");;
             ret (set_file None None m))
  end.

(** The form after [addCustomEmoji] succeeded. *)
Definition cleared (m : Manager) : Manager :=
  {| shown := shown m; emojiId := ""; emojiName := ""; emojiKeywords := "";
     imageSource := Upload; emojiFile := None; emojiUrl := "";
     imagePreview := None; uploadSection := true; urlSection := false |}.

(** The text of the two alerts that name an emoji. *)
Definition added_message (name : string) : string :=
  "Emoji " ++ String dquote name ++ String dquote " added successfully!".

Definition removed_message (id : string) : string :=
  "Emoji " ++ String dquote id ++ String dquote " removed successfully!".

(** The image source of the form, [None] when the listener returns before
    it has one. *)
Definition image_url (fetch : string -> FetchResult) (m : Manager) : M (option string) :=
  match imageSource m with
  | Upload =>
      match emojiFile m with
      | None =>
          emit (alert "Please select a file to upload");;
          ret None
      | Some file =>
          let* valid := validateImageFile file in
          if negb valid then ret None
          else
            try_catch
              (let* url := fileToDataURL file in ret (Some url))
              (fun error =>
                 emit (console_error "Error processing file:" error);;
                 emit (alert "Error processing the selected file");;
                 ret None)
      end
  | Url =>
      let url := trim (emojiUrl m) in
      if String.eqb url "" then
        emit (alert "Please enter an image URL");;
        ret None
      else
        let* valid := validateImageUrl fetch url in
        if negb valid then ret None else ret (Some url)
  end.

(** The click listener of the button [addEmoji]. *)
Definition onAddEmojiClick (data : EmojiData) (fetch : string -> FetchResult)
           (m : Manager) : M Manager :=
  let id := trim (emojiId m) in
  let name := trim (emojiName m) in
  let keywords := keywords_of (emojiKeywords m) in
  if String.eqb id "" || String.eqb name "" then
    emit (alert "Please fill in emoji ID and name");;
    ret m
  else if negb (id_pattern id) then
    emit (alert "Emoji ID can only contain letters, numbers, underscores, and hyphens");;
    ret m
  else
    let* url := image_url fetch m in
    match url with
    | None => ret m
    | Some url =>
        let* added := Part000.addCustomEmoji id name url keywords in
        if added then
          let m := cleared m in
          Part000.refreshEmojiPicker data;;
          Part000.updateCustomEmojiList;;
          emit (alert (added_message name));;
          ret m
        else
          emit (alert "Failed to add emoji");;
          ret m
    end.

(** The change listener of the file input [importFile]. *)
Definition onImportFileChange (data : EmojiData) (file : option File) : M unit :=
  match file with
  | Some f =>
      if String.eqb (file_type f) "application/json" then
        Part000.importCustomEmojis data (file_text f);;
        ret tt
      else emit (alert "Please select a valid JSON file")
  | None => ret tt
  end.

(** The click listener of [clearAllEmojis], with the answer to [confirm]. *)
Definition onClearAllEmojisClick (data : EmojiData) (confirmed : bool) : M unit :=
  if confirmed then
    Part000.saveCustomEmojis [];;
    Part000.refreshEmojiPicker data;;
    Part000.updateCustomEmojiList;;
    emit (alert "All custom emojis have been deleted")
  else ret tt.

(** The click listener of a button [removeEmoji] of the list, with the
    answer to [confirm]. *)
Definition onRemoveEmojiClick (data : EmojiData) (id : string) (confirmed : bool) : M unit :=
  if confirmed then
    let* removed := Part000.removeCustomEmoji id in
    if removed then
      Part000.refreshEmojiPicker data;;
      Part000.updateCustomEmojiList;;
      emit (alert (removed_message id))
    else emit (alert "Failed to remove emoji")
  else ret tt.

End Part000Panel.

(** ** Samples: answers of the network, a form *)

Definition fetch_image : string -> FetchResult :=
  fun _ => Response true (Some "image/png").

Definition fetch_page : string -> FetchResult :=
  fun _ => Response true (Some "text/html").

(** The panel, open, with the URL source checked and the given inputs. *)
Definition form (id name keywords url : string) : Manager :=
  {| shown := true; emojiId := id; emojiName := name; emojiKeywords := keywords;
     imageSource := Url; emojiFile := None; emojiUrl := url;
     imagePreview := None; uploadSection := false; urlSection := true |}.

(** ** Notions used in the statements, continued *)

(** A byte of a printable ASCII character other than the space. *)
Definition printable (c : ascii) : bool :=
  Nat.leb 33 (nat_of_ascii c) && Nat.leb (nat_of_ascii c) 126.

(** Every record has a string for its id, as the records of
    [addCustomEmoji] have. *)
Definition string_ids (l : list JSON) : bool :=
  forallb (fun r => match prop_of "id" r with Some (JStr _) => true | _ => false end) l.

(** The last record of the list that [reduce] files under the key [k]. *)
Definition last_with_key (k : string) (l : list JSON) : option JSON :=
  last (List.filter (fun r => String.eqb (toPropertyKey (prop_of "id" r)) k) l).

(* ===================================================================== *)
(** * Part 3. Properties                                                  *)
(* ===================================================================== *)

(** ** Strings *)

#[local] Arguments String.append !_ _ / : simpl nomatch.

Lemma append_assoc (a b c : string) : (a ++ b) ++ c = a ++ (b ++ c).
Proof. induction a as [|x a IH]; simpl; [reflexivity | now rewrite IH]. Qed.

Lemma append_length (a b : string) :
  String.length (a ++ b) = String.length a + String.length b.
Proof. induction a as [|x a IH]; simpl; [reflexivity | now rewrite IH]. Qed.

(** Reading back one escaped character. *)
Lemma parse_chars_escape_char (c : ascii) (t : string) :
  parse_chars (escape_char c ++ t) = push_char c (parse_chars t).
Proof.
  destruct c as [[] [] [] [] [] [] [] []]; reflexivity.
Qed.

Lemma parse_chars_escape (s rest : string) :
  parse_chars (escape s ++ String dquote rest) = Some (s, rest).
Proof.
  induction s as [|c s IH]; simpl.
  - reflexivity.
  - rewrite append_assoc, parse_chars_escape_char, IH. reflexivity.
Qed.

Lemma append_empty_r (a : string) : a ++ "" = a.
Proof. induction a as [|x a IH]; simpl; [reflexivity | now rewrite IH]. Qed.

(** ** Numbers *)

Lemma span_num_uint (d : Decimal.uint) (rest : string) :
  span_num rest = ("", rest) ->
  span_num (NilEmpty.string_of_uint d ++ rest) = (NilEmpty.string_of_uint d, rest).
Proof.
  intros Hrest. induction d; simpl; try rewrite IHd; auto.
Qed.

Lemma span_num_print_Z (n : Z) (rest : string) :
  span_num rest = ("", rest) ->
  span_num (print_Z n ++ rest) = (print_Z n, rest).
Proof.
  intros Hrest. unfold print_Z.
  destruct (Z.to_int n) as [d|d]; simpl.
  - destruct d; try apply (span_num_uint _ _ Hrest).
    simpl. now rewrite Hrest.
  - destruct d; simpl; try (rewrite (span_num_uint _ _ Hrest)); try reflexivity.
    now rewrite Hrest.
Qed.

Lemma int_of_string_print_Z (n : Z) :
  NilZero.int_of_string (print_Z n) = Some (Z.to_int n).
Proof.
  unfold print_Z. apply NilZero.isi.
  - destruct n; simpl; try discriminate.
    intros [= H]. now apply Unsigned.to_uint_nonnil in H.
  - destruct n; simpl; try discriminate.
    intros [= H]. now apply Unsigned.to_uint_nonnil in H.
Qed.

Lemma parse_number_print_Z (n : Z) (rest : string) :
  span_num rest = ("", rest) ->
  parse_number (print_Z n ++ rest) = Some (JNum n, rest).
Proof.
  intros Hrest. unfold parse_number.
  rewrite (span_num_print_Z _ _ Hrest), int_of_string_print_Z, DecimalZ.of_to.
  now rewrite String.eqb_refl.
Qed.

Lemma print_Z_head (n : Z) :
  exists c t, print_Z n = String c t /\ is_num_char c = true.
Proof.
  unfold print_Z. destruct (Z.to_int n) as [d|d]; simpl.
  - destruct d; simpl; eauto.
  - eauto.
Qed.

Lemma parse_value_number (fuel : nat) (c : ascii) (t : string) :
  is_num_char c = true ->
  parse_value (S fuel) (String c t) = parse_number (String c t).
Proof.
  destruct c as [[] [] [] [] [] [] [] []]; intros H; try discriminate H; reflexivity.
Qed.

Lemma print_Z_length (n : Z) : 1 <= String.length (print_Z n).
Proof.
  destruct (print_Z_head n) as (c & t & -> & _). simpl. lia.
Qed.

(** ** The reader inverts the printer *)

Lemma num_char_not_special (c : ascii) :
  is_num_char c = true ->
  is_ws c = false /\ Ascii.eqb c "]" = false /\ Ascii.eqb c "}" = false.
Proof.
  destruct c as [[] [] [] [] [] [] [] []]; intros H; try discriminate H; repeat split.
Qed.

Lemma stringify_head (v : JSON) :
  exists c t, stringify v = String c t /\
    is_ws c = false /\ Ascii.eqb c "]" = false /\ Ascii.eqb c "}" = false.
Proof.
  destruct v as [|[]|n|s|l|ps]; simpl; try (do 2 eexists; repeat split; reflexivity).
  destruct (print_Z_head n) as (c & t & E & H). exists c, t. split; [exact E|].
  now apply num_char_not_special.
Qed.

Lemma skip_ws_head (c : ascii) (t : string) :
  is_ws c = false -> skip_ws (String c t) = String c t.
Proof. intros H. simpl. now rewrite H. Qed.

Lemma existsb_eqb_false (k : string) (keys : list string) :
  existsb (String.eqb k) keys = false <-> k ∉ keys.
Proof.
  induction keys as [|k' keys IH]; simpl.
  - split; [intros _; apply not_elem_of_nil | reflexivity].
  - rewrite orb_false_iff, IH, not_elem_of_cons, String.eqb_neq. tauto.
Qed.

Lemma no_dup_NoDup (keys : list string) : no_dup keys = true <-> NoDup keys.
Proof.
  induction keys as [|k keys IH]; simpl.
  - split; [constructor | reflexivity].
  - rewrite andb_true_iff, negb_true_iff, existsb_eqb_false, IH, NoDup_cons. tauto.
Qed.

Lemma set_prop_fresh (k : string) (v : JSON) (props : list (string * JSON)) :
  k ∉ map fst props -> set_prop k v props = (props ++ [(k, v)])%list.
Proof.
  induction props as [|[k' v'] props IH]; simpl; intros Hk; [reflexivity|].
  apply not_elem_of_cons in Hk as [Hne Hk].
  destruct (String.eqb_spec k' k) as [->|_]; [congruence|].
  now rewrite IH.
Qed.

Lemma object_of_members_gen (ms acc : list (string * JSON)) :
  NoDup (map fst (acc ++ ms)%list) ->
  fold_left (fun a kv => set_prop (fst kv) (snd kv) a) ms acc = (acc ++ ms)%list.
Proof.
  revert acc. induction ms as [|[k v] ms IH]; intros acc Hnd; simpl.
  - now rewrite app_nil_r.
  - rewrite set_prop_fresh.
    + rewrite IH; rewrite <- app_assoc; [reflexivity | exact Hnd].
    + rewrite map_app in Hnd. apply NoDup_app in Hnd as (_ & Hdisj & _).
      intros Hin. apply (Hdisj k Hin). simpl. constructor.
Qed.

Lemma object_of_members_no_dup (props : list (string * JSON)) :
  no_dup (map fst props) = true -> object_of_members props = props.
Proof.
  intros H. apply no_dup_NoDup in H. unfold object_of_members.
  now rewrite object_of_members_gen.
Qed.

Lemma parse_elements_step (fuel : nat) (s : string) :
  parse_elements (S fuel) s =
  match parse_value fuel s with
  | Some (v, r) =>
      match skip_ws r with
      | String c r' =>
          if Ascii.eqb c "," then
            match parse_elements fuel r' with
            | Some (l, r'') => Some (v :: l, r'')
            | None => None
            end
          else if Ascii.eqb c "]" then Some ([v], r')
          else None
      | EmptyString => None
      end
  | None => None
  end.
Proof. reflexivity. Qed.

Lemma join_comma_cons (p q : string) (rest : list string) :
  join_comma (p :: q :: rest) = p ++ "," ++ join_comma (q :: rest).
Proof. reflexivity. Qed.

Lemma parse_elements_stringify (elems : list JSON) :
  Forall (fun v => distinct_keys v = true ->
            forall fuel rest, size v <= fuel -> span_num rest = ("", rest) ->
            parse_value fuel (stringify v ++ rest) = Some (v, rest)) elems ->
  elems <> [] ->
  forallb distinct_keys elems = true ->
  forall fuel rest,
    list_sum (map (fun e => S (size e)) elems) <= fuel ->
    parse_elements fuel (join_comma (map stringify elems) ++ String "]" rest)
    = Some (elems, rest).
Proof.
  induction 1 as [|e l He Hl IH]; [congruence|].
  intros _ Hwf fuel rest Hfuel.
  simpl in Hwf. apply andb_prop in Hwf as [Hwe Hwl].
  destruct fuel as [|fuel]; [simpl in Hfuel; lia|].
  rewrite parse_elements_step.
  destruct l as [|e2 l].
  - simpl join_comma. rewrite He by (auto; simpl in *; lia). reflexivity.
  - rewrite !map_cons, join_comma_cons, append_assoc.
    rewrite He by (auto; simpl in *; lia).
    change (skip_ws (("," ++ join_comma (stringify e2 :: map stringify l)) ++ String "]" rest))
      with (String "," (join_comma (map stringify (e2 :: l)) ++ String "]" rest)).
    cbv iota beta. change (Ascii.eqb "," ",") with true. cbv iota.
    rewrite IH; [reflexivity|congruence|exact Hwl|simpl in *; lia].
Qed.

Lemma parse_members_step (fuel : nat) (s : string) :
  parse_members (S fuel) s =
  match skip_ws s with
  | String q r0 =>
      if Ascii.eqb q dquote then
        match parse_chars r0 with
        | Some (k, r1) =>
            match skip_ws r1 with
            | String colon r2 =>
                if Ascii.eqb colon ":" then
                  match parse_value fuel r2 with
                  | Some (v, r3) =>
                      match skip_ws r3 with
                      | String c r4 =>
                          if Ascii.eqb c "," then
                            match parse_members fuel r4 with
                            | Some (ms, r5) => Some ((k, v) :: ms, r5)
                            | None => None
                            end
                          else if Ascii.eqb c "}" then Some ([(k, v)], r4)
                          else None
                      | EmptyString => None
                      end
                  | None => None
                  end
                else None
            | EmptyString => None
            end
        | None => None
        end
      else None
  | EmptyString => None
  end.
Proof. reflexivity. Qed.

Lemma quote_append (k t : string) :
  quote k ++ t = String dquote (escape k ++ String dquote t).
Proof. unfold quote. simpl. now rewrite append_assoc. Qed.

Lemma skip_ws_dquote (t : string) : skip_ws (String dquote t) = String dquote t.
Proof. reflexivity. Qed.

Lemma skip_ws_punct (c : ascii) (t : string) :
  c = ":"%char \/ c = ","%char \/ c = "}"%char \/ c = "]"%char ->
  skip_ws (String c t) = String c t.
Proof. intros [-> | [-> | [-> | ->]]]; reflexivity. Qed.

Lemma parse_members_stringify (props : list (string * JSON)) :
  Forall (fun kv => distinct_keys (snd kv) = true ->
            forall fuel rest, size (snd kv) <= fuel -> span_num rest = ("", rest) ->
            parse_value fuel (stringify (snd kv) ++ rest) = Some (snd kv, rest)) props ->
  props <> [] ->
  forallb (fun kv => distinct_keys (snd kv)) props = true ->
  forall fuel rest,
    list_sum (map (fun kv => S (size (snd kv))) props) <= fuel ->
    parse_members fuel
      (join_comma (map (fun kv => quote (fst kv) ++ ":" ++ stringify (snd kv)) props)
       ++ String "}" rest)
    = Some (props, rest).
Proof.
  induction 1 as [|[k v] l He Hl IH]; [congruence|].
  intros _ Hwf fuel rest Hfuel.
  simpl in Hwf. apply andb_prop in Hwf as [Hwe Hwl].
  destruct fuel as [|fuel]; [simpl in Hfuel; lia|].
  rewrite parse_members_step.
  simpl in He.
  destruct l as [|kv2 l].
  - change (join_comma (map (fun kv => quote (fst kv) ++ ":" ++ stringify (snd kv)) [(k, v)]))
      with (quote k ++ ":" ++ stringify v).
    rewrite !append_assoc, quote_append, skip_ws_dquote.
    change (Ascii.eqb dquote dquote) with true. cbv iota.
    rewrite parse_chars_escape.
    change (String ":" EmptyString ++ stringify v ++ String "}" rest)
      with (String ":" (stringify v ++ String "}" rest)).
    rewrite skip_ws_punct by auto.
    change (Ascii.eqb ":" ":") with true. cbv iota.
    rewrite He by (auto; simpl in *; lia). reflexivity.
  - set (f := fun kv : string * JSON => quote (fst kv) ++ ":" ++ stringify (snd kv)) in *.
    change (join_comma (map f ((k, v) :: kv2 :: l)))
      with ((quote k ++ ":" ++ stringify v) ++ "," ++ join_comma (map f (kv2 :: l))).
    rewrite !append_assoc, quote_append, skip_ws_dquote.
    change (Ascii.eqb dquote dquote) with true. cbv iota.
    rewrite parse_chars_escape.
    match goal with
    | |- context [skip_ws (String ":" EmptyString ++ ?t)] =>
        change (String ":" EmptyString ++ t) with (String ":" t)
    end.
    rewrite skip_ws_punct by auto.
    change (Ascii.eqb ":" ":") with true. cbv iota.
    rewrite He by (auto; simpl in *; lia).
    match goal with
    | |- context [skip_ws (String "," EmptyString ++ ?t)] =>
        change (String "," EmptyString ++ t) with (String "," t)
    end.
    rewrite skip_ws_punct by auto.
    change (Ascii.eqb "," ",") with true. cbv iota.
    rewrite IH; [reflexivity|congruence|exact Hwl|simpl in *; lia].
Qed.

Lemma parse_value_step_array (fuel : nat) (r : string) :
  parse_value (S fuel) (String "[" r) =
  match skip_ws r with
  | String c' r' =>
      if Ascii.eqb c' "]" then Some (JArr [], r')
      else match parse_elements fuel r with
           | Some (l, r'') => Some (JArr l, r'')
           | None => None
           end
  | EmptyString => None
  end.
Proof. reflexivity. Qed.

Lemma parse_value_step_object (fuel : nat) (r : string) :
  parse_value (S fuel) (String "{" r) =
  match skip_ws r with
  | String c' r' =>
      if Ascii.eqb c' "}" then Some (JObj [], r')
      else match parse_members fuel r with
           | Some (ms, r'') => Some (JObj (object_of_members ms), r'')
           | None => None
           end
  | EmptyString => None
  end.
Proof. reflexivity. Qed.

Lemma parse_value_step_string (fuel : nat) (r : string) :
  parse_value (S fuel) (String dquote r) =
  match parse_chars r with
  | Some (str, r') => Some (JStr str, r')
  | None => None
  end.
Proof. reflexivity. Qed.

Lemma join_comma_head (p : string) (ps : list string) (c : ascii) (t : string) :
  p = String c t -> exists t', join_comma (p :: ps) = String c t'.
Proof.
  intros ->. destruct ps as [|q ps]; [eauto|].
  rewrite join_comma_cons. simpl. eauto.
Qed.

Theorem parse_value_stringify (v : JSON) :
  distinct_keys v = true ->
  forall fuel rest,
    size v <= fuel -> span_num rest = ("", rest) ->
    parse_value fuel (stringify v ++ rest) = Some (v, rest).
Proof.
  induction v as [|b|n|s|elems IH|props IH] using JSON_nested_ind;
    intros Hwf fuel rest Hfuel Hrest;
    (destruct fuel as [|fuel]; [simpl in Hfuel; lia|]).
  - reflexivity.
  - destruct b; reflexivity.
  - change (stringify (JNum n)) with (print_Z n).
    destruct (print_Z_head n) as (c & t & E & Hc).
    rewrite <- (parse_number_print_Z n rest Hrest).
    rewrite E. simpl String.append. now apply parse_value_number.
  - change (stringify (JStr s)) with (quote s).
    rewrite quote_append, parse_value_step_string, parse_chars_escape. reflexivity.
  - change (stringify (JArr elems))
      with ("[" ++ join_comma (map stringify elems) ++ "]").
    rewrite !append_assoc.
    change ("[" ++ join_comma (map stringify elems) ++ "]" ++ rest)
      with (String "[" (join_comma (map stringify elems) ++ String "]" rest)).
    rewrite parse_value_step_array.
    destruct elems as [|e elems]; [reflexivity|].
    destruct (stringify_head e) as (c & t & E & Hws & Hb & _).
    destruct (join_comma_head _ (map stringify elems) c t E) as (t' & E').
    assert (Hs : exists r', skip_ws (join_comma (map stringify (e :: elems))
                                      ++ String "]" rest) = String c r').
    { rewrite map_cons, E'. simpl String.append.
      rewrite skip_ws_head by exact Hws. eauto. }
    destruct Hs as (r' & ->). cbv iota beta. rewrite Hb.
    rewrite (parse_elements_stringify (e :: elems) IH);
      [reflexivity|congruence|exact Hwf|simpl in Hfuel; simpl; lia].
  - change (stringify (JObj props))
      with ("{" ++ join_comma (map (fun kv => quote (fst kv) ++ ":" ++ stringify (snd kv)) props)
             ++ "}").
    rewrite !append_assoc.
    match goal with
    | |- context [String.append "{" (String.append ?j (String.append "}" rest))] =>
        change (String.append "{" (String.append j (String.append "}" rest)))
          with (String "{" (j ++ String "}" rest))
    end.
    rewrite parse_value_step_object.
    simpl in Hwf. apply andb_prop in Hwf as [Hnd Hwf].
    destruct props as [|[k v] props]; [reflexivity|].
    set (f := fun kv : string * JSON => quote (fst kv) ++ ":" ++ stringify (snd kv)) in *.
    assert (Hs : exists r', skip_ws (join_comma (map f ((k, v) :: props))
                                      ++ String "}" rest) = String dquote r').
    { destruct (join_comma_head (f (k, v)) (map f props)
                  dquote (escape k ++ String dquote (":" ++ stringify v))) as (t' & E').
      { unfold f, quote. simpl. now rewrite append_assoc. }
      rewrite map_cons, E'. simpl String.append. rewrite skip_ws_dquote. eauto. }
    destruct Hs as (r' & ->). cbv iota beta.
    change (Ascii.eqb dquote "}") with false. cbv iota.
    rewrite (parse_members_stringify ((k, v) :: props) IH);
      [|congruence|exact Hwf|simpl in Hfuel; simpl; lia].
    now rewrite (object_of_members_no_dup _ Hnd).
Qed.

Lemma join_comma_length (ps : list string) :
  list_sum (map String.length ps) <= String.length (join_comma ps) + 1
  /\ (ps <> [] ->
      list_sum (map (fun p => S (String.length p)) ps) = S (String.length (join_comma ps))).
Proof.
  induction ps as [|p ps [IH1 IH2]]; [split; [simpl; lia | congruence]|].
  destruct ps as [|q ps].
  - simpl. split; [lia|intros _; lia].
  - rewrite join_comma_cons. rewrite !append_length.
    specialize (IH2 ltac:(congruence)).
    simpl in *. split; [lia|intros _; lia].
Qed.

Lemma list_sum_le {A : Type} (f g : A -> nat) (l : list A) :
  Forall (fun x => f x <= g x) l -> list_sum (map f l) <= list_sum (map g l).
Proof. induction 1; simpl; lia. Qed.

Lemma size_le_length (v : JSON) : size v <= String.length (stringify v).
Proof.
  induction v as [|b|n|s|elems IH|props IH] using JSON_nested_ind.
  - simpl. lia.
  - destruct b; simpl; lia.
  - simpl. apply print_Z_length.
  - simpl. lia.
  - change (stringify (JArr elems))
      with ("[" ++ join_comma (map stringify elems) ++ "]").
    rewrite !append_length.
    destruct elems as [|e elems]; [simpl; lia|].
    destruct (join_comma_length (map stringify (e :: elems))) as [_ H].
    specialize (H ltac:(discriminate)). rewrite map_map in H.
    change (size (JArr (e :: elems)))
      with (S (list_sum (map (fun x => S (size x)) (e :: elems)))).
    pose proof (list_sum_le (fun x => S (size x))
                  (fun x => S (String.length (stringify x))) (e :: elems)) as Hle.
    assert (Hall : Forall (fun x => S (size x) <= S (String.length (stringify x))) (e :: elems)).
    { eapply Forall_impl; [exact IH|]. simpl. intros; lia. }
    specialize (Hle Hall).
    set (J := join_comma (map stringify (e :: elems))) in *.
    set (a := list_sum (map (fun x => S (size x)) (e :: elems))) in *.
    set (b := list_sum (map (fun x => S (String.length (stringify x))) (e :: elems))) in *.
    change (String.length "[") with 1. change (String.length "]") with 1. lia.
  - change (stringify (JObj props))
      with ("{" ++ join_comma (map (fun kv => quote (fst kv) ++ ":" ++ stringify (snd kv)) props)
             ++ "}").
    rewrite !append_length.
    destruct props as [|kv props]; [simpl; lia|].
    set (f := fun kv : string * JSON => quote (fst kv) ++ ":" ++ stringify (snd kv)).
    destruct (join_comma_length (map f (kv :: props))) as [_ H].
    specialize (H ltac:(discriminate)). rewrite map_map in H.
    change (size (JObj (kv :: props)))
      with (S (list_sum (map (fun x => S (size (snd x))) (kv :: props)))).
    pose proof (list_sum_le (fun x => S (size (snd x)))
                  (fun x => S (String.length (f x))) (kv :: props)) as Hle.
    assert (Hall : Forall (fun x => S (size (snd x)) <= S (String.length (f x))) (kv :: props)).
    { eapply Forall_impl; [exact IH|]. intros x Hx. unfold f. cbv beta in Hx.
      rewrite !append_length. lia. }
    specialize (Hle Hall).
    set (J := join_comma (map f (kv :: props))) in *.
    set (a := list_sum (map (fun x => S (size (snd x))) (kv :: props))) in *.
    set (b := list_sum (map (fun x => S (String.length (f x))) (kv :: props))) in *.
    change (String.length "{") with 1. change (String.length "}") with 1. lia.
Qed.

(** [JSON.parse(JSON.stringify(v))] is [v]. *)
Theorem JSON_parse_stringify (v : JSON) :
  distinct_keys v = true -> JSON_parse (JSON_stringify v) = Normal v.
Proof.
  intros Hwf. unfold JSON_parse, JSON_stringify.
  rewrite <- (append_empty_r (stringify v)) at 2.
  rewrite parse_value_stringify; auto.
  pose proof (size_le_length v). lia.
Qed.

(** ** What the reader delivers lists no key twice *)

Lemma set_prop_keys (k : string) (v : JSON) (props : list (string * JSON)) :
  map fst (set_prop k v props) =
  if existsb (String.eqb k) (map fst props) then map fst props
  else (map fst props ++ [k])%list.
Proof.
  induction props as [|[k' v'] props IH]; simpl; [reflexivity|].
  rewrite (String.eqb_sym k k').
  destruct (String.eqb k' k); simpl; [reflexivity|].
  rewrite IH. now destruct (existsb (String.eqb k) (map fst props)).
Qed.

Lemma set_prop_no_dup (k : string) (v : JSON) (props : list (string * JSON)) :
  no_dup (map fst props) = true -> no_dup (map fst (set_prop k v props)) = true.
Proof.
  intros H. rewrite set_prop_keys.
  destruct (existsb (String.eqb k) (map fst props)) eqn:E; [exact H|].
  apply no_dup_NoDup. apply no_dup_NoDup in H. apply existsb_eqb_false in E.
  apply NoDup_app. repeat split; auto.
  - intros x Hx Hx'. apply list_elem_of_singleton in Hx'. now subst.
  - apply NoDup_singleton.
Qed.

Lemma set_prop_values (k : string) (v : JSON) (props : list (string * JSON)) :
  distinct_keys v = true ->
  forallb (fun kv => distinct_keys (snd kv)) props = true ->
  forallb (fun kv => distinct_keys (snd kv)) (set_prop k v props) = true.
Proof.
  intros Hv. induction props as [|[k' v'] props IH]; simpl.
  - now rewrite Hv.
  - intros H. apply andb_prop in H as [H1 H2].
    destruct (String.eqb k' k); simpl.
    + now rewrite Hv, H2.
    + now rewrite H1, IH.
Qed.

Lemma object_of_members_distinct (ms acc : list (string * JSON)) :
  forallb (fun kv => distinct_keys (snd kv)) ms = true ->
  distinct_keys (JObj acc) = true ->
  distinct_keys (JObj (fold_left (fun a kv => set_prop (fst kv) (snd kv) a) ms acc)) = true.
Proof.
  revert acc. induction ms as [|[k v] ms IH]; intros acc Hms Hacc; simpl; [exact Hacc|].
  simpl in Hms. apply andb_prop in Hms as [Hv Hms].
  apply IH; [exact Hms|].
  simpl in Hacc. apply andb_prop in Hacc as [H1 H2].
  simpl. now rewrite set_prop_no_dup, set_prop_values.
Qed.

Lemma parse_value_step (fuel : nat) (s : string) :
  parse_value (S fuel) s =
  match skip_ws s with
  | EmptyString => None
  | String c r =>
      if Ascii.eqb c "[" then
        match skip_ws r with
        | String c' r' =>
            if Ascii.eqb c' "]" then Some (JArr [], r')
            else match parse_elements fuel r with
                 | Some (l, r'') => Some (JArr l, r'')
                 | None => None
                 end
        | EmptyString => None
        end
      else if Ascii.eqb c "{" then
        match skip_ws r with
        | String c' r' =>
            if Ascii.eqb c' "}" then Some (JObj [], r')
            else match parse_members fuel r with
                 | Some (ms, r'') => Some (JObj (object_of_members ms), r'')
                 | None => None
                 end
        | EmptyString => None
        end
      else if Ascii.eqb c dquote then
        match parse_chars r with
        | Some (str, r') => Some (JStr str, r')
        | None => None
        end
      else if Ascii.eqb c "n" then
        match strip_prefix "ull" r with
        | Some r' => Some (JNull, r') | None => None end
      else if Ascii.eqb c "t" then
        match strip_prefix "rue" r with
        | Some r' => Some (JBool true, r') | None => None end
      else if Ascii.eqb c "f" then
        match strip_prefix "alse" r with
        | Some r' => Some (JBool false, r') | None => None end
      else parse_number (String c r)
  end.
Proof. reflexivity. Qed.

Lemma parse_distinct_keys (fuel : nat) :
  (forall s v r, parse_value fuel s = Some (v, r) -> distinct_keys v = true) /\
  (forall s l r, parse_elements fuel s = Some (l, r) -> forallb distinct_keys l = true) /\
  (forall s ms r, parse_members fuel s = Some (ms, r) ->
                  forallb (fun kv => distinct_keys (snd kv)) ms = true).
Proof.
  induction fuel as [|fuel (IHv & IHe & IHm)]; [repeat split; discriminate|].
  repeat split.
  - intros s v r. rewrite parse_value_step.
    destruct (skip_ws s) as [|c t]; [discriminate|].
    destruct (Ascii.eqb c "[").
    { destruct (skip_ws t) as [|c' t']; [discriminate|].
      destruct (Ascii.eqb c' "]"); [now intros [= <- _]|].
      destruct (parse_elements fuel t) as [[l r']|] eqn:E; [|discriminate].
      intros [= <- _]. simpl. eauto. }
    destruct (Ascii.eqb c "{").
    { destruct (skip_ws t) as [|c' t']; [discriminate|].
      destruct (Ascii.eqb c' "}"); [now intros [= <- _]|].
      destruct (parse_members fuel t) as [[ms r']|] eqn:E; [|discriminate].
      intros [= <- _]. apply object_of_members_distinct; eauto. }
    destruct (Ascii.eqb c dquote).
    { destruct (parse_chars t) as [[str r']|]; [|discriminate]. now intros [= <- _]. }
    destruct (Ascii.eqb c "n").
    { destruct (strip_prefix "ull" t); [|discriminate]. now intros [= <- _]. }
    destruct (Ascii.eqb c "t").
    { destruct (strip_prefix "rue" t); [|discriminate]. now intros [= <- _]. }
    destruct (Ascii.eqb c "f").
    { destruct (strip_prefix "alse" t); [|discriminate]. now intros [= <- _]. }
    unfold parse_number. destruct (span_num (String c t)) as [lit rest].
    destruct (NilZero.int_of_string lit); [|discriminate].
    destruct (String.eqb _ lit); [|discriminate]. now intros [= <- _].
  - intros s l r. rewrite parse_elements_step.
    destruct (parse_value fuel s) as [[v r1]|] eqn:Ev; [|discriminate].
    destruct (skip_ws r1) as [|c t]; [discriminate|].
    destruct (Ascii.eqb c ",").
    { destruct (parse_elements fuel t) as [[l' r2]|] eqn:El; [|discriminate].
      intros [= <- _]. simpl. rewrite (IHv _ _ _ Ev). eauto. }
    destruct (Ascii.eqb c "]"); [|discriminate].
    intros [= <- _]. simpl. now rewrite (IHv _ _ _ Ev).
  - intros s ms r. rewrite parse_members_step.
    destruct (skip_ws s) as [|q r0]; [discriminate|].
    destruct (Ascii.eqb q dquote); [|discriminate].
    destruct (parse_chars r0) as [[k r1]|]; [|discriminate].
    destruct (skip_ws r1) as [|colon r2]; [discriminate|].
    destruct (Ascii.eqb colon ":"); [|discriminate].
    destruct (parse_value fuel r2) as [[v r3]|] eqn:Ev; [|discriminate].
    destruct (skip_ws r3) as [|c r4]; [discriminate|].
    destruct (Ascii.eqb c ",").
    { destruct (parse_members fuel r4) as [[ms' r5]|] eqn:Em; [|discriminate].
      intros [= <- _]. simpl. rewrite (IHv _ _ _ Ev). eauto. }
    destruct (Ascii.eqb c "}"); [|discriminate].
    intros [= <- _]. simpl. now rewrite (IHv _ _ _ Ev).
Qed.

Theorem JSON_parse_distinct_keys (text : string) (v : JSON) :
  JSON_parse text = Normal v -> distinct_keys v = true.
Proof.
  unfold JSON_parse.
  destruct (parse_value (S (String.length text)) text) as [[v' r]|] eqn:E; [|discriminate].
  destruct (skip_ws r); [|discriminate]. intros [= <-].
  exact (proj1 (parse_distinct_keys _) _ _ _ E).
Qed.

(** ** Loading and saving *)

#[local] Arguments JSON_parse : simpl never.
#[local] Arguments JSON_stringify : simpl never.
#[local] Arguments usage : simpl never.

(** [loadCustomEmojis] completes normally, returns the collection of the
    slot, and writes nothing but the log. *)
Lemma IndexJs_load_collection (w : World) :
  exists lg, IndexJs.loadCustomEmojis w = (Normal (collection w), set_log lg w).
Proof.
  unfold IndexJs.loadCustomEmojis, try_catch, bind, getItem, collection, decode, slot.
  destruct w as [ls q lg ta pc]; simpl.
  destruct (ls !! CUSTOM_EMOJI_STORAGE_KEY) as [s|]; simpl.
  - destruct (String.eqb s ""); simpl; [now exists lg|].
    unfold lift. destruct (JSON_parse s); simpl; eauto.
  - now exists lg.
Qed.

Lemma Part000_load_collection (w : World) :
  exists lg, Part000.loadCustomEmojis w = (Normal (collection w), set_log lg w).
Proof.
  unfold Part000.loadCustomEmojis, try_catch, bind, getItem, collection, decode, slot.
  destruct w as [ls q lg ta pc]; simpl.
  destruct (ls !! CUSTOM_EMOJI_STORAGE_KEY) as [s|]; simpl.
  - destruct (String.eqb s ""); simpl; [now exists lg|].
    unfold lift. destruct (JSON_parse s); simpl; eauto.
  - now exists lg.
Qed.

(** [saveCustomEmojis] completes normally; the slot holds the new text when
    the storage area accepts it, and nothing is stored otherwise. *)
Lemma IndexJs_save_spec (emojis : list JSON) (w : World) :
  IndexJs.saveCustomEmojis emojis w =
  (Normal tt,
   if write_ok w emojis then written w emojis
   else set_log (log w ++ [console_error "Error saving custom emojis:" QuotaExceededError])%list w).
Proof.
  unfold IndexJs.saveCustomEmojis, try_catch, setItem, write_ok, written.
  destruct (Nat.leb _ _); reflexivity.
Qed.

Lemma Part000_save_spec (emojis : list JSON) (w : World) :
  Part000.saveCustomEmojis emojis w =
  (Normal tt,
   if write_ok w emojis then written w emojis
   else set_log ((log w ++ [console_error "Error saving custom emojis:" QuotaExceededError])
                 ++ [alert "Failed to save custom emojis. Check browser storage settings."])%list w).
Proof.
  unfold Part000.saveCustomEmojis, try_catch, setItem, write_ok, written.
  destruct (Nat.leb _ _); reflexivity.
Qed.

Lemma collection_set_log (lg : list LogEntry) (w : World) :
  collection (set_log lg w) = collection w.
Proof. reflexivity. Qed.

Lemma write_ok_set_log (lg : list LogEntry) (w : World) (l : list JSON) :
  write_ok (set_log lg w) l = write_ok w l.
Proof. reflexivity. Qed.

Lemma stringify_array_nonempty (l : list JSON) :
  String.eqb (JSON_stringify (JArr l)) "" = false.
Proof. reflexivity. Qed.

(** The collection of a value that was written is that value. *)
Lemma collection_written (w : World) (l : list JSON) :
  forallb distinct_keys l = true -> collection (written w l) = JArr l.
Proof.
  intros Hwf. unfold collection, slot, written, decode. simpl.
  rewrite lookup_insert_eq, stringify_array_nonempty.
  now rewrite JSON_parse_stringify.
Qed.

(** Every collection is a value without repeated keys. *)
Lemma collection_distinct_keys (w : World) : distinct_keys (collection w) = true.
Proof.
  unfold collection, decode. destruct (slot w) as [s|]; [|reflexivity].
  destruct (String.eqb s ""); [reflexivity|].
  destruct (JSON_parse s) eqn:E; [|reflexivity].
  eapply JSON_parse_distinct_keys; eauto.
Qed.

Lemma write_ok_written (w : World) (l : list JSON) :
  write_ok w l = true -> write_ok (written w l) l = true.
Proof.
  unfold write_ok, written. simpl. now rewrite insert_insert_eq.
Qed.

Lemma written_written (w : World) (l : list JSON) :
  written (written w l) l = written w l.
Proof.
  unfold written, set_localStorage. simpl. now rewrite insert_insert_eq.
Qed.

(** ** Array callbacks on records never throw *)

Lemma get_prop_record (k : string) (r : JSON) :
  is_record r = true -> get_prop k r = Normal (prop_of k r).
Proof. destruct r; simpl; intros H; try discriminate; reflexivity. Qed.

Lemma findIndex_from_records (id : option JSON) (l : list JSON) (i : nat) :
  forallb is_record l = true ->
  findIndex_from i (id_is id) l = Normal ((fun n => i + n) <$> first_index id l).
Proof.
  revert i. induction l as [|r l IH]; intros i Hrec; simpl in *.
  - reflexivity.
  - apply andb_prop in Hrec as [Hr Hl].
    unfold id_is at 1. rewrite (get_prop_record _ _ Hr). simpl.
    unfold first_index. simpl.
    destruct (strict_eq (prop_of "id" r) id) eqn:E.
    + rewrite decide_True by reflexivity. simpl. f_equal. f_equal. lia.
    + rewrite decide_False by discriminate.
      rewrite (IH (S i) Hl). unfold first_index.
      destruct (list_find _ l) as [[n x]|]; simpl; [|reflexivity].
      f_equal. f_equal. lia.
Qed.

Lemma findIndex_records (id : option JSON) (l : list JSON) :
  forallb is_record l = true ->
  findIndex (id_is id) l = Normal (first_index id l).
Proof.
  intros H. unfold findIndex. rewrite (findIndex_from_records _ _ 0 H).
  destruct (first_index id l); reflexivity.
Qed.

Lemma some_records (name id : string) (l : list JSON) :
  forallb is_record l = true ->
  some (Part000.name_taken name id) l = Normal (name_in_use name id l).
Proof.
  induction l as [|r l IH]; intros Hrec; simpl in *; [reflexivity|].
  apply andb_prop in Hrec as [Hr Hl].
  unfold Part000.name_taken at 1. rewrite (get_prop_record _ _ Hr). simpl.
  destruct (strict_eq (prop_of "name" r) (Some (JStr name))); simpl.
  - unfold id_is_not. rewrite (get_prop_record _ _ Hr). simpl.
    destruct (negb (strict_eq (prop_of "id" r) (Some (JStr id)))); simpl; auto.
  - auto.
Qed.

Lemma filter_records (id : string) (l : list JSON) :
  forallb is_record l = true ->
  filter_js (id_is_not (Some (JStr id))) l = Normal (without id l).
Proof.
  induction l as [|r l IH]; intros Hrec; simpl in *; [reflexivity|].
  apply andb_prop in Hrec as [Hr Hl].
  unfold id_is_not at 1. rewrite (get_prop_record _ _ Hr). simpl.
  rewrite (IH Hl). simpl. reflexivity.
Qed.

Lemma map_records (k : string) (l : list JSON) :
  forallb is_record l = true ->
  map_js (get_prop k) l = Normal (map (prop_of k) l).
Proof.
  induction l as [|r l IH]; intros Hrec; simpl in *; [reflexivity|].
  apply andb_prop in Hrec as [Hr Hl].
  rewrite (get_prop_record _ _ Hr). simpl. now rewrite (IH Hl).
Qed.

Lemma first_index_lookup (id : option JSON) (l : list JSON) (i : nat) :
  first_index id l = Some i <->
  (exists r, l !! i = Some r /\ strict_eq (prop_of "id" r) id = true) /\
  (forall j r, j < i -> l !! j = Some r -> strict_eq (prop_of "id" r) id = false).
Proof.
  unfold first_index. split.
  - destruct (list_find _ l) as [[n x]|] eqn:E; simpl; [|discriminate].
    intros [= ->]. apply list_find_Some in E as (Hx & Hp & Hbefore).
    split; [eauto|]. intros j r Hj Hr.
    specialize (Hbefore j r Hr Hj). now apply not_true_is_false.
  - intros [(r & Hr & Hp) Hbefore].
    assert (list_find (fun e => strict_eq (prop_of "id" e) id = true) l = Some (i, r)) as ->.
    { apply list_find_Some. repeat split; auto.
      intros j y Hy Hj. rewrite (Hbefore j y Hj Hy). discriminate. }
    reflexivity.
Qed.

Lemma first_index_None (id : option JSON) (l : list JSON) :
  first_index id l = None <->
  (forall r, r ∈ l -> strict_eq (prop_of "id" r) id = false).
Proof.
  unfold first_index. split.
  - destruct (list_find _ l) as [[n x]|] eqn:E; simpl; [discriminate|].
    intros _ r Hr. rewrite list_find_None in E. rewrite Forall_forall in E.
    apply not_true_is_false. now apply E.
  - intros H.
    assert (list_find (fun e => strict_eq (prop_of "id" e) id = true) l = None) as ->; [|reflexivity].
    apply list_find_None. apply Forall_forall. intros r Hr. rewrite (H r Hr). discriminate.
Qed.

(** ** The store operations on a collection of records *)

Lemma written_set_log (lg : list LogEntry) (w : World) (l : list JSON) :
  written (set_log lg w) l = set_log lg (written w l).
Proof. reflexivity. Qed.

Lemma set_log_set_log (lg lg' : list LogEntry) (w : World) :
  set_log lg (set_log lg' w) = set_log lg w.
Proof. reflexivity. Qed.

(** Both outcomes of the write end in the same world up to the log. *)
Ltac written_or_not w :=
  destruct (write_ok w _);
  eexists; rewrite ?written_set_log, ?set_log_set_log; reflexivity.

(** [addCustomEmoji] of [src/src/index.js]: always an upsert by id. *)
Lemma IndexJs_add_spec (w : World) (l : list JSON) (id name url : string)
      (keywords : list string) :
  collection w = JArr l ->
  forallb is_record l = true ->
  let l' := upsert (Some (JStr id)) (newEmoji id name url keywords) l in
  exists lg,
    IndexJs.addCustomEmoji id name url keywords w =
    (Normal true, set_log lg (if write_ok w l' then written w l' else w)).
Proof.
  intros Hc Hrec l'. unfold IndexJs.addCustomEmoji, bind.
  destruct (IndexJs_load_collection w) as (lg & ->). rewrite Hc.
  unfold lift at 1. simpl as_array. cbv iota beta.
  unfold lift at 1. rewrite (findIndex_records _ _ Hrec). cbv iota beta.
  fold (upsert (Some (JStr id)) (newEmoji id name url keywords) l). fold l'.
  rewrite IndexJs_save_spec, write_ok_set_log. unfold ret.
  written_or_not w.
Qed.

(** [addCustomEmoji] of [part_000]: a name in use by another record makes
    the call return false with the storage untouched; otherwise the call is
    an upsert by id and returns true, also when the write fails. *)
Lemma Part000_add_spec (w : World) (l : list JSON) (id name url : string)
      (keywords : list string) :
  collection w = JArr l ->
  forallb is_record l = true ->
  let l' := upsert (Some (JStr id)) (newEmoji id name url keywords) l in
  exists lg,
    Part000.addCustomEmoji id name url keywords w =
    if name_in_use name id l then (Normal false, set_log lg w)
    else (Normal true, set_log lg (if write_ok w l' then written w l' else w)).
Proof.
  intros Hc Hrec l'. unfold Part000.addCustomEmoji, bind.
  destruct (Part000_load_collection w) as (lg & ->). rewrite Hc.
  unfold lift at 1. simpl as_array. cbv iota beta.
  unfold lift at 1. rewrite (some_records _ _ _ Hrec). cbv iota beta.
  destruct (name_in_use name id l).
  - unfold emit, ret. eexists. rewrite set_log_set_log. reflexivity.
  - unfold lift at 1. rewrite (findIndex_records _ _ Hrec). cbv iota beta.
    fold (upsert (Some (JStr id)) (newEmoji id name url keywords) l). fold l'.
    unfold try_catch, bind.
    rewrite Part000_save_spec, write_ok_set_log. unfold ret.
    written_or_not w.
Qed.

(** [removeCustomEmoji], in both scripts: the records of another id are
    written back, and the call returns true whatever the write does. *)
Lemma IndexJs_remove_spec (w : World) (l : list JSON) (id : string) :
  collection w = JArr l ->
  forallb is_record l = true ->
  exists lg,
    IndexJs.removeCustomEmoji id w =
    (Normal true,
     set_log lg (if write_ok w (without id l) then written w (without id l) else w)).
Proof.
  intros Hc Hrec. unfold IndexJs.removeCustomEmoji, bind.
  destruct (IndexJs_load_collection w) as (lg & ->). rewrite Hc.
  unfold lift at 1. simpl as_array. cbv iota beta.
  unfold lift at 1. rewrite (filter_records _ _ Hrec). cbv iota beta.
  rewrite IndexJs_save_spec, write_ok_set_log. unfold ret.
  written_or_not w.
Qed.

Lemma Part000_remove_spec (w : World) (l : list JSON) (id : string) :
  collection w = JArr l ->
  forallb is_record l = true ->
  exists lg,
    Part000.removeCustomEmoji id w =
    (Normal true,
     set_log lg (if write_ok w (without id l) then written w (without id l) else w)).
Proof.
  intros Hc Hrec. unfold Part000.removeCustomEmoji, bind.
  destruct (Part000_load_collection w) as (lg & ->). rewrite Hc.
  unfold lift at 1. simpl as_array. cbv iota beta.
  unfold lift at 1. rewrite (filter_records _ _ Hrec). cbv iota beta.
  unfold try_catch, bind.
  rewrite Part000_save_spec, write_ok_set_log. unfold ret.
  written_or_not w.
Qed.

(** ** C8: loading never fails *)

Lemma load_cases (w : World) :
  (slot w = None -> collection w = JArr []) /\
  (forall s e, slot w = Some s -> JSON_parse s = Throw e -> collection w = JArr []) /\
  (forall s l, slot w = Some s -> JSON_parse s = Normal (JArr l) -> collection w = JArr l).
Proof.
  unfold collection, decode. repeat split.
  - now intros ->.
  - intros s e -> E. rewrite E. now destruct (String.eqb s "").
  - intros s l -> E. rewrite E.
    destruct (String.eqb_spec s "") as [->|_]; [discriminate E|reflexivity].
Qed.

(** C8. [loadCustomEmojis], in both scripts, completes normally in every
    world and leaves the storage as it was.  It returns the empty array when
    the slot is absent and when the stored text does not parse; the parse
    error of a non-empty text is reported on the console (and, in part_000,
    by an alert) before the empty array is returned.  A text that parses to
    an array yields that array, in a world left untouched.  The empty text
    is taken for an absent slot: no parse is tried, the empty array is
    returned and nothing is reported. *)
Theorem loadCustomEmojis_never_raises (w : World) :
  (exists v lg, IndexJs.loadCustomEmojis w = (Normal v, set_log lg w)) /\
  (exists v lg, Part000.loadCustomEmojis w = (Normal v, set_log lg w)) /\
  (slot w = None ->
     IndexJs.loadCustomEmojis w = (Normal (JArr []), w) /\
     Part000.loadCustomEmojis w = (Normal (JArr []), w)) /\
  (forall s e, slot w = Some s -> JSON_parse s = Throw e ->
     fst (IndexJs.loadCustomEmojis w) = Normal (JArr []) /\
     fst (Part000.loadCustomEmojis w) = Normal (JArr [])) /\
  (forall s e, slot w = Some s -> s <> "" -> JSON_parse s = Throw e ->
     log (snd (IndexJs.loadCustomEmojis w))
       = (log w ++ [console_error "Error loading custom emojis:" e])%list /\
     log (snd (Part000.loadCustomEmojis w))
       = (log w ++ [console_error "Error loading custom emojis:" e;
                    alert "Failed to load custom emojis. Please try again."])%list) /\
  (forall s l, slot w = Some s -> JSON_parse s = Normal (JArr l) ->
     IndexJs.loadCustomEmojis w = (Normal (JArr l), w) /\
     Part000.loadCustomEmojis w = (Normal (JArr l), w)) /\
  (slot w = Some "" ->
     IndexJs.loadCustomEmojis w = (Normal (JArr []), w) /\
     Part000.loadCustomEmojis w = (Normal (JArr []), w)).
Proof.
  destruct (load_cases w) as (Hnone & Hfail & Hok).
  split; [|split; [|split; [|split; [|split; [|split]]]]].
  - destruct (IndexJs_load_collection w) as (lg & E). eauto.
  - destruct (Part000_load_collection w) as (lg & E). eauto.
  - intros Hs. unfold IndexJs.loadCustomEmojis, Part000.loadCustomEmojis,
      try_catch, bind, getItem. fold (slot w). rewrite Hs. split; reflexivity.
  - intros s e Hs E.
    destruct (IndexJs_load_collection w) as (lg & ->).
    destruct (Part000_load_collection w) as (lg' & ->).
    rewrite (Hfail s e Hs E). split; reflexivity.
  - intros s e Hs Hne E.
    unfold IndexJs.loadCustomEmojis, Part000.loadCustomEmojis,
      try_catch, bind, getItem. fold (slot w). rewrite Hs.
    apply String.eqb_neq in Hne. rewrite Hne.
    unfold lift. cbn [negb]. rewrite E.
    split; [reflexivity | simpl; now rewrite <- app_assoc].
  - intros s l Hs E.
    unfold IndexJs.loadCustomEmojis, Part000.loadCustomEmojis,
      try_catch, bind, getItem. fold (slot w). rewrite Hs.
    destruct (String.eqb_spec s "") as [->|_]; [discriminate E|].
    unfold lift. cbn [negb]. rewrite E. destruct w; split; reflexivity.
  - intros Hs. unfold IndexJs.loadCustomEmojis, Part000.loadCustomEmojis,
      try_catch, bind, getItem. fold (slot w). rewrite Hs. split; reflexivity.
Qed.

Lemma loadCustomEmojis_never_raises_witness :
  fst (Part000.loadCustomEmojis (page_with_text "{not json" 100)) = Normal (JArr []) /\
  log (snd (Part000.loadCustomEmojis (page_with_text "{not json" 100)))
    = [console_error "Error loading custom emojis:" SyntaxError;
       alert "Failed to load custom emojis. Please try again."] /\
  Part000.loadCustomEmojis (page_with [wave] 100) = (Normal (JArr [wave]), page_with [wave] 100).
Proof.
  destruct (loadCustomEmojis_never_raises (page_with_text "{not json" 100))
    as (_ & _ & _ & Hfail & Hlog & _).
  destruct (loadCustomEmojis_never_raises (page_with [wave] 100))
    as (_ & _ & _ & _ & _ & Hok & _).
  split; [|split].
  - apply (Hfail "{not json" SyntaxError); vm_compute; reflexivity.
  - apply (Hlog "{not json" SyntaxError); [vm_compute; reflexivity | discriminate |
                                            vm_compute; reflexivity].
  - apply (Hok (JSON_stringify (JArr [wave])) [wave]); vm_compute; reflexivity.
Defined.

(** C8, as stated, fails for a slot that holds the empty text: the text
    does not decode as JSON, and the empty array is returned without any
    report of that, on the console or otherwise. *)
Lemma load_of_the_empty_text_reports_nothing :
  let w := page_with_text "" 100 in
  slot w = Some "" /\
  JSON_parse "" = Throw SyntaxError /\
  IndexJs.loadCustomEmojis w = (Normal (JArr []), w) /\
  Part000.loadCustomEmojis w = (Normal (JArr []), w) /\
  log (snd (IndexJs.loadCustomEmojis w)) = [] /\
  log (snd (Part000.loadCustomEmojis w)) = [].
Proof. repeat split. Qed.

(** ** C6: saving, then loading *)

Lemma IndexJs_load_value (w : World) :
  fst (IndexJs.loadCustomEmojis w) = Normal (collection w).
Proof. destruct (IndexJs_load_collection w) as (lg & ->). reflexivity. Qed.

Lemma Part000_load_value (w : World) :
  fst (Part000.loadCustomEmojis w) = Normal (collection w).
Proof. destruct (Part000_load_collection w) as (lg & ->). reflexivity. Qed.

(** C6, as stated, fails in a storage area that refuses the write:
    [saveCustomEmojis] swallows the error and the next load returns the
    previous collection, here the empty one. *)
Lemma save_then_load_in_full_storage :
  fst (IndexJs.loadCustomEmojis (snd (IndexJs.saveCustomEmojis [wave] (empty_page 0))))
    = Normal (JArr []) /\
  fst (IndexJs.loadCustomEmojis (snd (IndexJs.saveCustomEmojis [wave] (empty_page 0))))
    <> Normal (JArr [wave]).
Proof. split; [vm_compute; reflexivity | vm_compute; discriminate]. Qed.

(** C6, amended.  For every list of JSON values without repeated keys, if
    the storage area accepts the write, [loadCustomEmojis] after
    [saveCustomEmojis] returns the saved list, in the same order. *)
Theorem save_then_load (w : World) (emojis : list JSON) :
  forallb distinct_keys emojis = true ->
  write_ok w emojis = true ->
  fst (IndexJs.loadCustomEmojis (snd (IndexJs.saveCustomEmojis emojis w)))
    = Normal (JArr emojis).
Proof.
  intros Hwf Hok. rewrite IndexJs_load_value, IndexJs_save_spec, Hok. simpl snd.
  now rewrite collection_written.
Qed.

Lemma save_then_load_witness :
  fst (IndexJs.loadCustomEmojis
         (snd (IndexJs.saveCustomEmojis [wave; smile] (empty_page 1000))))
    = Normal (JArr [wave; smile]).
Proof. apply save_then_load; vm_compute; reflexivity. Defined.

(** ** C10: removing *)

Lemma forallb_filter {A : Type} (P Q : A -> bool) (l : list A) :
  forallb P l = true -> forallb P (List.filter Q l) = true.
Proof.
  induction l as [|x l IH]; simpl; [reflexivity|].
  intros H. apply andb_prop in H as [Hx Hl].
  destruct (Q x); simpl; [rewrite Hx|]; auto.
Qed.

Lemma without_idempotent (id : string) (l : list JSON) :
  without id (without id l) = without id l.
Proof.
  unfold without. induction l as [|x l IH]; simpl; [reflexivity|].
  destruct (negb (strict_eq (prop_of "id" x) (Some (JStr id)))) eqn:E; simpl.
  - now rewrite E, IH.
  - exact IH.
Qed.

Lemma without_absent (id : string) (l : list JSON) :
  (forall r, r ∈ l -> prop_of "id" r <> Some (JStr id)) -> without id l = l.
Proof.
  unfold without. induction l as [|x l IH]; simpl; intros H; [reflexivity|].
  assert (strict_eq (prop_of "id" x) (Some (JStr id)) = false) as ->.
  { specialize (H x ltac:(constructor)).
    destruct (prop_of "id" x) as [[]|]; simpl; try reflexivity.
    apply String.eqb_neq. congruence. }
  simpl. f_equal. apply IH. intros r Hr. apply H. now constructor.
Qed.

Lemma without_removes_all (id : string) (l : list JSON) (r : JSON) :
  r ∈ without id l -> prop_of "id" r <> Some (JStr id).
Proof.
  unfold without. rewrite list_elem_of_In, filter_In. intros [_ H] E.
  rewrite E in H. simpl in H. now rewrite String.eqb_refl in H.
Qed.

Lemma collection_array_distinct (w : World) (l : list JSON) :
  collection w = JArr l -> forallb distinct_keys l = true.
Proof. intros E. pose proof (collection_distinct_keys w) as H. now rewrite E in H. Qed.

(** The storage after a call that wrote [l'] when the area accepted it. *)
Lemma collection_after_write (w : World) (l l' : list JSON) (lg : list LogEntry) :
  collection w = JArr l ->
  forallb distinct_keys l' = true ->
  collection (set_log lg (if write_ok w l' then written w l' else w))
  = JArr (if write_ok w l' then l' else l).
Proof.
  intros Hc Hwf. rewrite collection_set_log.
  destruct (write_ok w l'); [now apply collection_written | exact Hc].
Qed.

(** C10. On a store that holds a collection of records, [removeCustomEmoji],
    in both scripts, returns true whether or not a record has the id and
    whether or not the storage area accepts the write.  The collection it
    leaves is the records of another id when the write is accepted and the
    old collection when it is not; no record of the removed id is among the
    former, so one call removes all of them; when no record has the id the
    collection is unchanged; and a second call with the same id leaves the
    storage as the first call left it. *)
Theorem removeCustomEmoji_spec (w : World) (l : list JSON) (id : string) :
  collection w = JArr l ->
  forallb is_record l = true ->
  let w1 := snd (IndexJs.removeCustomEmoji id w) in
  let w2 := snd (Part000.removeCustomEmoji id w) in
  (fst (IndexJs.removeCustomEmoji id w) = Normal true /\
   fst (Part000.removeCustomEmoji id w) = Normal true) /\
  (collection w1 = JArr (if write_ok w (without id l) then without id l else l) /\
   collection w2 = JArr (if write_ok w (without id l) then without id l else l)) /\
  (forall r, r ∈ without id l -> prop_of "id" r <> Some (JStr id)) /\
  ((forall r, r ∈ l -> prop_of "id" r <> Some (JStr id)) ->
   collection w1 = JArr l /\ collection w2 = JArr l) /\
  (localStorage (snd (IndexJs.removeCustomEmoji id w1)) = localStorage w1 /\
   localStorage (snd (Part000.removeCustomEmoji id w2)) = localStorage w2).
Proof.
  intros Hc Hrec w1 w2.
  pose proof (collection_array_distinct _ _ Hc) as Hwf.
  assert (Hwf' : forallb distinct_keys (without id l) = true) by now apply forallb_filter.
  assert (Hrec' : forallb is_record (without id l) = true) by now apply forallb_filter.
  destruct (IndexJs_remove_spec w l id Hc Hrec) as (lg1 & E1).
  destruct (Part000_remove_spec w l id Hc Hrec) as (lg2 & E2).
  assert (Hc1 : collection w1 = JArr (if write_ok w (without id l) then without id l else l)).
  { subst w1. rewrite E1. simpl snd. now apply collection_after_write. }
  assert (Hc2 : collection w2 = JArr (if write_ok w (without id l) then without id l else l)).
  { subst w2. rewrite E2. simpl snd. now apply collection_after_write. }
  split; [now rewrite E1, E2|].
  split; [now split|].
  split; [apply without_removes_all|].
  split.
  { intros Habs. rewrite Hc1, Hc2, (without_absent id l Habs).
    now destruct (write_ok w l). }
  assert (Hstep : forall lg,
            let u := set_log lg (if write_ok w (without id l)
                                 then written w (without id l) else w) in
            localStorage
              (if write_ok u (without id (if write_ok w (without id l) then without id l else l))
               then written u (without id (if write_ok w (without id l) then without id l else l))
               else u) = localStorage u).
  { intros lg u. subst u. rewrite write_ok_set_log.
    destruct (write_ok w (without id l)) eqn:Hok.
    - rewrite without_idempotent, write_ok_written by exact Hok.
      rewrite written_set_log, written_written. reflexivity.
    - rewrite Hok. reflexivity. }
  split.
  - destruct (IndexJs_remove_spec w1 _ id Hc1) as (lg & E).
    { destruct (write_ok w (without id l)); assumption. }
    rewrite E. simpl snd. subst w1. rewrite E1. simpl snd. apply (Hstep lg1).
  - destruct (Part000_remove_spec w2 _ id Hc2) as (lg & E).
    { destruct (write_ok w (without id l)); assumption. }
    rewrite E. simpl snd. subst w2. rewrite E2. simpl snd. apply (Hstep lg2).
Qed.

Lemma removeCustomEmoji_spec_witness :
  let w := page_with [wave; smile; wave] 1000 in
  (fst (IndexJs.removeCustomEmoji "wave" w) = Normal true /\
   fst (Part000.removeCustomEmoji "wave" w) = Normal true) /\
  collection (snd (IndexJs.removeCustomEmoji "wave" w)) = JArr [smile] /\
  collection (snd (Part000.removeCustomEmoji "wave" w)) = JArr [smile].
Proof.
  intros w.
  destruct (removeCustomEmoji_spec w [wave; smile; wave] "wave")
    as (Htrue & (H1 & H2) & _).
  - vm_compute; reflexivity.
  - reflexivity.
  - split; [exact Htrue|]. rewrite H1, H2. split; vm_compute; reflexivity.
Defined.

(** ** C1: adding under a name in use *)

(** C1, at a failing input of [src/src/index.js]: the store holds the
    record [wave], named Wave; adding a record of another id under the same
    name returns true and appends it, where the claim has the call return
    false and leave the collection unchanged. *)
Theorem IndexJs_addCustomEmoji_accepts_name_in_use :
  let w := page_with [wave] 1000 in
  let added := newEmoji "hello" "Wave" "https://x/h.png" [] in
  collection w = JArr [wave] /\
  name_in_use "Wave" "hello" [wave] = true /\
  fst (IndexJs.addCustomEmoji "hello" "Wave" "https://x/h.png" [] w) = Normal true /\
  collection (snd (IndexJs.addCustomEmoji "hello" "Wave" "https://x/h.png" [] w))
    = JArr [wave; added].
Proof. repeat split; vm_compute; reflexivity. Qed.

(** The script of part_000 rejects the same call and leaves the storage
    untouched, for every store of records. *)
Lemma Part000_addCustomEmoji_rejects_name_in_use
      (w : World) (l : list JSON) (id name url : string) (keywords : list string) :
  collection w = JArr l ->
  forallb is_record l = true ->
  name_in_use name id l = true ->
  fst (Part000.addCustomEmoji id name url keywords w) = Normal false /\
  localStorage (snd (Part000.addCustomEmoji id name url keywords w)) = localStorage w.
Proof.
  intros Hc Hrec Hdup.
  destruct (Part000_add_spec w l id name url keywords Hc Hrec) as (lg & ->).
  rewrite Hdup. split; reflexivity.
Qed.

(** With no other record of that name, the script of part_000 upserts by
    id and returns true; it returns true as well when the storage area
    refuses the write, and nothing is stored then. *)
Lemma Part000_addCustomEmoji_upserts
      (w : World) (l : list JSON) (id name url : string) (keywords : list string) :
  collection w = JArr l ->
  forallb is_record l = true ->
  name_in_use name id l = false ->
  let l' := upsert (Some (JStr id)) (newEmoji id name url keywords) l in
  fst (Part000.addCustomEmoji id name url keywords w) = Normal true /\
  localStorage (snd (Part000.addCustomEmoji id name url keywords w))
    = localStorage (if write_ok w l' then written w l' else w).
Proof.
  intros Hc Hrec Hdup l'.
  destruct (Part000_add_spec w l id name url keywords Hc Hrec) as (lg & ->).
  rewrite Hdup. split; reflexivity.
Qed.

Lemma Part000_addCustomEmoji_true_on_failed_write :
  fst (Part000.addCustomEmoji "wave" "Wave" "https://x/y.png" [] (empty_page 0)) = Normal true /\
  collection (snd (Part000.addCustomEmoji "wave" "Wave" "https://x/y.png" [] (empty_page 0)))
    = JArr [].
Proof. split; vm_compute; reflexivity. Qed.

(** ** C4: adding under an id in use *)

Lemma strict_eq_string (v : option JSON) (s : string) :
  strict_eq v (Some (JStr s)) = true <-> v = Some (JStr s).
Proof.
  destruct v as [[]|]; simpl; split; try discriminate; try congruence.
  - intros H. apply String.eqb_eq in H. now subst.
  - intros [= ->]. apply String.eqb_refl.
Qed.

Lemma forallb_insert {A : Type} (P : A -> bool) (l : list A) (i : nat) (x : A) :
  forallb P l = true -> P x = true -> forallb P (<[i := x]> l) = true.
Proof.
  revert i. induction l as [|y l IH]; intros i H Hx; [reflexivity|].
  simpl in H. apply andb_prop in H as [Hy Hl].
  destruct i; simpl; [now rewrite Hx, Hl | now rewrite Hy, IH].
Qed.

Lemma newEmoji_distinct_keys (id name url : string) (keywords : list string) :
  distinct_keys (newEmoji id name url keywords) = true.
Proof.
  unfold newEmoji. simpl. rewrite andb_true_r.
  induction keywords as [|k ks IH]; [reflexivity|exact IH].
Qed.

(** C4, as stated, fails in the script of part_000 when the new name is in
    use by another record: the record of id [wave] at position 0 is not
    replaced, the call returns false. *)
Lemma add_existing_id_under_name_in_use :
  let l := [wave; smile] in
  let w := page_with l 1000 in
  collection w = JArr l /\
  l !! 0 = Some wave /\
  prop_of "id" wave = Some (JStr "wave") /\
  fst (Part000.addCustomEmoji "wave" "Smile" "https://x/y.png" [] w) = Normal false /\
  collection (snd (Part000.addCustomEmoji "wave" "Smile" "https://x/y.png" [] w))
    <> JArr (<[0 := newEmoji "wave" "Smile" "https://x/y.png" []]> l).
Proof. repeat split; try (vm_compute; reflexivity). vm_compute. discriminate. Qed.

(** C4, amended.  Let the store hold a collection of records in which the
    first record of id [id] stands at position [i], and let the storage area
    accept the write.  Then [addCustomEmoji] with that id returns true and
    replaces that record in place, in [src/src/index.js] always and in
    part_000 when no record of another id bears the new name: the new
    collection has the same length, the new record at position [i] and every
    other record where it was; nothing is appended. *)
Theorem addCustomEmoji_replaces_in_place
        (w : World) (l : list JSON) (i : nat) (x : JSON)
        (id name url : string) (keywords : list string) :
  collection w = JArr l ->
  forallb is_record l = true ->
  l !! i = Some x ->
  prop_of "id" x = Some (JStr id) ->
  (forall j y, j < i -> l !! j = Some y -> prop_of "id" y <> Some (JStr id)) ->
  let r := newEmoji id name url keywords in
  write_ok w (<[i := r]> l) = true ->
  (fst (IndexJs.addCustomEmoji id name url keywords w) = Normal true /\
   collection (snd (IndexJs.addCustomEmoji id name url keywords w)) = JArr (<[i := r]> l)) /\
  (name_in_use name id l = false ->
   fst (Part000.addCustomEmoji id name url keywords w) = Normal true /\
   collection (snd (Part000.addCustomEmoji id name url keywords w)) = JArr (<[i := r]> l)) /\
  length (<[i := r]> l) = length l /\
  <[i := r]> l !! i = Some r /\
  (forall j, j <> i -> <[i := r]> l !! j = l !! j).
Proof.
  intros Hc Hrec Hx Hid Hfirst r Hok.
  assert (Hidx : first_index (Some (JStr id)) l = Some i).
  { apply first_index_lookup. split.
    - exists x. split; [exact Hx|]. now apply strict_eq_string.
    - intros j y Hj Hy. apply not_true_is_false. rewrite strict_eq_string. eauto. }
  assert (Hup : upsert (Some (JStr id)) r l = <[i := r]> l).
  { unfold upsert. now rewrite Hidx. }
  assert (Hwf : forallb distinct_keys (<[i := r]> l) = true).
  { apply forallb_insert; [now apply (collection_array_distinct w)|].
    apply newEmoji_distinct_keys. }
  split; [|split; [|split; [|split]]].
  - destruct (IndexJs_add_spec w l id name url keywords Hc Hrec) as (lg & ->).
    fold r. rewrite Hup, Hok. split; [reflexivity|].
    simpl snd. rewrite collection_set_log. now apply collection_written.
  - intros Hfree.
    destruct (Part000_add_spec w l id name url keywords Hc Hrec) as (lg & ->).
    fold r. rewrite Hfree, Hup, Hok. split; [reflexivity|].
    simpl snd. rewrite collection_set_log. now apply collection_written.
  - apply length_insert.
  - apply list_lookup_insert_eq. now apply lookup_lt_Some in Hx.
  - intros j Hj. now apply list_lookup_insert_ne.
Qed.

Lemma addCustomEmoji_replaces_in_place_witness :
  let r := newEmoji "smile" "Grin" "https://x/g.png" ["happy"] in
  let w := page_with [wave; smile] 1000 in
  collection (snd (IndexJs.addCustomEmoji "smile" "Grin" "https://x/g.png" ["happy"] w))
    = JArr [wave; r] /\
  collection (snd (Part000.addCustomEmoji "smile" "Grin" "https://x/g.png" ["happy"] w))
    = JArr [wave; r].
Proof.
  intros r w.
  destruct (addCustomEmoji_replaces_in_place w [wave; smile] 1 smile
              "smile" "Grin" "https://x/g.png" ["happy"]) as ((_ & H1) & H2 & _).
  - vm_compute; reflexivity.
  - reflexivity.
  - reflexivity.
  - reflexivity.
  - intros j y Hj Hy. assert (j = 0) as -> by lia. vm_compute in Hy.
    injection Hy as <-. discriminate.
  - vm_compute; reflexivity.
  - split; [exact H1|]. apply H2. reflexivity.
Defined.

(** ** C5: composing the dataset *)

Lemma assign_other_key (acc : Accumulator) (key k : string) (emoji : JSON) :
  key <> k -> fst (assign acc key emoji) !! k = fst acc !! k.
Proof.
  intros Hne. destruct acc as [own proto]. unfold assign.
  destruct (String.eqb key "__proto__").
  - destruct (own !! key); simpl; [now rewrite lookup_insert_ne|].
    destruct proto as [[| | | | |props]|]; try (destruct emoji; reflexivity).
    destruct (lookup_prop key props); simpl; [now rewrite lookup_insert_ne|].
    destruct emoji; reflexivity.
  - simpl. now rewrite lookup_insert_ne.
Qed.

Lemma reduce_by_id_records (l : list JSON) (acc : Accumulator) :
  forallb is_record l = true ->
  exists acc',
    reduce_by_id acc l = Normal acc' /\
    forall k, (forall r, r ∈ l -> toPropertyKey (prop_of "id" r) <> k) ->
              fst acc' !! k = fst acc !! k.
Proof.
  revert acc. induction l as [|r l IH]; intros acc Hrec; simpl in *.
  - exists acc. split; [reflexivity|auto].
  - apply andb_prop in Hrec as [Hr Hl].
    rewrite (get_prop_record _ _ Hr). simpl.
    destruct (IH (assign acc (toPropertyKey (prop_of "id" r)) r) Hl) as (acc' & E & Hk).
    exists acc'. split; [exact E|].
    intros k Hfree. rewrite Hk.
    + apply assign_other_key. apply Hfree. constructor.
    + intros q Hq. apply Hfree. now constructor.
Qed.

Lemma cbind_Normal {A B : Type} (a : A) (k : A -> Completion B) :
  cbind (Normal a) k = k a.
Proof. reflexivity. Qed.

Lemma enhancedData_empty (data : EmojiData) : enhancedData data (JArr []) = Normal data.
Proof. reflexivity. Qed.

Lemma enhancedData_records (data : EmojiData) (l : list JSON) :
  l <> [] ->
  forallb is_record l = true ->
  exists own,
    enhancedData data (JArr l) =
    Normal {| categories :=
                (categories data ++
                 [{| cat_id := CUSTOM_EMOJI_CATEGORY; cat_name := Some "Custom";
                     cat_emojis := map (prop_of "id") l |}])%list;
              emojis := own ∪ emojis data;
              aliases := aliases data;
              sheet := sheet data |} /\
    forall k, (forall r, r ∈ l -> toPropertyKey (prop_of "id" r) <> k) -> own !! k = None.
Proof.
  intros Hne Hrec. unfold enhancedData.
  assert (length_is_zero (JArr l) = Normal false) as ->.
  { destruct l; [congruence|reflexivity]. }
  rewrite cbind_Normal. cbv iota.
  change (as_array (JArr l)) with (Normal l). rewrite cbind_Normal.
  rewrite (map_records _ _ Hrec), cbind_Normal.
  destruct (reduce_by_id_records l (∅, None) Hrec) as ([own proto] & -> & Hk).
  rewrite cbind_Normal. exists own. split; [reflexivity|].
  intros k Hfree. specialize (Hk k Hfree). simpl in Hk. rewrite Hk. apply lookup_empty.
Qed.

(** C5. [createCustomEmojiData], in both scripts: when the store holds the
    empty collection the result is the base dataset itself.  When it holds a
    non-empty collection of records, the result has the categories of the
    base dataset, in their order, followed by exactly one more, of id
    [custom] and name [Custom], whose members are the ids of the records in
    the order of the collection; its other members are those of the base
    dataset; and its emoji table holds every base entry whose key is not the
    key of a custom record, as the base dataset has it. *)
Theorem createCustomEmojiData_spec (data : EmojiData) (w : World) :
  (collection w = JArr [] ->
   fst (IndexJs.createCustomEmojiData data w) = Normal data /\
   fst (Part000.createCustomEmojiData data w) = Normal data) /\
  (forall l, collection w = JArr l -> l <> [] -> forallb is_record l = true ->
   exists d,
     fst (IndexJs.createCustomEmojiData data w) = Normal d /\
     fst (Part000.createCustomEmojiData data w) = Normal d /\
     categories d =
       (categories data ++
        [{| cat_id := "custom"; cat_name := Some "Custom";
            cat_emojis := map (prop_of "id") l |}])%list /\
     length (categories d) = S (length (categories data)) /\
     (forall i c, categories data !! i = Some c -> categories d !! i = Some c) /\
     (forall k, (forall r, r ∈ l -> toPropertyKey (prop_of "id" r) <> k) ->
                emojis d !! k = emojis data !! k) /\
     aliases d = aliases data /\
     sheet d = sheet data).
Proof.
  split.
  - intros Hc. unfold IndexJs.createCustomEmojiData, Part000.createCustomEmojiData, bind.
    destruct (IndexJs_load_collection w) as (lg1 & ->).
    destruct (Part000_load_collection w) as (lg2 & ->).
    rewrite Hc. split; reflexivity.
  - intros l Hc Hne Hrec.
    destruct (enhancedData_records data l Hne Hrec) as (own & E & Hown).
    eexists. unfold IndexJs.createCustomEmojiData, Part000.createCustomEmojiData, bind.
    destruct (IndexJs_load_collection w) as (lg1 & ->).
    destruct (Part000_load_collection w) as (lg2 & ->).
    rewrite Hc. unfold lift. rewrite E.
    split; [reflexivity|]. split; [reflexivity|].
    cbn [fst categories emojis aliases sheet]. split; [reflexivity|].
    split; [rewrite List.length_app; simpl; lia|].
    split; [intros i c Hi; now apply lookup_app_l_Some|].
    split; [|split; reflexivity].
    intros k Hfree. rewrite lookup_union, (Hown k Hfree).
    now destruct (emojis data !! k).
Qed.

Lemma createCustomEmojiData_spec_witness :
  exists d,
    fst (Part000.createCustomEmojiData sample_data (page_with [wave; smile] 1000)) = Normal d /\
    categories d =
      (categories sample_data ++
       [{| cat_id := "custom"; cat_name := Some "Custom";
           cat_emojis := [Some (JStr "wave"); Some (JStr "smile")] |}])%list /\
    emojis d !! "grinning" = emojis sample_data !! "grinning".
Proof.
  destruct (proj2 (createCustomEmojiData_spec sample_data (page_with [wave; smile] 1000))
              [wave; smile]) as (d & _ & E & Hcat & _ & _ & Hem & _).
  - vm_compute; reflexivity.
  - discriminate.
  - reflexivity.
  - exists d. split; [exact E|]. split; [exact Hcat|].
    apply Hem. intros r Hr.
    apply list_elem_of_In in Hr. destruct Hr as [<-|[<-|[]]]; discriminate.
Defined.

(** ** C2 and C3: importing *)

Lemma validate_valid (l : list JSON) :
  forallb valid_record l = true -> Part000.validate l = Normal tt.
Proof.
  induction l as [|r l IH]; simpl; [reflexivity|].
  intros H. apply andb_prop in H as [Hr Hl].
  unfold valid_record in Hr.
  apply andb_prop in Hr as [Hr Hsrc]. apply andb_prop in Hr as [Hr Hname].
  apply andb_prop in Hr as [Hr Hid].
  rewrite !(get_prop_record _ _ Hr). simpl. rewrite Hid. simpl.
  rewrite Hname. simpl. rewrite Hsrc. simpl. auto.
Qed.

Lemma validate_invalid (l : list JSON) :
  forallb valid_record l = false -> exists e, Part000.validate l = Throw e.
Proof.
  induction l as [|r l IH]; simpl; [discriminate|].
  intros H. apply andb_false_iff in H.
  destruct (valid_record r) eqn:Hr.
  - destruct H as [H|H]; [discriminate|].
    unfold valid_record in Hr.
    apply andb_prop in Hr as [Hr Hsrc]. apply andb_prop in Hr as [Hr Hname].
    apply andb_prop in Hr as [Hr Hid].
    rewrite !(get_prop_record _ _ Hr). simpl. rewrite Hid. simpl.
    rewrite Hname. simpl. rewrite Hsrc. simpl. auto.
  - clear H IH. destruct r as [|b|n|s|elems|props]; simpl; eauto.
    unfold valid_record in Hr. simpl in Hr.
    destruct (truthy (lookup_prop "id" props)); simpl; eauto.
    destruct (truthy (lookup_prop "name" props)); simpl; eauto.
    destruct (truthy (lookup_prop "src" props)); simpl; eauto.
    discriminate.
Qed.

Lemma valid_record_is_record (l : list JSON) :
  forallb valid_record l = true -> forallb is_record l = true.
Proof.
  induction l as [|r l IH]; simpl; [reflexivity|].
  intros H. apply andb_prop in H as [Hr Hl]. rewrite (IH Hl), andb_true_r.
  unfold valid_record in Hr. now destruct (is_record r).
Qed.

Lemma findIndex_from_merge_callback (r : JSON) (l : list JSON) (i : nat) :
  is_record r = true ->
  forallb is_record l = true ->
  findIndex_from i (fun e =>
     cbind (get_prop "id" e) (fun a =>
     cbind (get_prop "id" r) (fun b => Normal (strict_eq a b)))) l
  = findIndex_from i (id_is (prop_of "id" r)) l.
Proof.
  intros Hr.
  set (f := fun e => cbind (get_prop "id" e) (fun a =>
                     cbind (get_prop "id" r) (fun b => Normal (strict_eq a b)))).
  revert i. induction l as [|x l IH]; intros i Hl; simpl; [reflexivity|].
  simpl in Hl. apply andb_prop in Hl as [Hx Hl].
  assert (f x = id_is (prop_of "id" r) x) as ->.
  { unfold f, id_is. now rewrite (get_prop_record _ _ Hx), (get_prop_record _ _ Hr). }
  destruct (id_is (prop_of "id" r) x) as [[]|]; simpl; auto.
Qed.

Lemma strict_eq_true (a b : option JSON) : strict_eq a b = true -> a = b.
Proof.
  destruct a as [[]|], b as [[]|]; simpl; try discriminate; try reflexivity.
  - intros H. apply Bool.eqb_prop in H. now subst.
  - intros H. apply Z.eqb_eq in H. now subst.
  - intros H. apply String.eqb_eq in H. now subst.
Qed.

Lemma existsb_id_map (q : option JSON) (l : list JSON) :
  existsb (fun e => strict_eq (prop_of "id" e) q) l
  = existsb (fun a => strict_eq a q) (map (prop_of "id") l).
Proof. induction l as [|x l IH]; simpl; [reflexivity | now rewrite IH]. Qed.

Lemma first_index_existsb (q : option JSON) (l : list JSON) :
  existsb (fun e => strict_eq (prop_of "id" e) q) l
  = match first_index q l with Some _ => true | None => false end.
Proof.
  destruct (first_index q l) as [i|] eqn:E.
  - apply first_index_lookup in E as [(r & Hr & Hp) _].
    apply existsb_exists. exists r. split; [|exact Hp].
    apply list_elem_of_In. eapply list_elem_of_lookup_2; eauto.
  - apply not_true_is_false. intros H. apply existsb_exists in H as (r & Hr & Hp).
    apply list_elem_of_In in Hr.
    rewrite first_index_None in E. rewrite (E r Hr) in Hp. discriminate.
Qed.

Lemma overlaps_cons (cur rest : list JSON) (r : JSON) :
  overlaps cur (r :: rest) =
  (if existsb (fun e => strict_eq (prop_of "id" e) (prop_of "id" r)) cur then 1 else 0)
  + overlaps cur rest.
Proof.
  unfold overlaps. simpl.
  destruct (existsb _ cur); reflexivity.
Qed.

Lemma overlaps_le (cur imported : list JSON) : overlaps cur imported <= length imported.
Proof. unfold overlaps. apply filter_length_le. Qed.

Lemma overlaps_same_ids (cur cur' imported : list JSON) :
  map (prop_of "id") cur' = map (prop_of "id") cur ->
  overlaps cur' imported = overlaps cur imported.
Proof.
  intros H. unfold overlaps. f_equal. apply filter_ext. intros q.
  now rewrite !existsb_id_map, H.
Qed.

Lemma ids_after_replace (cur : list JSON) (i : nat) (x r : JSON) :
  cur !! i = Some x ->
  prop_of "id" x = prop_of "id" r ->
  map (prop_of "id") (<[i := r]> cur) = map (prop_of "id") cur.
Proof.
  intros Hx Hid. change (map (prop_of "id")) with (fmap (M:=list) (prop_of "id")).
  rewrite list_fmap_insert. apply list_insert_id.
  rewrite list_lookup_fmap, Hx. simpl. now rewrite Hid.
Qed.

Lemma overlaps_after_push (cur rest : list JSON) (r : JSON) :
  negb (existsb (fun e => strict_eq (prop_of "id" r) (prop_of "id" e)) rest) = true ->
  overlaps (cur ++ [r]) rest = overlaps cur rest.
Proof.
  intros H. apply negb_true_iff in H. unfold overlaps. f_equal.
  apply filter_ext_in. intros q Hq.
  rewrite existsb_app. simpl. rewrite orb_false_r.
  assert (strict_eq (prop_of "id" r) (prop_of "id" q) = false) as ->;
    [|now rewrite orb_false_r].
  apply not_true_is_false. intros E.
  assert (existsb (fun e => strict_eq (prop_of "id" r) (prop_of "id" e)) rest = true);
    [|congruence].
  apply existsb_exists. eauto.
Qed.

(** The merge loop on records: every imported record is entered, by
    replacement or at the end, and the loop does not throw. *)
Lemma merge_records (imported : list JSON) :
  forall cur c,
    forallb is_record cur = true ->
    forallb is_record imported = true ->
    exists merged n,
      Part000.merge imported cur c = Normal (merged, n) /\
      forallb is_record merged = true /\
      (forallb distinct_keys cur = true -> forallb distinct_keys imported = true ->
       forallb distinct_keys merged = true) /\
      (distinct_ids imported = true ->
       n = c + (length imported - overlaps cur imported) /\
       length merged = length cur + (length imported - overlaps cur imported)).
Proof.
  induction imported as [|r rest IH]; intros cur c Hcur Himp.
  - exists cur, c. simpl. repeat split; auto; lia.
  - simpl in Himp. apply andb_prop in Himp as [Hr Hrest].
    simpl Part000.merge. unfold findIndex.
    rewrite (findIndex_from_merge_callback r cur 0 Hr Hcur).
    fold (findIndex (id_is (prop_of "id" r)) cur).
    rewrite (findIndex_records _ _ Hcur), cbind_Normal.
    pose proof (overlaps_le cur rest) as Hle.
    destruct (first_index (prop_of "id" r) cur) as [i|] eqn:Hidx.
    + pose proof Hidx as Hi.
      apply first_index_lookup in Hi as [(x & Hx & Hp) _]. apply strict_eq_true in Hp.
      destruct (IH (<[i := r]> cur) c) as (merged & n & E & Hm & Hd & Hn);
        [now apply forallb_insert | exact Hrest |].
      exists merged, n. split; [exact E|]. split; [exact Hm|]. split.
      * simpl. intros H1 H2. apply andb_prop in H2 as [H2 H3].
        apply Hd; [now apply forallb_insert | exact H3].
      * simpl. intros Hdist. apply andb_prop in Hdist as [_ Hdist].
        destruct (Hn Hdist) as [-> ->].
        rewrite overlaps_cons, first_index_existsb, Hidx.
        rewrite (overlaps_same_ids cur (<[i := r]> cur))
          by (eapply ids_after_replace; eauto).
        rewrite length_insert. lia.
    + destruct (IH (cur ++ [r])%list (S c)) as (merged & n & E & Hm & Hd & Hn);
        [rewrite forallb_app; simpl; now rewrite Hcur, Hr | exact Hrest |].
      exists merged, n. split; [exact E|]. split; [exact Hm|]. split.
      * simpl. intros H1 H2. apply andb_prop in H2 as [H2 H3].
        apply Hd; [|exact H3]. rewrite forallb_app. simpl. now rewrite H1, H2.
      * simpl. intros Hdist. apply andb_prop in Hdist as [Hfresh Hdist].
        destruct (Hn Hdist) as [-> ->].
        rewrite overlaps_cons, first_index_existsb, Hidx.
        rewrite (overlaps_after_push cur rest r Hfresh).
        rewrite List.length_app. simpl. lia.
Qed.

Lemma enhancedData_no_throw (data : EmojiData) (l : list JSON) :
  forallb is_record l = true -> exists d, enhancedData data (JArr l) = Normal d.
Proof.
  intros Hrec. destruct l as [|r l]; [eexists; reflexivity|].
  destruct (enhancedData_records data (r :: l)) as (own & E & _); [discriminate|exact Hrec|].
  eauto.
Qed.

Lemma refreshEmojiPicker_records (data : EmojiData) (w : World) (l : list JSON) :
  collection w = JArr l ->
  forallb is_record l = true ->
  exists lg,
    Part000.refreshEmojiPicker data w =
    (Normal tt,
     set_pickerClassList (classList_add displayNone (pickerClassList w)) (set_log lg w)).
Proof.
  intros Hc Hrec. unfold Part000.refreshEmojiPicker, Part000.createCustomEmojiData, bind.
  destruct (Part000_load_collection w) as (lg & ->). rewrite Hc.
  destruct (enhancedData_no_throw data l Hrec) as (d & E).
  unfold lift. rewrite E. exists lg. reflexivity.
Qed.

Lemma updateCustomEmojiList_records (w : World) (l : list JSON) :
  collection w = JArr l ->
  forallb is_record l = true ->
  exists lg, Part000.updateCustomEmojiList w = (Normal tt, set_log lg w).
Proof.
  intros Hc Hrec. unfold Part000.updateCustomEmojiList, bind.
  destruct (Part000_load_collection w) as (lg & ->). rewrite Hc.
  unfold lift at 1. simpl as_array. cbv iota beta.
  assert (exists ys, map_js (fun emoji =>
             cbind (get_prop "src" emoji) (fun _ =>
             cbind (get_prop "name" emoji) (fun _ => get_prop "id" emoji))) l = Normal ys)
    as (ys & E).
  { clear Hc. induction l as [|r l IH]; [eexists; reflexivity|].
    simpl in Hrec. apply andb_prop in Hrec as [Hr Hl].
    destruct (IH Hl) as (ys & E). simpl.
    rewrite !(get_prop_record _ _ Hr). simpl. rewrite E. simpl. eauto. }
  unfold lift. rewrite E. exists lg. reflexivity.
Qed.

(** A run of [importCustomEmojis] on a valid payload and a store of
    records. *)
Lemma importCustomEmojis_valid (data : EmojiData) (text : string) (w : World)
      (imported l : list JSON) :
  JSON_parse text = Normal (JArr imported) ->
  forallb valid_record imported = true ->
  collection w = JArr l ->
  forallb is_record l = true ->
  exists merged n lg,
    Part000.merge imported l 0 = Normal (merged, n) /\
    forallb distinct_keys merged = true /\
    Part000.importCustomEmojis data text w =
    (Normal true,
     set_pickerClassList (classList_add displayNone (pickerClassList w))
       (set_log (lg ++ [alert_imported n (length imported - n)])%list
          (if write_ok w merged then written w merged else w))).
Proof.
  intros Hparse Hvalid Hc Hrec.
  pose proof (valid_record_is_record _ Hvalid) as Hirec.
  destruct (merge_records imported l 0 Hrec Hirec) as (merged & n & Hm & Hmrec & Hmd & _).
  assert (Hwf : forallb distinct_keys merged = true).
  { apply Hmd; [now apply (collection_array_distinct w)|].
    apply JSON_parse_distinct_keys in Hparse. exact Hparse. }
  exists merged, n.
  unfold Part000.importCustomEmojis, try_catch. unfold bind at 1.
  unfold lift at 1. rewrite Hparse. unfold bind at 1. unfold ret at 1.
  unfold bind at 1. unfold lift at 1. rewrite (validate_valid _ Hvalid).
  unfold bind at 1.
  destruct (Part000_load_collection w) as (lg0 & ->). rewrite Hc.
  unfold bind at 1. unfold lift at 1. simpl spread.
  unfold bind at 1. unfold lift at 1. rewrite Hm.
  unfold bind at 1. rewrite Part000_save_spec, write_ok_set_log.
  set (w1 := if write_ok w merged then written (set_log lg0 w) merged
             else set_log _ (set_log lg0 w)).
  assert (Hc1 : exists l1, collection w1 = JArr l1 /\ forallb is_record l1 = true).
  { subst w1. destruct (write_ok w merged).
    - exists merged. split; [|exact Hmrec].
      rewrite written_set_log, collection_set_log. now apply collection_written.
    - exists l. split; [|exact Hrec]. now rewrite !collection_set_log. }
  destruct Hc1 as (l1 & Hc1 & Hrec1).
  unfold bind at 1.
  destruct (refreshEmojiPicker_records data w1 l1 Hc1 Hrec1) as (lg1 & ->).
  unfold bind at 1.
  destruct (updateCustomEmojiList_records
              (set_pickerClassList (classList_add displayNone (pickerClassList w1))
                 (set_log lg1 w1)) l1) as (lg2 & ->); [exact Hc1 | exact Hrec1 |].
  unfold bind, emit, ret.
  exists lg2. split; [reflexivity|]. split; [exact Hwf|].
  subst w1. destruct (write_ok w merged); reflexivity.
Qed.

(** A run of [importCustomEmojis] on a payload it refuses. *)
Lemma importCustomEmojis_refused (data : EmojiData) (text : string) (w : World) :
  (forall imported, JSON_parse text = Normal (JArr imported) ->
                    forallb valid_record imported = false) ->
  exists e,
    Part000.importCustomEmojis data text w =
    (Normal false,
     set_log (log w ++ [console_error "Error importing emojis:" e;
                        alert_import_error e])%list w).
Proof.
  intros Hbad.
  assert (Hlog : forall e,
            (let* _ := emit (console_error "Error importing emojis:" e) in
             let* _ := emit (alert_import_error e) in ret false) w
            = (Normal false,
               set_log (log w ++ [console_error "Error importing emojis:" e;
                                  alert_import_error e])%list w)).
  { intros e. unfold bind, emit, ret. simpl. now rewrite <- app_assoc. }
  unfold Part000.importCustomEmojis, try_catch. unfold bind at 1.
  unfold lift at 1.
  destruct (JSON_parse text) as [v|e] eqn:Hparse; [|eexists; apply Hlog].
  destruct v as [|b|n|s|imported|props];
    try (unfold bind at 1, throw at 1; eexists; apply Hlog).
  unfold bind at 1. unfold ret at 1. unfold bind at 1. unfold lift at 1.
  destruct (validate_invalid imported (Hbad imported eq_refl)) as (e & ->).
  eexists; apply Hlog.
Qed.

Lemma merge_findIndex (r : JSON) (cur : list JSON) :
  is_record r = true ->
  forallb is_record cur = true ->
  findIndex (fun e =>
     cbind (get_prop "id" e) (fun a =>
     cbind (get_prop "id" r) (fun b => Normal (strict_eq a b)))) cur
  = Normal (first_index (prop_of "id" r) cur).
Proof.
  intros Hr Hc. unfold findIndex.
  rewrite findIndex_from_merge_callback by assumption.
  now apply findIndex_records.
Qed.

(** The merge loop enters every imported record by its id. *)
Lemma merge_by_id (imported : list JSON) :
  forall cur c,
    forallb is_record cur = true ->
    forallb is_record imported = true ->
    exists n, Part000.merge imported cur c = Normal (merged_by_id cur imported, n).
Proof.
  induction imported as [|r rest IH]; intros cur c Hcur Hrec.
  - exists c. reflexivity.
  - simpl in Hrec. apply andb_prop in Hrec as [Hr Hrest].
    cbn [Part000.merge]. rewrite merge_findIndex by assumption. cbn [cbind].
    change (merged_by_id cur (r :: rest))
      with (merged_by_id (upsert (prop_of "id" r) r cur) rest).
    unfold upsert. destruct (first_index (prop_of "id" r) cur) as [i|].
    + apply IH; [now apply forallb_insert | exact Hrest].
    + apply IH; [|exact Hrest]. rewrite forallb_app, Hcur. simpl. now rewrite Hr.
Qed.

Lemma upsert_keeps (id : option JSON) (r x : JSON) (cur : list JSON) :
  x ∈ cur -> strict_eq (prop_of "id" x) id = false -> x ∈ upsert id r cur.
Proof.
  intros Hx Hid. unfold upsert. destruct (first_index id cur) as [i|] eqn:E.
  - apply first_index_lookup in E as ((y & Hy & Hyid) & _).
    apply list_elem_of_lookup_1 in Hx as (j & Hj).
    destruct (Nat.eq_dec i j) as [->|Hne]; [congruence|].
    apply (list_elem_of_lookup_2 _ j). now rewrite list_lookup_insert_ne.
  - apply elem_of_app. now left.
Qed.

Lemma upsert_enters (id : option JSON) (r : JSON) (cur : list JSON) :
  r ∈ upsert id r cur.
Proof.
  unfold upsert. destruct (first_index id cur) as [i|] eqn:E.
  - apply first_index_lookup in E as ((y & Hy & _) & _).
    apply (list_elem_of_lookup_2 _ i). apply list_lookup_insert_eq.
    now apply lookup_lt_Some in Hy.
  - apply elem_of_app. right. constructor.
Qed.

Lemma merged_by_id_keeps (imported : list JSON) :
  forall cur x,
    x ∈ cur ->
    (forall r, r ∈ imported -> strict_eq (prop_of "id" x) (prop_of "id" r) = false) ->
    x ∈ merged_by_id cur imported.
Proof.
  induction imported as [|r rest IH]; intros cur x Hx Hnew; [exact Hx|].
  change (merged_by_id cur (r :: rest))
    with (merged_by_id (upsert (prop_of "id" r) r cur) rest).
  apply IH.
  - apply upsert_keeps; [exact Hx|]. apply Hnew. constructor.
  - intros q Hq. apply Hnew. now constructor.
Qed.

Lemma merged_by_id_enters (imported : list JSON) :
  forall cur r,
    distinct_ids imported = true ->
    r ∈ imported ->
    r ∈ merged_by_id cur imported.
Proof.
  induction imported as [|r0 rest IH]; intros cur r Hd Hr; [inversion Hr|].
  simpl in Hd. apply andb_prop in Hd as [Hfresh Hd].
  change (merged_by_id cur (r0 :: rest))
    with (merged_by_id (upsert (prop_of "id" r0) r0 cur) rest).
  apply elem_of_cons in Hr as [->|Hr].
  - apply merged_by_id_keeps; [apply upsert_enters|].
    intros q Hq. apply negb_true_iff in Hfresh.
    apply not_true_is_false. intros E.
    assert (existsb (fun e => strict_eq (prop_of "id" r0) (prop_of "id" e)) rest = true) as Hex.
    { apply existsb_exists. exists q. split; [now apply list_elem_of_In|exact E]. }
    congruence.
  - now apply IH.
Qed.

(** C3, as stated, fails when the storage area refuses the write: the file
    is valid, [importCustomEmojis] returns true, and the merged list is not
    persisted; the collection is what it was. *)
Lemma import_into_a_full_storage :
  let w := page_with [wave] 150 in
  let imported := [plain_record "a" "A" "https://x/a.png";
                   plain_record "b" "B" "https://x/b.png"] in
  let w' := snd (Part000.importCustomEmojis sample_data import_text_two_new w) in
  write_ok w [wave] = true /\
  JSON_parse import_text_two_new = Normal (JArr imported) /\
  forallb valid_record imported = true /\
  fst (Part000.importCustomEmojis sample_data import_text_two_new w) = Normal true /\
  collection w' = JArr [wave] /\
  collection w' <> JArr (merged_by_id [wave] imported).
Proof.
  repeat split; try (vm_compute; reflexivity). vm_compute. discriminate.
Qed.

(** C3. [importCustomEmojis] on the text of a file.  When the text is not
    the JSON text of an array, or some element of the array is not a record
    with non-empty [id], [name] and [src], the call returns false and the
    storage is what it was.  When every element is such a record and the
    store holds a collection of records, the merge loop delivers the
    collection with every imported record, in the order of the file, put in
    by its id; the call returns true; the storage is what one call of
    [saveCustomEmojis] on that list leaves of the storage before the call;
    and the collection afterwards is that list when the storage area
    accepted the write and the old collection when it refused.  In that
    list every old record whose id is the id of no imported record is kept,
    and when no two imported records have the same id every imported record
    is present. *)
Theorem importCustomEmojis_all_or_nothing (data : EmojiData) (text : string) (w : World) :
  ((forall imported, JSON_parse text = Normal (JArr imported) ->
                     forallb valid_record imported = false) ->
   fst (Part000.importCustomEmojis data text w) = Normal false /\
   localStorage (snd (Part000.importCustomEmojis data text w)) = localStorage w /\
   collection (snd (Part000.importCustomEmojis data text w)) = collection w) /\
  (forall imported l,
     JSON_parse text = Normal (JArr imported) ->
     forallb valid_record imported = true ->
     collection w = JArr l ->
     forallb is_record l = true ->
     let merged := merged_by_id l imported in
     (exists n, Part000.merge imported l 0 = Normal (merged, n)) /\
     fst (Part000.importCustomEmojis data text w) = Normal true /\
     localStorage (snd (Part000.importCustomEmojis data text w))
       = localStorage (snd (Part000.saveCustomEmojis merged w)) /\
     collection (snd (Part000.importCustomEmojis data text w))
       = JArr (if write_ok w merged then merged else l) /\
     (forall e, e ∈ l ->
                (forall r, r ∈ imported ->
                           strict_eq (prop_of "id" e) (prop_of "id" r) = false) ->
                e ∈ merged) /\
     (distinct_ids imported = true -> forall r, r ∈ imported -> r ∈ merged)).
Proof.
  split.
  - intros Hbad. destruct (importCustomEmojis_refused data text w Hbad) as (e & ->).
    repeat split.
  - intros imported l Hparse Hvalid Hc Hrec merged.
    destruct (importCustomEmojis_valid data text w imported l Hparse Hvalid Hc Hrec)
      as (merged' & n & lg & Hm & Hwf & ->).
    destruct (merge_by_id imported l 0 Hrec (valid_record_is_record _ Hvalid)) as (n' & Hm').
    fold merged in Hm'. rewrite Hm' in Hm. injection Hm as <- <-.
    split; [now exists n'|]. split; [reflexivity|].
    rewrite Part000_save_spec. cbn [snd]. split; [|split; [|split]].
    + destruct (write_ok w merged); reflexivity.
    + change (collection (set_log (lg ++ [alert_imported n' (length imported - n')])
                (if write_ok w merged then written w merged else w))
              = JArr (if write_ok w merged then merged else l)).
      now apply collection_after_write.
    + intros e He Hnew. now apply merged_by_id_keeps.
    + intros Hd r Hr. now apply merged_by_id_enters.
Qed.

Lemma importCustomEmojis_all_or_nothing_witness :
  (fst (Part000.importCustomEmojis sample_data import_text_invalid (page_with [wave] 1000))
     = Normal false /\
   localStorage (snd (Part000.importCustomEmojis sample_data import_text_invalid
                        (page_with [wave] 1000)))
     = localStorage (page_with [wave] 1000)) /\
  fst (Part000.importCustomEmojis sample_data import_text_two_new (page_with [wave] 1000))
    = Normal true /\
  collection (snd (Part000.importCustomEmojis sample_data import_text_two_new
                     (page_with [wave] 1000)))
    = JArr [wave; plain_record "a" "A" "https://x/a.png";
            plain_record "b" "B" "https://x/b.png"].
Proof.
  split.
  - destruct (proj1 (importCustomEmojis_all_or_nothing sample_data import_text_invalid
                       (page_with [wave] 1000))) as (H1 & H2 & _); [|now split].
    intros imported. vm_compute. intros [= <-]. reflexivity.
  - destruct (proj2 (importCustomEmojis_all_or_nothing sample_data import_text_two_new
                       (page_with [wave] 1000))
                [plain_record "a" "A" "https://x/a.png";
                 plain_record "b" "B" "https://x/b.png"] [wave])
      as (_ & H & _ & Hc & _).
    + vm_compute; reflexivity.
    + reflexivity.
    + vm_compute; reflexivity.
    + reflexivity.
    + split; [exact H|]. rewrite Hc. vm_compute. reflexivity.
Defined.

(** C2, as stated, fails when two imported records have the same id: with
    an empty store and the two records [a] (so N = 0, M = 2, K = 0) the
    second record overwrites the first; one addition and one update are
    reported and the collection has one record, where the claim has two
    additions, no update and two records. *)
Lemma import_with_repeated_id :
  let w := empty_page 1000 in
  let imported := [plain_record "a" "A" "https://x/a.png";
                   plain_record "a" "A2" "https://x/a2.png"] in
  let w' := snd (Part000.importCustomEmojis sample_data import_text_repeated w) in
  collection w = JArr [] /\
  JSON_parse import_text_repeated = Normal (JArr imported) /\
  overlaps [] imported = 0 /\
  log w' = [alert_imported 1 1] /\
  log w' <> [alert_imported (length imported - overlaps [] imported) (overlaps [] imported)] /\
  collection w' = JArr [plain_record "a" "A2" "https://x/a2.png"].
Proof.
  repeat split; try (vm_compute; reflexivity). vm_compute. discriminate.
Qed.

(** C2, amended.  Let the store hold N records, and let the imported text
    be an array of M valid records with pairwise distinct ids, K of which
    have the id of a record of the store.  Then [importCustomEmojis] returns
    true, its last alert reports M - K new and K updated emojis, the merged
    list has N + M - K records, and it is the persisted collection when the
    storage area accepts the write. *)
Theorem importCustomEmojis_counts (data : EmojiData) (text : string) (w : World)
        (imported l : list JSON) :
  JSON_parse text = Normal (JArr imported) ->
  forallb valid_record imported = true ->
  distinct_ids imported = true ->
  collection w = JArr l ->
  forallb is_record l = true ->
  let N := length l in
  let M := length imported in
  let K := overlaps l imported in
  let w' := snd (Part000.importCustomEmojis data text w) in
  fst (Part000.importCustomEmojis data text w) = Normal true /\
  last (log w') = Some (alert_imported (M - K) K) /\
  exists merged,
    Part000.merge imported l 0 = Normal (merged, M - K) /\
    length merged = N + M - K /\
    localStorage w' = localStorage (if write_ok w merged then written w merged else w) /\
    (write_ok w merged = true -> collection w' = JArr merged).
Proof.
  intros Hparse Hvalid Hdist Hc Hrec N M K w'.
  pose proof (valid_record_is_record _ Hvalid) as Hirec.
  destruct (importCustomEmojis_valid data text w imported l Hparse Hvalid Hc Hrec)
    as (merged & n & lg & Hm & Hwf & E).
  destruct (merge_records imported l 0 Hrec Hirec) as (merged' & n' & Hm' & _ & _ & Hn).
  rewrite Hm in Hm'. injection Hm' as <- <-.
  destruct (Hn Hdist) as [Hcount Hlen].
  pose proof (overlaps_le l imported) as Hle.
  subst w'. rewrite E. simpl fst. simpl snd.
  split; [reflexivity|]. split.
  - simpl log. rewrite last_snoc. f_equal. subst M K. rewrite Hcount. f_equal; lia.
  - exists merged. split; [subst M K; rewrite Hm, Hcount; reflexivity|].
    split; [subst N M K; lia|]. split.
    + destruct (write_ok w merged); reflexivity.
    + intros Hok. rewrite Hok.
      change (collection (written w merged) = JArr merged).
      now apply collection_written.
Qed.

Lemma importCustomEmojis_counts_witness :
  let text := JSON_stringify (JArr [plain_record "wave" "Wave2" "https://x/w2.png";
                                    plain_record "b" "B" "https://x/b.png"]) in
  let w' := snd (Part000.importCustomEmojis sample_data text (page_with [wave; smile] 1000)) in
  last (log w') = Some (alert_imported 1 1) /\
  exists merged, length merged = 3 /\ collection w' = JArr merged.
Proof.
  intros text w'.
  destruct (importCustomEmojis_counts sample_data text (page_with [wave; smile] 1000)
              [plain_record "wave" "Wave2" "https://x/w2.png";
               plain_record "b" "B" "https://x/b.png"] [wave; smile])
    as (_ & Hlast & merged & Hm & Hlen & _ & Hcol).
  - vm_compute; reflexivity.
  - reflexivity.
  - reflexivity.
  - vm_compute; reflexivity.
  - reflexivity.
  - split; [exact Hlast|]. exists merged. split; [exact Hlen|].
    apply Hcol. vm_compute in Hm. injection Hm as <-. vm_compute; reflexivity.
Defined.

(** ** C7: the text an emoji selection inserts *)

(** C7, as stated, fails on a descriptor that carries an image source and a
    native glyph field holding the empty string: the image reference is
    inserted although the field is there, not the field's content. *)
Lemma emojiText_with_empty_native :
  emojiText selected_empty_native = Some "![wave](https://x/y.png)" /\
  sel_native selected_empty_native <> None /\
  emojiText selected_empty_native <> sel_native selected_empty_native.
Proof. repeat split; discriminate. Qed.

Lemma nonempty_true (s : option string) :
  nonempty s = true -> exists t, s = Some t /\ t <> "".
Proof.
  destruct s as [t|]; simpl; [|discriminate].
  intros H. exists t. split; [reflexivity|].
  apply negb_true_iff in H. now apply String.eqb_neq.
Qed.

(** C7, amended.  The text of a selection is the image reference
    [![id](src)] when the descriptor has a non-empty [src] and its native
    glyph is absent or empty; in every other case it is the content of the
    native glyph field.  [insertEmoji] puts that text in place of the
    selection of the text area. *)
Theorem emojiText_spec (inputEmoji : Selected) :
  (nonempty (sel_src inputEmoji) = true ->
   nonempty (sel_native inputEmoji) = false ->
   exists src,
     sel_src inputEmoji = Some src /\ src <> "" /\
     emojiText inputEmoji = Some (image_markdown (sel_id inputEmoji) src)) /\
  (nonempty (sel_src inputEmoji) = false \/ nonempty (sel_native inputEmoji) = true ->
   emojiText inputEmoji = sel_native inputEmoji) /\
  (forall w s e,
     selection (textarea w) = Some (s, e) ->
     s <= e <= String.length (value (textarea w)) ->
     value (textarea (snd (insertEmoji inputEmoji w)))
     = substring 0 s (value (textarea w))
       ++ toDOMString (emojiText inputEmoji)
       ++ substring e (String.length (value (textarea w)) - e) (value (textarea w))).
Proof.
  split; [|split].
  - intros Hsrc Hnat. destruct (nonempty_true _ Hsrc) as (src & E & Hne).
    exists src. unfold emojiText. rewrite Hsrc, Hnat, E. auto.
  - intros H. unfold emojiText.
    destruct H as [-> | ->]; [reflexivity|].
    now rewrite andb_false_r.
  - intros w s e Hsel [Hse Hlen]. unfold insertEmoji, typeInTextarea.
    rewrite Hsel. unfold setRangeText.
    assert (Nat.ltb e s = false) as -> by (apply Nat.ltb_ge; lia).
    simpl. rewrite !Nat.min_l by lia. reflexivity.
Qed.

Lemma emojiText_spec_witness :
  emojiText {| sel_native := None; sel_id := "wave"; sel_src := Some "https://x/y.png" |}
    = Some "![wave](https://x/y.png)" /\
  emojiText {| sel_native := Some "🙂"; sel_id := "slightly_smiling_face"; sel_src := None |}
    = Some "🙂".
Proof.
  split.
  - destruct (proj1 (emojiText_spec
        {| sel_native := None; sel_id := "wave"; sel_src := Some "https://x/y.png" |}))
      as (src & E & _ & H); [reflexivity | reflexivity |].
    injection E as <-. exact H.
  - apply (proj1 (proj2 (emojiText_spec
        {| sel_native := Some "🙂"; sel_id := "slightly_smiling_face"; sel_src := None |}))).
    left. reflexivity.
Defined.

(** ** C9: showing and hiding the picker *)

Lemma contains_classList_add (token : string) (classes : list string) :
  contains token (classList_add token classes) = true.
Proof.
  unfold classList_add. destruct (contains token classes) eqn:E; [exact E|].
  unfold contains. rewrite existsb_app. simpl. now rewrite String.eqb_refl, orb_true_r.
Qed.

Lemma visible_after_add (w : World) :
  visible (set_pickerClassList (classList_add displayNone (pickerClassList w)) w) = false.
Proof. unfold visible. simpl. now rewrite contains_classList_add. Qed.

Lemma Part000_updateCustomEmojiList_world (w : World) :
  exists c lg, Part000.updateCustomEmojiList w = (c, set_log lg w).
Proof.
  unfold Part000.updateCustomEmojiList. unfold bind at 1.
  destruct (Part000_load_collection w) as (lg & ->).
  unfold bind, lift, ret.
  destruct (as_array (collection w)) as [l|e]; [|eauto].
  destruct (map_js _ l); eauto.
Qed.

Lemma IndexJs_updateCustomEmojiList_world (w : World) :
  exists c lg, IndexJsPanel.updateCustomEmojiList w = (c, set_log lg w).
Proof.
  unfold IndexJsPanel.updateCustomEmojiList. unfold bind at 1.
  destruct (IndexJs_load_collection w) as (lg & ->).
  unfold bind, lift, ret.
  destruct (as_array (collection w)) as [l|e]; [|eauto].
  destruct (map_js _ l); eauto.
Qed.

(** C9, as stated, fails for a click on the button that opens the manager:
    the button is outside the picker and outside the trigger button, its
    listener stops the event before the listener of the body sees it, and a
    picker that shows goes on showing, in both scripts. *)
Lemma manage_button_click_keeps_picker_visible :
  let showing := set_pickerClassList [] (empty_page 0) in
  outside OnManageButton = true /\
  visible showing = true /\
  visible (snd (click IndexJsPanel.updateCustomEmojiList OnManageButton new_manager showing))
    = true /\
  visible (snd (click Part000.updateCustomEmojiList OnManageButton new_manager showing))
    = true /\
  shown (snd (fst (click Part000.updateCustomEmojiList OnManageButton new_manager showing)))
    = true.
Proof. repeat split. Qed.

(** C9. A click outside the picker and outside the trigger button, other
    than a click on the button that opens the manager, hides a visible
    picker and changes nothing when the picker is hidden.  A click on the
    button that opens the manager, whose listener stops the event, leaves
    the picker as it is, visible or hidden, in both scripts.  A hidden
    picker stays hidden under every click but the one on the trigger
    button, every key release and every emoji selection; the Escape key
    hides a visible picker, and a selection leaves the picker hidden
    whenever the insertion goes through. *)
Theorem outside_click_hides_picker (w : World) (t : Target) (m : Manager) :
  outside t = true ->
  t <> OnManageButton ->
  (forall upd, visible w = true ->
               fst (click upd t m w) = (Normal tt, m) /\
               visible (snd (click upd t m w)) = false) /\
  (forall upd, visible w = false -> click upd t m w = (Normal tt, m, w)) /\
  (visible (snd (click IndexJsPanel.updateCustomEmojiList OnManageButton m w)) = visible w /\
   visible (snd (click Part000.updateCustomEmojiList OnManageButton m w)) = visible w) /\
  (forall upd t', t' <> OnAddEmojiButton -> t' <> OnManageButton -> visible w = false ->
                  visible (snd (click upd t' m w)) = false) /\
  (visible w = true -> visible (snd (onBodyClick t w)) = false) /\
  (visible w = false -> onBodyClick t w = (Normal tt, w)) /\
  (forall t', visible w = false -> visible (snd (onBodyClick t' w)) = false) /\
  (forall key, visible w = false -> visible (snd (onBodyKeyup key w)) = false) /\
  (visible w = true -> visible (snd (onBodyKeyup "Escape" w)) = false) /\
  (forall sel, visible w = false -> visible (snd (insertEmoji sel w)) = false) /\
  (forall sel, fst (insertEmoji sel w) = Normal tt ->
               visible (snd (insertEmoji sel w)) = false).
Proof.
  intros Hout Hmanage.
  assert (Ht : t = Elsewhere).
  { destruct t; try discriminate Hout; [contradiction|reflexivity]. }
  subst t. clear Hout Hmanage.
  assert (Hsel : forall sel, visible w = false -> visible (snd (insertEmoji sel w)) = false).
  { intros sel Hv. unfold insertEmoji.
    destruct (typeInTextarea (emojiText sel) (textarea w)); [|exact Hv].
    simpl. unfold visible. simpl. now rewrite contains_classList_add. }
  split; [|split; [|split; [|split]]].
  - intros upd Hv. unfold click, bind, onContainerClick, onBodyClick. cbn [addEmojiButton_contains].
    fold (visible w). rewrite Hv. cbn. split; [reflexivity|apply visible_after_add].
  - intros upd Hv. unfold click, bind, onContainerClick, onBodyClick.
    cbn [addEmojiButton_contains]. fold (visible w). now rewrite Hv.
  - unfold click, onManageButtonClick.
    destruct (IndexJs_updateCustomEmojiList_world w) as (c1 & lg1 & ->).
    destruct (Part000_updateCustomEmojiList_world w) as (c2 & lg2 & ->).
    split; reflexivity.
  - intros upd t' Ht1 Ht2 Hv. destruct t' as [| |sel| |]; try contradiction.
    + unfold click. pose proof (Hsel sel Hv) as Hs.
      destruct (insertEmoji sel w) as [c w1]. cbn [snd] in Hs.
      unfold onBodyClick. fold (visible w1). rewrite Hs. exact Hs.
    + unfold click, onBodyClick. fold (visible w). now rewrite Hv.
    + unfold click, bind, onContainerClick, onBodyClick. cbn [addEmojiButton_contains].
      fold (visible w). now rewrite Hv.
  - unfold onBodyClick, onBodyKeyup. fold (visible w). repeat split.
    + intros Hv. rewrite Hv. simpl. apply visible_after_add.
    + intros Hv. now rewrite Hv.
    + intros t' Hv. now rewrite Hv.
    + intros key Hv. now rewrite Hv.
    + intros Hv. rewrite Hv. simpl. apply visible_after_add.
    + exact Hsel.
    + intros sel. unfold insertEmoji.
      destruct (typeInTextarea (emojiText sel) (textarea w)); [|discriminate].
      intros _. simpl. unfold visible. simpl. now rewrite contains_classList_add.
Qed.

Lemma outside_click_hides_picker_witness :
  let showing := set_pickerClassList [] (empty_page 0) in
  let once := snd (click Part000.updateCustomEmojiList Elsewhere new_manager showing) in
  visible showing = true /\
  visible once = false /\
  click Part000.updateCustomEmojiList Elsewhere new_manager once = (Normal tt, new_manager, once).
Proof.
  intros showing once. split; [reflexivity|].
  assert (Hne : Elsewhere <> OnManageButton) by discriminate.
  destruct (outside_click_hides_picker showing Elsewhere new_manager eq_refl Hne) as (H1 & _).
  destruct (H1 Part000.updateCustomEmojiList eq_refl) as (_ & Hhidden).
  split; [exact Hhidden|].
  destruct (outside_click_hides_picker once Elsewhere new_manager eq_refl Hne) as (_ & H2 & _).
  apply H2. exact Hhidden.
Defined.

(** The trigger button toggles the picker. *)
Lemma contains_classList_remove (token : string) (classes : list string) :
  contains token (classList_remove token classes) = false.
Proof.
  unfold contains, classList_remove.
  induction classes as [|c classes IH]; simpl; [reflexivity|].
  destruct (String.eqb token c) eqn:E; simpl; [exact IH|].
  now rewrite E, IH.
Qed.

Lemma onContainerClick_toggles (w : World) :
  visible (snd (onContainerClick OnAddEmojiButton w)) = negb (visible w).
Proof.
  unfold onContainerClick, visible. simpl. unfold classList_toggle.
  destruct (contains displayNone (pickerClassList w)) eqn:E; simpl.
  - now rewrite contains_classList_remove.
  - unfold contains in *. rewrite existsb_app, E. reflexivity.
Qed.

(** ** Stores that do not hold a collection of records

    The statements above are about stores whose slot holds an array of
    records.  On other slot contents the array methods throw, and the
    store operations with them. *)

Lemma removeCustomEmoji_on_a_number :
  fst (IndexJs.removeCustomEmoji "wave" (page_with_text "5" 100)) = Throw TypeError /\
  fst (Part000.removeCustomEmoji "wave" (page_with_text "5" 100)) = Throw TypeError.
Proof. split; vm_compute; reflexivity. Qed.

Lemma addCustomEmoji_on_a_null_element :
  fst (IndexJs.addCustomEmoji "wave" "Wave" "https://x/y.png" []
         (page_with_text "[null]" 100)) = Throw TypeError /\
  fst (Part000.addCustomEmoji "wave" "Wave" "https://x/y.png" []
         (page_with_text "[null]" 100)) = Throw TypeError.
Proof. split; vm_compute; reflexivity. Qed.

Lemma importCustomEmojis_on_a_null_element :
  fst (Part000.importCustomEmojis sample_data import_text_two_new
         (page_with_text "[null]" 1000)) = Normal false /\
  slot (snd (Part000.importCustomEmojis sample_data import_text_two_new
               (page_with_text "[null]" 1000))) = Some "[null]".
Proof. split; vm_compute; reflexivity. Qed.

(** ** The ids of the store stay distinct

    A collection in which no two records have the same id keeps that
    property under [addCustomEmoji], [removeCustomEmoji] and
    [importCustomEmojis]; so, in a store that only these operations have
    written, the record of a given id is the first of that id. *)

Lemma distinct_ids_by_ids (l l' : list JSON) :
  map (prop_of "id") l = map (prop_of "id") l' -> distinct_ids l = distinct_ids l'.
Proof.
  revert l'. induction l as [|r l IH]; intros [|r' l'] H; try discriminate; [reflexivity|].
  simpl in H. injection H as Hr Hl. simpl.
  rewrite (IH l' Hl). f_equal. f_equal. rewrite Hr.
  transitivity (existsb (fun a => strict_eq (prop_of "id" r') a) (map (prop_of "id") l)).
  - clear. induction l as [|x l IH]; simpl; [reflexivity | now rewrite IH].
  - rewrite Hl. clear. induction l' as [|x l IH]; simpl; [reflexivity | now rewrite IH].
Qed.

Lemma distinct_ids_push (l : list JSON) (r : JSON) :
  distinct_ids l = true ->
  (forall e, e ∈ l -> strict_eq (prop_of "id" e) (prop_of "id" r) = false) ->
  distinct_ids (l ++ [r]) = true.
Proof.
  induction l as [|x l IH]; simpl; intros Hd Hfresh; [reflexivity|].
  apply andb_prop in Hd as [Hx Hd].
  rewrite existsb_app. simpl. rewrite orb_false_r.
  rewrite (Hfresh x ltac:(constructor)), orb_false_r, Hx. simpl.
  apply IH; [exact Hd|]. intros e He. apply Hfresh. now constructor.
Qed.

Lemma distinct_ids_upsert (id : option JSON) (r : JSON) (l : list JSON) :
  prop_of "id" r = id ->
  distinct_ids l = true ->
  distinct_ids (upsert id r l) = true.
Proof.
  intros Hr Hd. unfold upsert.
  destruct (first_index id l) as [i|] eqn:E.
  - apply first_index_lookup in E as [(x & Hx & Hp) _]. apply strict_eq_true in Hp.
    rewrite (distinct_ids_by_ids _ l); [exact Hd|].
    eapply ids_after_replace; [exact Hx | congruence].
  - apply distinct_ids_push; [exact Hd|].
    rewrite first_index_None in E. intros e He. rewrite Hr. now apply E.
Qed.

Lemma distinct_ids_filter (keep : JSON -> bool) (l : list JSON) :
  distinct_ids l = true -> distinct_ids (List.filter keep l) = true.
Proof.
  induction l as [|x l IH]; simpl; [reflexivity|].
  intros Hd. apply andb_prop in Hd as [Hx Hd].
  destruct (keep x); simpl; [|now apply IH].
  rewrite (IH Hd), andb_true_r. apply negb_true_iff. apply negb_true_iff in Hx.
  apply not_true_is_false. intros H. apply existsb_exists in H as (e & He & Hp).
  apply filter_In in He as [He _].
  assert (existsb (fun e => strict_eq (prop_of "id" x) (prop_of "id" e)) l = true);
    [|congruence].
  apply existsb_exists. eauto.
Qed.

Lemma merge_distinct_ids (imported : list JSON) :
  forall cur c merged n,
    forallb is_record cur = true ->
    forallb is_record imported = true ->
    Part000.merge imported cur c = Normal (merged, n) ->
    distinct_ids cur = true ->
    distinct_ids merged = true.
Proof.
  induction imported as [|r rest IH]; intros cur c merged n Hcur Himp Hm Hd.
  - simpl in Hm. now injection Hm as <- _.
  - simpl in Himp. apply andb_prop in Himp as [Hr Hrest].
    simpl in Hm. unfold findIndex in Hm.
    rewrite (findIndex_from_merge_callback r cur 0 Hr Hcur) in Hm.
    fold (findIndex (id_is (prop_of "id" r)) cur) in Hm.
    rewrite (findIndex_records _ _ Hcur), cbind_Normal in Hm.
    pose proof (distinct_ids_upsert (prop_of "id" r) r cur eq_refl Hd) as Hup.
    unfold upsert in Hup.
    destruct (first_index (prop_of "id" r) cur) as [i|].
    + eapply IH; [| exact Hrest | exact Hm | exact Hup]. now apply forallb_insert.
    + eapply IH; [| exact Hrest | exact Hm | exact Hup].
      rewrite forallb_app. simpl. now rewrite Hcur, Hr.
Qed.

(** X25.  On a store of records no two of which have the same id, every
    operation on the store leaves a collection no two records of which have
    the same id: [addCustomEmoji] and [removeCustomEmoji] of both scripts
    with any arguments, and [importCustomEmojis] with any file, whether or
    not the storage accepts the write. *)
Theorem ids_stay_distinct (w : World) (l : list JSON) :
  collection w = JArr l ->
  forallb is_record l = true ->
  distinct_ids l = true ->
  (forall id name url keywords,
     exists l1 l2,
       collection (snd (IndexJs.addCustomEmoji id name url keywords w)) = JArr l1 /\
       collection (snd (Part000.addCustomEmoji id name url keywords w)) = JArr l2 /\
       distinct_ids l1 = true /\ distinct_ids l2 = true) /\
  (forall id,
     exists l1 l2,
       collection (snd (IndexJs.removeCustomEmoji id w)) = JArr l1 /\
       collection (snd (Part000.removeCustomEmoji id w)) = JArr l2 /\
       distinct_ids l1 = true /\ distinct_ids l2 = true) /\
  (forall data text,
     exists l1,
       collection (snd (Part000.importCustomEmojis data text w)) = JArr l1 /\
       distinct_ids l1 = true).
Proof.
  intros Hc Hrec Hd.
  pose proof (collection_array_distinct _ _ Hc) as Hwf.
  split; [|split].
  - intros id name url keywords.
    set (l' := upsert (Some (JStr id)) (newEmoji id name url keywords) l).
    assert (Hd' : distinct_ids l' = true) by now apply distinct_ids_upsert.
    assert (Hwf' : forallb distinct_keys l' = true).
    { subst l'. unfold upsert. destruct (first_index _ l).
      - apply forallb_insert; [exact Hwf | apply newEmoji_distinct_keys].
      - rewrite forallb_app, Hwf. cbn [forallb andb].
        now rewrite newEmoji_distinct_keys. }
    destruct (IndexJs_add_spec w l id name url keywords Hc Hrec) as (lg1 & ->).
    destruct (Part000_add_spec w l id name url keywords Hc Hrec) as (lg2 & ->).
    fold l'. simpl snd.
    exists (if write_ok w l' then l' else l),
           (if name_in_use name id l then l else if write_ok w l' then l' else l).
    rewrite (collection_after_write w l l' lg1 Hc Hwf').
    split; [reflexivity|]. split.
    + destruct (name_in_use name id l); simpl snd.
      * now rewrite collection_set_log.
      * now rewrite (collection_after_write w l l' lg2 Hc Hwf').
    + destruct (name_in_use name id l), (write_ok w l'); auto.
  - intros id.
    assert (Hd' : distinct_ids (without id l) = true) by now apply distinct_ids_filter.
    assert (Hwf' : forallb distinct_keys (without id l) = true) by now apply forallb_filter.
    destruct (IndexJs_remove_spec w l id Hc Hrec) as (lg1 & ->).
    destruct (Part000_remove_spec w l id Hc Hrec) as (lg2 & ->).
    simpl snd. exists (if write_ok w (without id l) then without id l else l),
                      (if write_ok w (without id l) then without id l else l).
    rewrite !(collection_after_write w l (without id l) _ Hc Hwf').
    repeat split; destruct (write_ok w (without id l)); auto.
  - intros data text.
    destruct (JSON_parse text) as [[| | | |imported|]|e] eqn:Hparse;
      try (destruct (importCustomEmojis_refused data text w) as (e' & ->);
           [intros imported' H; rewrite Hparse in H; discriminate H |
            exists l; split; [exact Hc | exact Hd]]).
    destruct (forallb valid_record imported) eqn:Hvalid.
    + destruct (importCustomEmojis_valid data text w imported l Hparse Hvalid Hc Hrec)
        as (merged & n & lg & Hm & Hwf' & ->).
      simpl snd. exists (if write_ok w merged then merged else l). split.
      * change (collection (set_log (lg ++ [alert_imported n (length imported - n)])
                  (if write_ok w merged then written w merged else w))
                = JArr (if write_ok w merged then merged else l)).
        now apply collection_after_write.
      * destruct (write_ok w merged); [|exact Hd].
        eapply merge_distinct_ids; [exact Hrec | | exact Hm | exact Hd].
        now apply valid_record_is_record.
    + destruct (importCustomEmojis_refused data text w) as (e' & ->).
      * intros imported' H. rewrite Hparse in H. now injection H as <-.
      * exists l. split; [exact Hc | exact Hd].
Qed.

(* ===================================================================== *)
(** * Part 4. The panel, the files and the start-up code                  *)
(* ===================================================================== *)

(** ** Typing into the text area *)

Lemma substring_whole (s : string) : substring 0 (String.length s) s = s.
Proof. induction s as [|c s IH]; simpl; [reflexivity | now rewrite IH]. Qed.

Lemma substring_app_l (a b : string) : substring 0 (String.length a) (a ++ b) = a.
Proof.
  induction a as [|c a IH]; simpl.
  - destruct b; reflexivity.
  - now rewrite IH.
Qed.

Lemma substring_app_r (a b : string) (m : nat) :
  substring (String.length a) m (a ++ b) = substring 0 m b.
Proof. induction a as [|c a IH]; simpl; [reflexivity | exact IH]. Qed.

Lemma split_at (n : nat) (v : string) :
  n <= String.length v -> exists a b, v = a ++ b /\ String.length a = n.
Proof.
  revert v. induction n as [|n IH]; intros v Hn.
  - exists "", v. split; reflexivity.
  - destruct v as [|c v]; [simpl in Hn; lia|].
    destruct (IH v) as (a & b & -> & Ha); [simpl in Hn; lia|].
    exists (String c a), b. split; [reflexivity | simpl; lia].
Qed.

(** X1.  [typeInTextarea] with a selection from [s] to [e] inside the
    content: the content is some [before ++ selected ++ after] with [before]
    of length [s] and [selected] of length [e - s]; the new content is
    [before], the inserted text and [after], and the caret stands right
    after the inserted text. *)
Theorem typeInTextarea_replaces_selection
        (newText : option string) (el : TextControl) (s e : nat) :
  selection el = Some (s, e) ->
  s <= e <= String.length (value el) ->
  exists before selected after,
    value el = before ++ selected ++ after /\
    String.length before = s /\
    String.length selected = e - s /\
    typeInTextarea newText el =
    Normal {| value := before ++ toDOMString newText ++ after;
              selection := Some (s + String.length (toDOMString newText),
                                 s + String.length (toDOMString newText)) |}.
Proof.
  intros Hsel [Hse He].
  destruct (split_at s (value el)) as (a & r & Hv & Ha); [lia|].
  assert (Hr : e - s <= String.length r).
  { rewrite Hv, append_length in He. lia. }
  destruct (split_at (e - s) r) as (m & p & -> & Hm); [exact Hr|].
  exists a, m, p. repeat split; try assumption.
  unfold typeInTextarea, setRangeText. rewrite Hsel.
  destruct (Nat.ltb_spec e s) as [Hlt|_]; [lia|].
  rewrite !Nat.min_l by lia.
  assert (Hpre : substring 0 s (value el) = a).
  { rewrite Hv, <- Ha. apply substring_app_l. }
  assert (Hpost : substring e (String.length (value el) - e) (value el) = p).
  { rewrite Hv, <- append_assoc.
    replace e with (String.length (a ++ m)) by (rewrite append_length; lia).
    rewrite substring_app_r.
    replace (String.length ((a ++ m) ++ p) - String.length (a ++ m))
      with (String.length p) by (rewrite !append_length; lia).
    apply substring_whole. }
  now rewrite Hpre, Hpost.
Qed.

Lemma typeInTextarea_replaces_selection_witness :
  exists before selected after,
    "hello world" = before ++ selected ++ after /\
    String.length before = 6 /\
    String.length selected = 5 /\
    typeInTextarea (Some ":)") {| value := "hello world"; selection := Some (6, 11) |} =
    Normal {| value := before ++ ":)" ++ after; selection := Some (8, 8) |}.
Proof.
  apply (typeInTextarea_replaces_selection
           (Some ":)") {| value := "hello world"; selection := Some (6, 11) |} 6 11).
  - reflexivity.
  - simpl. lia.
Defined.

(** X2.  With the caret at the end of the content, or anywhere behind it,
    [typeInTextarea] gives the content the branch without selection support
    gives: the text is appended; and the caret ends behind it. *)
Theorem typeInTextarea_at_the_end
        (newText : option string) (el : TextControl) (s e : nat) :
  selection el = Some (s, e) ->
  String.length (value el) <= s <= e ->
  exists el',
    typeInTextarea newText el = Normal el' /\
    typeInTextarea newText {| value := value el; selection := None |}
      = Normal {| value := value el'; selection := None |} /\
    value el' = value el ++ toDOMString newText /\
    selection el' = Some (String.length (value el'), String.length (value el')).
Proof.
  intros Hsel [Hs He].
  unfold typeInTextarea, setRangeText. rewrite Hsel. simpl selection.
  destruct (Nat.ltb_spec e s) as [Hlt|_]; [lia|].
  rewrite !Nat.min_r by lia. rewrite Nat.sub_diag, substring_whole.
  assert (Hnil : substring (String.length (value el)) 0 (value el) = "").
  { rewrite <- (append_empty_r (value el)) at 2. now rewrite substring_app_r. }
  rewrite Hnil, append_empty_r.
  eexists. split; [reflexivity|]. simpl. repeat split.
  now rewrite append_length.
Qed.

Lemma typeInTextarea_at_the_end_witness :
  exists el',
    typeInTextarea (Some "!") {| value := "hi"; selection := Some (2, 2) |} = Normal el' /\
    typeInTextarea (Some "!") {| value := "hi"; selection := None |}
      = Normal {| value := value el'; selection := None |} /\
    value el' = "hi!" /\
    selection el' = Some (String.length (value el'), String.length (value el')).
Proof.
  apply (typeInTextarea_at_the_end (Some "!") {| value := "hi"; selection := Some (2, 2) |} 2 2).
  - reflexivity.
  - simpl. lia.
Defined.

(** ** Clicks *)

Lemma contains_app_other (token t : string) (classes : list string) :
  contains token (classes ++ [t]) = contains token classes || String.eqb token t.
Proof.
  unfold contains. rewrite existsb_app. simpl. now rewrite orb_false_r.
Qed.

Lemma updateCustomEmojiList_frame (w : World) :
  (exists c lg, IndexJsPanel.updateCustomEmojiList w = (c, set_log lg w)) /\
  (exists c lg, Part000.updateCustomEmojiList w = (c, set_log lg w)).
Proof.
  split; [apply IndexJs_updateCustomEmojiList_world | apply Part000_updateCustomEmojiList_world].
Qed.

(** X3.  A click, through the listeners it reaches.  On the trigger button
    it flips the visibility of the picker (the listener of the body does
    not hide it again).  Inside the picker but not on an emoji it changes
    nothing.  On an emoji it does what [insertEmoji] does and nothing more.
    On the button that opens the manager, whose listener stops the event,
    it opens the panel and draws the list, and in both scripts the picker,
    the storage and the text area stay as they are.  On any other element
    it leaves the picker hidden.  No click but the one on the manage button
    touches the storage or the console, and no click but the one on an
    emoji touches the text area. *)
Theorem click_dispatch (upd : M unit) (m : Manager) (w : World) :
  (exists w1, click upd OnAddEmojiButton m w = (Normal tt, m, w1) /\
              visible w1 = negb (visible w)) /\
  click upd InsidePicker m w = (Normal tt, m, w) /\
  (forall sel,
     click upd (OnEmoji sel) m w = (fst (insertEmoji sel w), m, snd (insertEmoji sel w))) /\
  (exists w1, click upd Elsewhere m w = (Normal tt, m, w1) /\ visible w1 = false) /\
  click upd OnManageButton m w = (fst (upd w), opened m, snd (upd w)) /\
  (forall after,
     after = snd (click IndexJsPanel.updateCustomEmojiList OnManageButton m w) \/
     after = snd (click Part000.updateCustomEmojiList OnManageButton m w) ->
     visible after = visible w /\
     localStorage after = localStorage w /\
     textarea after = textarea w) /\
  (forall t, t <> OnManageButton ->
             localStorage (snd (click upd t m w)) = localStorage w /\
             log (snd (click upd t m w)) = log w) /\
  (forall t, t <> OnManageButton -> (forall sel, t <> OnEmoji sel) ->
             textarea (snd (click upd t m w)) = textarea w).
Proof.
  assert (Hemoji : forall sel,
             click upd (OnEmoji sel) m w
             = (fst (insertEmoji sel w), m, snd (insertEmoji sel w))).
  { intros sel. unfold click. destruct (insertEmoji sel w) as [c w1].
    unfold onBodyClick. cbn [picker_contains negb]. now rewrite andb_false_r. }
  split; [|split; [|split; [|split; [|split; [|split; [|split]]]]]].
  - unfold click, bind, onContainerClick, onBodyClick.
    cbn [addEmojiButton_contains negb]. rewrite andb_false_r.
    eexists. split; [reflexivity|].
    unfold visible. cbn [pickerClassList set_pickerClassList]. unfold classList_toggle.
    destruct (contains displayNone (pickerClassList w)) eqn:E; cbn [negb].
    + now rewrite contains_classList_remove.
    + rewrite contains_app_other, E. reflexivity.
  - unfold click, onBodyClick. cbn [picker_contains negb]. now rewrite andb_false_r.
  - exact Hemoji.
  - unfold click, bind, onContainerClick, onBodyClick.
    cbn [addEmojiButton_contains picker_contains negb]. rewrite !andb_true_r.
    destruct (contains displayNone (pickerClassList w)) eqn:E; cbn [negb].
    + eexists. split; [reflexivity|]. unfold visible. now rewrite E.
    + eexists. split; [reflexivity|]. apply visible_after_add.
  - unfold click, onManageButtonClick. now destruct (upd w).
  - destruct (updateCustomEmojiList_frame w) as ((c1 & lg1 & H1) & (c2 & lg2 & H2)).
    intros after [->| ->]; unfold click, onManageButtonClick; rewrite ?H1, ?H2;
      repeat split.
  - intros t Ht. destruct t as [| |sel| |]; try contradiction.
    + unfold click, bind, onContainerClick, onBodyClick.
      cbn [addEmojiButton_contains negb]. rewrite andb_false_r. split; reflexivity.
    + rewrite Hemoji. cbn [snd]. unfold insertEmoji.
      destruct (typeInTextarea (emojiText sel) (textarea w)); split; reflexivity.
    + unfold click, onBodyClick. cbn [picker_contains negb]. rewrite andb_false_r.
      split; reflexivity.
    + unfold click, bind, onContainerClick, onBodyClick.
      cbn [addEmojiButton_contains picker_contains negb].
      destruct (negb (contains displayNone (pickerClassList w)) && true && true);
        split; reflexivity.
  - intros t Ht Hsel. destruct t as [| |sel| |]; try contradiction.
    + unfold click, bind, onContainerClick, onBodyClick.
      cbn [addEmojiButton_contains negb]. rewrite andb_false_r. reflexivity.
    + now destruct (Hsel sel).
    + unfold click, onBodyClick. cbn [picker_contains negb]. rewrite andb_false_r.
      reflexivity.
    + unfold click, bind, onContainerClick, onBodyClick.
      cbn [addEmojiButton_contains picker_contains negb].
      destruct (negb (contains displayNone (pickerClassList w)) && true && true);
        reflexivity.
Qed.

(** ** The checks on a picked file and on an image URL *)

(** X4.  [validateImageFile] accepts a file exactly when its size is at
    most 2097152 bytes (a file of exactly 2 MB passes) and its type is one
    of the five listed (the unregistered [image/jpg] among them).  An
    accepted file leaves no trace; a refused one costs one alert and
    nothing else. *)
Theorem validateImageFile_spec (file : File) (w : World) :
  let accepted :=
    N.leb (file_size file) 2097152
    && includes ["image/png"; "image/jpeg"; "image/jpg"; "image/gif"; "image/webp"]
         (file_type file) in
  fst (Part000Panel.validateImageFile file w) = Normal accepted /\
  (accepted = true -> snd (Part000Panel.validateImageFile file w) = w) /\
  (accepted = false ->
   exists message,
     snd (Part000Panel.validateImageFile file w) = set_log (log w ++ [alert message])%list w).
Proof.
  unfold Part000Panel.validateImageFile, Part000Panel.maxSize, Part000Panel.allowedTypes.
  change (2 * 1024 * 1024)%N with 2097152%N.
  cbv zeta. rewrite N.ltb_antisym.
  destruct (N.leb (file_size file) 2097152); cbn [negb andb].
  - destruct (includes _ (file_type file)); cbn [negb].
    + split; [reflexivity|]. split; [reflexivity|discriminate].
    + split; [reflexivity|]. split; [discriminate|]. intros _. eexists. reflexivity.
  - split; [reflexivity|]. split; [discriminate|]. intros _. eexists. reflexivity.
Qed.

Lemma strip_prefix_Some (p s r : string) : strip_prefix p s = Some r -> s = p ++ r.
Proof.
  revert s. induction p as [|a p IH]; intros s H; simpl in *.
  - now injection H as ->.
  - destruct s as [|b s]; [discriminate|].
    destruct (Ascii.eqb_spec a b) as [->|]; [|discriminate].
    now rewrite (IH s H).
Qed.

Lemma strip_prefix_append (p r : string) : strip_prefix p (p ++ r) = Some r.
Proof.
  induction p as [|a p IH]; simpl; [reflexivity|]. now rewrite Ascii.eqb_refl.
Qed.

Lemma printable_range (c : ascii) :
  printable c = true -> 33 <= nat_of_ascii c <= 126.
Proof.
  unfold printable. rewrite andb_true_iff, !Nat.leb_le. tauto.
Qed.

Lemma printable_strip_space (c : ascii) (r : string) :
  printable c = true -> strip_space (String c r) = None.
Proof.
  intros H. apply printable_range in H. unfold strip_space.
  set (n := nat_of_ascii c) in *.
  destruct (Nat.leb_spec n 13); [lia|]. rewrite andb_false_r.
  destruct (Nat.eqb_spec n 32); [lia|]. cbn [orb].
  destruct r as [|d [|e r2]]; [reflexivity| |];
    repeat (match goal with
            | |- context [Nat.eqb n ?k] => destruct (Nat.eqb_spec n k); [lia|]
            end); reflexivity.
Qed.

Lemma printable_no_space (s : string) : all_chars printable s = true -> no_space s = true.
Proof.
  induction s as [|c s IH]; [reflexivity|].
  intros H. change (all_chars printable (String c s))
    with (printable c && all_chars printable s) in H.
  apply andb_prop in H as [Hc Hs].
  change (no_space (String c s))
    with (match strip_space (String c s) with Some _ => false | None => no_space s end).
  rewrite printable_strip_space by exact Hc. auto.
Qed.

Lemma printable_one_byte (c : ascii) : printable c = true -> char_bytes c = 1.
Proof.
  intros H. apply printable_range in H. unfold char_bytes.
  set (n := nat_of_ascii c) in *.
  destruct (Nat.leb_spec 240 n); [lia|].
  destruct (Nat.leb_spec 224 n); [lia|].
  destruct (Nat.leb_spec 192 n); [lia|]. reflexivity.
Qed.

Lemma printable_no_terminator (c : ascii) (r : string) :
  printable c = true -> line_terminator_first (String c r) = false.
Proof.
  intros H. apply printable_range in H. unfold line_terminator_first.
  set (n := nat_of_ascii c) in *.
  destruct (Nat.eqb_spec n 10); [lia|].
  destruct (Nat.eqb_spec n 13); [lia|].
  destruct (Nat.eqb_spec n 226); [lia|].
  destruct r as [|d [|e r2]]; reflexivity.
Qed.

Lemma url_rest_pattern_printable (r : string) :
  all_chars printable r = true ->
  url_rest_pattern r =
  match r with
  | String c (String _ _) => negb (url_punctuation c)
  | _ => false
  end.
Proof.
  destruct r as [|c r]; [reflexivity|].
  intros H. change (all_chars printable (String c r))
    with (printable c && all_chars printable r) in H.
  apply andb_prop in H as [Hc Hr].
  unfold url_rest_pattern.
  rewrite printable_strip_space by exact Hc.
  rewrite printable_one_byte by exact Hc.
  destruct (url_punctuation c); [now destruct r|].
  cbn [Nat.eqb drop_bytes negb].
  destruct r as [|d r]; [reflexivity|].
  change (all_chars printable (String d r))
    with (printable d && all_chars printable r) in Hr.
  apply andb_prop in Hr as [Hd Hr].
  rewrite printable_no_terminator by exact Hd.
  rewrite printable_one_byte by exact Hd.
  cbn [drop_bytes]. now apply printable_no_space.
Qed.

(** X5.  The pattern of [validateImageUrl] on printable ASCII text: after
    [http://] or [https://] it wants at least two characters, the first of
    them none of [$], [.], [?] and [#]; a host of a single character is
    refused.  And whatever the text, a URL the pattern accepts starts with
    one of the two schemes. *)
Theorem url_pattern_printable (r : string) :
  all_chars printable r = true ->
  let wanted :=
    match r with
    | String c (String _ _) => negb (url_punctuation c)
    | _ => false
    end in
  url_pattern ("http://" ++ r) = wanted /\
  url_pattern ("https://" ++ r) = wanted /\
  (forall url, url_pattern url = true ->
               startsWith "http://" url = true \/ startsWith "https://" url = true).
Proof.
  intros H wanted. repeat split.
  - unfold url_pattern. simpl. now apply url_rest_pattern_printable.
  - unfold url_pattern. simpl. now apply url_rest_pattern_printable.
  - intros url. unfold url_pattern, startsWith.
    destruct (strip_prefix "https://" url); [auto|].
    destruct (strip_prefix "http://" url); [auto|discriminate].
Qed.

Lemma url_pattern_printable_witness :
  url_pattern "http://ab" = true /\
  url_pattern "https://ab" = true /\
  (forall url, url_pattern url = true ->
               startsWith "http://" url = true \/ startsWith "https://" url = true).
Proof.
  apply (url_pattern_printable "ab"). reflexivity.
Defined.

(** X6.  [validateImageUrl] never throws and answers [true] exactly when
    the pattern matches, the HEAD request is answered with an [ok] status,
    and the [Content-Type] of the answer starts with [image/].  It refuses
    without a word when the request is answered with another status or
    another type; the alert comes only for a text the pattern refuses (and
    then no request is looked at), for a request that fails, and for an
    [ok] answer without the header. *)
Theorem validateImageUrl_spec (fetch : string -> FetchResult) (url : string) (w : World) :
  let answered :=
    match fetch url with
    | Response true (Some contentType) => startsWith "image/" contentType
    | _ => false
    end in
  let w' := snd (Part000Panel.validateImageUrl fetch url w) in
  fst (Part000Panel.validateImageUrl fetch url w) = Normal (url_pattern url && answered) /\
  (url_pattern url = false ->
   w' = set_log (log w ++ [alert "Please enter a valid HTTP/HTTPS URL"])%list w) /\
  (url_pattern url = true ->
   match fetch url with
   | Rejected e =>
       w' = set_log (log w ++ [console_error "Error validating image URL:" e;
                               alert "Invalid or unreachable image URL"])%list w
   | Response true None =>
       w' = set_log (log w ++ [console_error "Error validating image URL:" TypeError;
                               alert "Invalid or unreachable image URL"])%list w
   | _ => w' = w
   end).
Proof.
  unfold Part000Panel.validateImageUrl.
  destruct (url_pattern url); cbn [negb andb].
  - unfold try_catch, bind, ret, throw, emit.
    destruct (fetch url) as [e|[] [t|]]; cbn [fst snd];
      repeat split; try discriminate; intros _;
      try (now destruct w);
      unfold set_log; cbn [log]; now rewrite <- app_assoc.
  - repeat split; discriminate.
Qed.

Lemma set_log_same (w : World) : set_log (log w) w = w.
Proof. now destruct w. Qed.

(** ** The form of the panel *)

(** X7.  The change listener of the file input never throws and touches
    nothing but the console and the alerts.  Afterwards the input holds a
    file only if that file is the one just picked, passed
    [validateImageFile] and could be read, and then the preview shows its
    data URL; an input without a file has no preview.  The other inputs of
    the form keep their values. *)
Theorem onEmojiFileChange_keeps_valid_files
        (file : option File) (m : Manager) (w : World) :
  exists m' lg,
    Part000Panel.onEmojiFileChange file m w = (Normal m', set_log lg w) /\
    match emojiFile m' with
    | Some f =>
        file = Some f /\
        N.leb (file_size f) Part000Panel.maxSize = true /\
        includes Part000Panel.allowedTypes (file_type f) = true /\
        exists dataURL, file_dataURL f = Normal dataURL /\ imagePreview m' = Some dataURL
    | None => imagePreview m' = None
    end /\
    (emojiId m', emojiName m', emojiKeywords m', emojiUrl m', imageSource m', shown m')
    = (emojiId m, emojiName m, emojiKeywords m, emojiUrl m, imageSource m, shown m).
Proof.
  destruct file as [f|].
  - unfold Part000Panel.onEmojiFileChange, Part000Panel.validateImageFile, bind.
    rewrite N.ltb_antisym.
    destruct (N.leb (file_size f) Part000Panel.maxSize) eqn:Hsize; cbn [negb].
    + destruct (includes Part000Panel.allowedTypes (file_type f)) eqn:Htype; cbn [negb].
      * unfold ret at 1. cbn [negb].
        unfold try_catch, bind, Part000Panel.fileToDataURL, lift.
        destruct (file_dataURL f) as [u|e] eqn:Hread.
        -- exists (Part000Panel.set_file (Some f) (Some u) m), (log w).
           rewrite set_log_same. split; [reflexivity|]. split; [|reflexivity].
           cbn. repeat split; try assumption. now exists u.
        -- eexists _, _.
           split; [unfold emit, ret, set_log; cbn; reflexivity|].
           split; reflexivity.
      * eexists _, _.
        split; [unfold emit, ret, set_log; cbn; reflexivity|].
        split; reflexivity.
    + eexists _, _.
      split; [unfold emit, ret, set_log; cbn; reflexivity|].
      split; reflexivity.
  - exists (Part000Panel.set_file None None m), (log w).
    rewrite set_log_same. repeat split.
Qed.

Lemma id_pattern_nonempty (id : string) : id_pattern id = true -> id <> "".
Proof. intros H ->. discriminate H. Qed.

Lemma url_pattern_nonempty (url : string) : url_pattern url = true -> url <> "".
Proof. intros H ->. discriminate H. Qed.

(** X8.  The add button of part_000 stores nothing unless the trimmed id
    is made of ASCII letters, digits, [_] and [-] and the trimmed name is
    not empty: otherwise the click costs one alert, the form keeps its
    values, and neither the storage nor the picker is touched. *)
Theorem onAddEmojiClick_checks_id_and_name
        (data : EmojiData) (fetch : string -> FetchResult) (m : Manager) (w : World) :
  id_pattern (trim (emojiId m)) = false \/ trim (emojiName m) = "" ->
  exists message,
    Part000Panel.onAddEmojiClick data fetch m w =
    (Normal m, set_log (log w ++ [alert message])%list w).
Proof.
  intros H. unfold Part000Panel.onAddEmojiClick.
  destruct (String.eqb_spec (trim (emojiId m)) "") as [Hid|Hid].
  - eexists. reflexivity.
  - destruct (String.eqb_spec (trim (emojiName m)) "") as [Hname|Hname].
    + eexists. reflexivity.
    + destruct H as [H|H]; [|contradiction].
      rewrite H. eexists. reflexivity.
Qed.

Lemma onAddEmojiClick_checks_id_and_name_witness :
  exists message,
    Part000Panel.onAddEmojiClick sample_data fetch_image
      (form "thumbs up" "Thumbs" "" "https://x/t.png") (empty_page 1000) =
    (Normal (form "thumbs up" "Thumbs" "" "https://x/t.png"),
     set_log (log (empty_page 1000) ++ [alert message])%list (empty_page 1000)).
Proof.
  apply (onAddEmojiClick_checks_id_and_name sample_data fetch_image
           (form "thumbs up" "Thumbs" "" "https://x/t.png") (empty_page 1000)).
  left. reflexivity.
Defined.

(** X9.  With the URL source checked, an address that matches the pattern
    but is answered with a status that is not [ok], or with a
    [Content-Type] that does not start with [image/], makes the add button
    do nothing at all: no alert, no console message, the form and the
    storage as they were. *)
Theorem onAddEmojiClick_silent_on_refused_url
        (data : EmojiData) (fetch : string -> FetchResult) (m : Manager) (w : World) :
  id_pattern (trim (emojiId m)) = true ->
  trim (emojiName m) <> "" ->
  imageSource m = Url ->
  url_pattern (trim (emojiUrl m)) = true ->
  (exists contentType, fetch (trim (emojiUrl m)) = Response false contentType) \/
  (exists contentType, fetch (trim (emojiUrl m)) = Response true (Some contentType) /\
                       startsWith "image/" contentType = false) ->
  Part000Panel.onAddEmojiClick data fetch m w = (Normal m, w).
Proof.
  intros Hid Hname Hsrc Hurl Hfetch.
  unfold Part000Panel.onAddEmojiClick.
  destruct (String.eqb_spec (trim (emojiId m)) "") as [E|_];
    [now apply id_pattern_nonempty in Hid|].
  destruct (String.eqb_spec (trim (emojiName m)) "") as [E|_]; [contradiction|].
  rewrite Hid. cbn [orb negb].
  unfold Part000Panel.image_url. rewrite Hsrc.
  destruct (String.eqb_spec (trim (emojiUrl m)) "") as [E|_];
    [now apply url_pattern_nonempty in Hurl|].
  unfold bind at 1. unfold bind at 1.
  unfold Part000Panel.validateImageUrl. rewrite Hurl. cbn [negb].
  unfold try_catch.
  destruct Hfetch as [(ct & ->)|(ct & -> & Hct)].
  - reflexivity.
  - unfold ret at 1. rewrite Hct. reflexivity.
Qed.

Lemma onAddEmojiClick_silent_on_refused_url_witness :
  Part000Panel.onAddEmojiClick sample_data fetch_page
    (form "wave" "Wave" "" "https://x/wave.html") (empty_page 1000)
  = (Normal (form "wave" "Wave" "" "https://x/wave.html"), empty_page 1000).
Proof.
  apply (onAddEmojiClick_silent_on_refused_url sample_data fetch_page
           (form "wave" "Wave" "" "https://x/wave.html") (empty_page 1000)).
  - reflexivity.
  - discriminate.
  - reflexivity.
  - reflexivity.
  - right. exists "text/html". split; reflexivity.
Defined.

(** ** The exported text

    [JSON.parse] reads what [JSON.stringify(v, null, 2)] prints, and the
    percent-decoding of a data URL undoes [encodeURIComponent]. *)

Lemma skip_ws_idem (s : string) : skip_ws (skip_ws s) = skip_ws s.
Proof.
  induction s as [|c s IH]; [reflexivity|].
  simpl. destruct (is_ws c) eqn:E; [exact IH|]. simpl. now rewrite E.
Qed.

Lemma parse_value_skip_ws (fuel : nat) (s : string) :
  parse_value fuel (skip_ws s) = parse_value fuel s.
Proof.
  destruct fuel as [|fuel]; [reflexivity|].
  now rewrite !parse_value_step, skip_ws_idem.
Qed.

Lemma skip_ws_indentation (depth : nat) (t : string) :
  skip_ws (indentation depth ++ t) = skip_ws t.
Proof. induction depth as [|d IH]; [reflexivity|]. simpl. exact IH. Qed.

Lemma skip_ws_break (depth : nat) (t : string) :
  skip_ws (newline ++ indentation depth ++ t) = skip_ws t.
Proof. unfold newline. simpl. apply skip_ws_indentation. Qed.

Lemma parse_value_break (fuel depth : nat) (t : string) :
  parse_value fuel (newline ++ indentation depth ++ t) = parse_value fuel t.
Proof.
  rewrite <- parse_value_skip_ws, skip_ws_break. apply parse_value_skip_ws.
Qed.

Lemma parse_value_space (fuel : nat) (t : string) :
  parse_value fuel (String " " t) = parse_value fuel t.
Proof.
  rewrite <- parse_value_skip_ws.
  change (skip_ws (String " " t)) with (skip_ws t). apply parse_value_skip_ws.
Qed.

Lemma span_num_break (t : string) : span_num (newline ++ t) = ("", newline ++ t).
Proof. reflexivity. Qed.

Lemma join_lines_cons (depth : nat) (p q : string) (rest : list string) :
  join_lines depth (p :: q :: rest)
  = p ++ "," ++ newline ++ indentation depth ++ join_lines depth (q :: rest).
Proof. reflexivity. Qed.

Lemma stringify_indented_array (depth : nat) (e : JSON) (elems : list JSON) :
  stringify_indented depth (JArr (e :: elems))
  = String "[" (newline ++ indentation (S depth)
      ++ join_lines (S depth) (map (stringify_indented (S depth)) (e :: elems))
      ++ newline ++ indentation depth ++ "]").
Proof. reflexivity. Qed.

Lemma stringify_indented_object (depth : nat) (kv : string * JSON)
      (props : list (string * JSON)) :
  stringify_indented depth (JObj (kv :: props))
  = String "{" (newline ++ indentation (S depth)
      ++ join_lines (S depth)
           (map (fun kv => quote (fst kv) ++ ": " ++ stringify_indented (S depth) (snd kv))
                (kv :: props))
      ++ newline ++ indentation depth ++ "}").
Proof. reflexivity. Qed.

Lemma stringify_indented_head (depth : nat) (v : JSON) :
  exists c t, stringify_indented depth v = String c t /\
    is_ws c = false /\ Ascii.eqb c "]" = false /\ Ascii.eqb c "}" = false.
Proof.
  destruct v as [| | | |[|e l]|[|kv ps]];
    try apply (stringify_head JNull);
    try apply (stringify_head (JBool b));
    try apply (stringify_head (JNum n));
    try apply (stringify_head (JStr s)).
  - exists "["%char, "]". repeat split.
  - rewrite stringify_indented_array. eexists _, _. repeat split.
  - exists "{"%char, "}". repeat split.
  - rewrite stringify_indented_object. eexists _, _. repeat split.
Qed.

Lemma join_lines_head (depth : nat) (p : string) (ps : list string) (c : ascii) (t : string) :
  p = String c t -> exists t', join_lines depth (p :: ps) = String c t'.
Proof.
  intros ->. destruct ps as [|q ps]; [eauto|].
  rewrite join_lines_cons. simpl. eauto.
Qed.

Lemma parse_elements_indented (depth : nat) (elems : list JSON) :
  Forall (fun v => distinct_keys v = true ->
            forall d fuel rest, size v <= fuel -> span_num rest = ("", rest) ->
            parse_value fuel (stringify_indented d v ++ rest) = Some (v, rest)) elems ->
  elems <> [] ->
  forallb distinct_keys elems = true ->
  forall fuel rest,
    list_sum (map (fun e => S (size e)) elems) <= fuel ->
    parse_elements fuel
      (newline ++ indentation (S depth)
         ++ join_lines (S depth) (map (stringify_indented (S depth)) elems)
         ++ newline ++ indentation depth ++ String "]" rest)
    = Some (elems, rest).
Proof.
  induction 1 as [|e l He Hl IH]; [congruence|].
  intros _ Hwf fuel rest Hfuel.
  simpl in Hwf. apply andb_prop in Hwf as [Hwe Hwl].
  destruct fuel as [|fuel]; [simpl in Hfuel; lia|].
  rewrite parse_elements_step, parse_value_break.
  destruct l as [|e2 l].
  - change (join_lines (S depth) (map (stringify_indented (S depth)) [e]))
      with (stringify_indented (S depth) e).
    rewrite He; [|exact Hwe|simpl in Hfuel; lia|apply span_num_break].
    rewrite skip_ws_break.
    change (skip_ws (String "]" rest)) with (String "]" rest).
    reflexivity.
  - rewrite !map_cons, join_lines_cons, !append_assoc.
    change ("," ++ newline ++ indentation (S depth)
              ++ join_lines (S depth)
                   (stringify_indented (S depth) e2 :: map (stringify_indented (S depth)) l)
              ++ newline ++ indentation depth ++ String "]" rest)
      with (String "," (newline ++ indentation (S depth)
              ++ join_lines (S depth) (map (stringify_indented (S depth)) (e2 :: l))
              ++ newline ++ indentation depth ++ String "]" rest)).
    rewrite He; [|exact Hwe|simpl in Hfuel; lia|reflexivity].
    rewrite skip_ws_punct by auto.
    change (Ascii.eqb "," ",") with true. cbv iota.
    rewrite IH; [reflexivity|congruence|exact Hwl|simpl in *; lia].
Qed.

Lemma parse_members_indented (depth : nat) (props : list (string * JSON)) :
  Forall (fun kv => distinct_keys (snd kv) = true ->
            forall d fuel rest, size (snd kv) <= fuel -> span_num rest = ("", rest) ->
            parse_value fuel (stringify_indented d (snd kv) ++ rest) = Some (snd kv, rest))
         props ->
  props <> [] ->
  forallb (fun kv => distinct_keys (snd kv)) props = true ->
  forall fuel rest,
    list_sum (map (fun kv => S (size (snd kv))) props) <= fuel ->
    parse_members fuel
      (newline ++ indentation (S depth)
         ++ join_lines (S depth)
              (map (fun kv => quote (fst kv) ++ ": " ++ stringify_indented (S depth) (snd kv))
                   props)
         ++ newline ++ indentation depth ++ String "}" rest)
    = Some (props, rest).
Proof.
  induction 1 as [|[k v] l He Hl IH]; [congruence|].
  intros _ Hwf fuel rest Hfuel.
  simpl in Hwf. apply andb_prop in Hwf as [Hwe Hwl].
  destruct fuel as [|fuel]; [simpl in Hfuel; lia|].
  rewrite parse_members_step, skip_ws_break.
  simpl in He.
  set (f := fun kv : string * JSON =>
              quote (fst kv) ++ ": " ++ stringify_indented (S depth) (snd kv)) in *.
  destruct l as [|kv2 l].
  - change (join_lines (S depth) (map f [(k, v)]))
      with (quote k ++ ": " ++ stringify_indented (S depth) v).
    rewrite !append_assoc, quote_append, skip_ws_dquote.
    change (Ascii.eqb dquote dquote) with true. cbv iota.
    rewrite parse_chars_escape.
    match goal with
    | |- context [skip_ws (String.append ": " ?t)] =>
        change (skip_ws (String.append ": " t)) with (String ":" (String " " t))
    end.
    cbv iota beta. change (Ascii.eqb ":" ":") with true. cbv iota.
    rewrite parse_value_space.
    rewrite He; [|exact Hwe|simpl in Hfuel; lia|apply span_num_break].
    rewrite skip_ws_break.
    change (skip_ws (String "}" rest)) with (String "}" rest).
    reflexivity.
  - change (join_lines (S depth) (map f ((k, v) :: kv2 :: l)))
      with ((quote k ++ ": " ++ stringify_indented (S depth) v)
              ++ "," ++ newline ++ indentation (S depth)
              ++ join_lines (S depth) (map f (kv2 :: l))).
    rewrite !append_assoc, quote_append, skip_ws_dquote.
    change (Ascii.eqb dquote dquote) with true. cbv iota.
    rewrite parse_chars_escape.
    match goal with
    | |- context [skip_ws (String.append ": " ?t)] =>
        change (skip_ws (String.append ": " t)) with (String ":" (String " " t))
    end.
    cbv iota beta. change (Ascii.eqb ":" ":") with true. cbv iota.
    rewrite parse_value_space.
    match goal with
    | |- context [String.append "," ?t] =>
        change (String.append "," t) with (String "," t)
    end.
    rewrite He; [|exact Hwe|simpl in Hfuel; lia|reflexivity].
    rewrite skip_ws_punct by auto.
    change (Ascii.eqb "," ",") with true. cbv iota.
    rewrite IH; [reflexivity|congruence|exact Hwl|simpl in *; lia].
Qed.

Lemma parse_value_stringify_indented (v : JSON) :
  distinct_keys v = true ->
  forall depth fuel rest,
    size v <= fuel -> span_num rest = ("", rest) ->
    parse_value fuel (stringify_indented depth v ++ rest) = Some (v, rest).
Proof.
  induction v as [|b|n|s|elems IH|props IH] using JSON_nested_ind;
    intros Hwf depth fuel rest Hfuel Hrest.
  - now apply (parse_value_stringify JNull).
  - now apply (parse_value_stringify (JBool b)).
  - now apply (parse_value_stringify (JNum n)).
  - now apply (parse_value_stringify (JStr s)).
  - destruct elems as [|e elems]; [now apply (parse_value_stringify (JArr []))|].
    destruct fuel as [|fuel]; [simpl in Hfuel; lia|].
    rewrite stringify_indented_array.
    change (String "[" ?x ++ rest) with (String "[" (x ++ rest)).
    rewrite !append_assoc.
    change ("]" ++ rest) with (String "]" rest).
    rewrite parse_value_step_array, skip_ws_break.
    destruct (stringify_indented_head (S depth) e) as (c & t & E & Hws & Hb & _).
    destruct (join_lines_head (S depth) _ (map (stringify_indented (S depth)) elems) c t E)
      as (t' & E').
    assert (Hs : exists r',
               skip_ws (join_lines (S depth) (map (stringify_indented (S depth)) (e :: elems))
                          ++ newline ++ indentation depth ++ String "]" rest) = String c r').
    { rewrite map_cons, E'. simpl String.append.
      rewrite skip_ws_head by exact Hws. eauto. }
    destruct Hs as (r' & ->). cbv iota beta. rewrite Hb.
    rewrite (parse_elements_indented depth (e :: elems) IH);
      [reflexivity|congruence|exact Hwf|simpl in Hfuel; simpl; lia].
  - simpl in Hwf. apply andb_prop in Hwf as [Hnd Hwf].
    destruct props as [|[k v] props]; [now apply (parse_value_stringify (JObj []))|].
    destruct fuel as [|fuel]; [simpl in Hfuel; lia|].
    rewrite stringify_indented_object.
    change (String "{" ?x ++ rest) with (String "{" (x ++ rest)).
    rewrite !append_assoc.
    change ("}" ++ rest) with (String "}" rest).
    rewrite parse_value_step_object, skip_ws_break.
    set (f := fun kv : string * JSON =>
                quote (fst kv) ++ ": " ++ stringify_indented (S depth) (snd kv)) in *.
    assert (Hs : exists r',
               skip_ws (join_lines (S depth) (map f ((k, v) :: props))
                          ++ newline ++ indentation depth ++ String "}" rest)
               = String dquote r').
    { destruct (join_lines_head (S depth) (f (k, v)) (map f props) dquote
                  (escape k ++ String dquote (": " ++ stringify_indented (S depth) v)))
        as (t' & E').
      { unfold f, quote. simpl. now rewrite append_assoc. }
      rewrite map_cons, E'. simpl String.append. rewrite skip_ws_dquote. eauto. }
    destruct Hs as (r' & ->). cbv iota beta.
    change (Ascii.eqb dquote "}") with false. cbv iota.
    rewrite (parse_members_indented depth ((k, v) :: props) IH);
      [|congruence|exact Hwf|simpl in Hfuel; simpl; lia].
    now rewrite (object_of_members_no_dup _ Hnd).
Qed.

Lemma join_lines_length (depth : nat) (ps : list string) :
  ps <> [] ->
  list_sum (map (fun p => S (String.length p)) ps) <= S (String.length (join_lines depth ps)).
Proof.
  induction ps as [|p ps IH]; [congruence|]. intros _.
  destruct ps as [|q ps].
  - simpl. lia.
  - rewrite join_lines_cons. rewrite !append_length.
    specialize (IH ltac:(congruence)).
    set (J := join_lines depth (q :: ps)) in *.
    set (a := list_sum (map (fun p => S (String.length p)) (q :: ps))) in *.
    change (list_sum (map (fun p => S (String.length p)) (p :: q :: ps)))
      with (S (String.length p) + a).
    change (String.length ",") with 1. lia.
Qed.

Lemma size_le_length_indented (v : JSON) :
  forall depth, size v <= String.length (stringify_indented depth v).
Proof.
  induction v as [|b|n|s|elems IH|props IH] using JSON_nested_ind; intros depth.
  - apply (size_le_length JNull).
  - apply (size_le_length (JBool b)).
  - apply (size_le_length (JNum n)).
  - apply (size_le_length (JStr s)).
  - destruct elems as [|e elems]; [simpl; lia|].
    rewrite stringify_indented_array.
    change (String.length (String "[" ?x)) with (S (String.length x)).
    rewrite !append_length.
    pose proof (join_lines_length (S depth)
                  (map (stringify_indented (S depth)) (e :: elems))) as H.
    specialize (H ltac:(discriminate)). rewrite map_map in H.
    change (size (JArr (e :: elems)))
      with (S (list_sum (map (fun x => S (size x)) (e :: elems)))).
    pose proof (list_sum_le (fun x => S (size x))
                  (fun x => S (String.length (stringify_indented (S depth) x)))
                  (e :: elems)) as Hle.
    assert (Hall : Forall (fun x => S (size x)
                                    <= S (String.length (stringify_indented (S depth) x)))
                          (e :: elems)).
    { eapply Forall_impl; [exact IH|]. simpl. intros x Hx. specialize (Hx (S depth)). lia. }
    specialize (Hle Hall).
    set (J := join_lines (S depth) (map (stringify_indented (S depth)) (e :: elems))) in *.
    set (a := list_sum (map (fun x => S (size x)) (e :: elems))) in *.
    set (b := list_sum (map (fun x => S (String.length (stringify_indented (S depth) x)))
                            (e :: elems))) in *.
    change (String.length "]") with 1. lia.
  - destruct props as [|kv props]; [simpl; lia|].
    rewrite stringify_indented_object.
    change (String.length (String "{" ?x)) with (S (String.length x)).
    rewrite !append_length.
    set (f := fun kv : string * JSON =>
                quote (fst kv) ++ ": " ++ stringify_indented (S depth) (snd kv)).
    pose proof (join_lines_length (S depth) (map f (kv :: props))) as H.
    specialize (H ltac:(discriminate)). rewrite map_map in H.
    change (size (JObj (kv :: props)))
      with (S (list_sum (map (fun x => S (size (snd x))) (kv :: props)))).
    pose proof (list_sum_le (fun x => S (size (snd x)))
                  (fun x => S (String.length (f x))) (kv :: props)) as Hle.
    assert (Hall : Forall (fun x => S (size (snd x)) <= S (String.length (f x))) (kv :: props)).
    { eapply Forall_impl; [exact IH|]. intros x Hx. unfold f. cbv beta in Hx.
      specialize (Hx (S depth)). rewrite !append_length. lia. }
    specialize (Hle Hall).
    set (J := join_lines (S depth) (map f (kv :: props))) in *.
    set (a := list_sum (map (fun x => S (size (snd x))) (kv :: props))) in *.
    set (b := list_sum (map (fun x => S (String.length (f x))) (kv :: props))) in *.
    change (String.length "}") with 1. lia.
Qed.

(** [JSON.parse(JSON.stringify(v, null, 2))] is [v]. *)
Lemma JSON_parse_stringify_2 (v : JSON) :
  distinct_keys v = true -> JSON_parse (JSON_stringify_2 v) = Normal v.
Proof.
  intros Hwf. unfold JSON_parse, JSON_stringify_2.
  rewrite <- (append_empty_r (stringify_indented 0 v)) at 2.
  rewrite parse_value_stringify_indented; auto.
  pose proof (size_le_length_indented v 0). lia.
Qed.

Lemma unreserved_not_percent (c : ascii) :
  uri_unreserved c = true -> Ascii.eqb c "%" = false.
Proof.
  destruct (Ascii.eqb_spec c "%") as [->|]; [discriminate|reflexivity].
Qed.

Lemma percent_decode_escape (c : ascii) (t : string) :
  percent_decode
    (String "%" (String (HEX_digit (nat_of_ascii c / 16))
                   (String (HEX_digit (nat_of_ascii c mod 16)) t)))
  = String c (percent_decode t).
Proof.
  destruct c as [[] [] [] [] [] [] [] []]; reflexivity.
Qed.

(** Decoding the body of a data URL undoes [encodeURIComponent]. *)
Lemma percent_decode_encodeURIComponent (s : string) :
  percent_decode (encodeURIComponent s) = s.
Proof.
  induction s as [|c s IH]; [reflexivity|].
  cbn [encodeURIComponent].
  destruct (uri_unreserved c) eqn:E.
  - cbn [percent_decode]. rewrite (unreserved_not_percent c E). now rewrite IH.
  - rewrite percent_decode_escape. now rewrite IH.
Qed.

(** ** Export and import *)

Lemma export_spec (now : string) (w : World) (l : list JSON) :
  collection w = JArr l ->
  l <> [] ->
  exists lg,
    Part000Panel.exportCustomEmojis now w =
    (Normal (Some {| href := "data:application/json;charset=utf-8,"
                             ++ encodeURIComponent (JSON_stringify_2 (JArr l));
                     download := "custom_emojis_" ++ hd "" (split_on "T" now) ++ ".json" |}),
     set_log lg w).
Proof.
  intros Hc Hne. unfold Part000Panel.exportCustomEmojis. unfold bind at 1.
  destruct (Part000_load_collection w) as (lg & ->). rewrite Hc.
  unfold bind, lift. cbn [length_is_zero].
  destruct l as [|r l]; [congruence|]. cbn [length Nat.eqb].
  exists lg. reflexivity.
Qed.

(** X10.  [exportCustomEmojis] stores nothing and never throws on a stored
    array.  For an empty collection it only alerts and no file is offered.
    Otherwise it offers a file named [custom_emojis_] plus the date part of
    the time stamp plus [.json], and the text of that file, read by
    [JSON.parse], is the stored collection. *)
Theorem exportCustomEmojis_round_trip (now : string) (w : World) (l : list JSON) :
  collection w = JArr l ->
  (l = [] ->
   exists lg,
     Part000Panel.exportCustomEmojis now w =
     (Normal None, set_log (lg ++ [alert "No custom emojis to export."])%list w)) /\
  (l <> [] ->
   exists d text lg,
     Part000Panel.exportCustomEmojis now w = (Normal (Some d), set_log lg w) /\
     download d = "custom_emojis_" ++ hd "" (split_on "T" now) ++ ".json" /\
     Part000Panel.saved_text d = Some text /\
     JSON_parse text = Normal (JArr l)).
Proof.
  intros Hc. split.
  - intros ->. unfold Part000Panel.exportCustomEmojis. unfold bind at 1.
    destruct (Part000_load_collection w) as (lg & ->). rewrite Hc.
    exists lg. reflexivity.
  - intros Hne. destruct (export_spec now w l Hc Hne) as (lg & ->).
    eexists _, _, lg. split; [reflexivity|]. split; [reflexivity|].
    unfold Part000Panel.saved_text. cbn [href].
    rewrite strip_prefix_append, percent_decode_encodeURIComponent.
    split; [reflexivity|].
    apply JSON_parse_stringify_2. rewrite <- Hc. apply collection_distinct_keys.
Qed.

Lemma exportCustomEmojis_round_trip_witness :
  (([wave; smile] : list JSON) = [] ->
   exists lg,
     Part000Panel.exportCustomEmojis "2024-05-01T10:20:30.000Z" (page_with [wave; smile] 1000) =
     (Normal None,
      set_log (lg ++ [alert "No custom emojis to export."])%list
        (page_with [wave; smile] 1000))) /\
  (([wave; smile] : list JSON) <> [] ->
   exists d text lg,
     Part000Panel.exportCustomEmojis "2024-05-01T10:20:30.000Z" (page_with [wave; smile] 1000)
       = (Normal (Some d), set_log lg (page_with [wave; smile] 1000)) /\
     download d = "custom_emojis_" ++ hd "" (split_on "T" "2024-05-01T10:20:30.000Z") ++ ".json" /\
     Part000Panel.saved_text d = Some text /\
     JSON_parse text = Normal (JArr [wave; smile])).
Proof.
  apply (exportCustomEmojis_round_trip "2024-05-01T10:20:30.000Z"
           (page_with [wave; smile] 1000) [wave; smile]).
  apply collection_written. reflexivity.
Defined.

Lemma strict_eq_sym (a b : option JSON) : strict_eq a b = strict_eq b a.
Proof.
  destruct a as [[| | | | |]|], b as [[| | | | |]|]; simpl; try reflexivity.
  - now destruct b, b0.
  - apply Z.eqb_sym.
  - apply String.eqb_sym.
Qed.

Lemma distinct_ids_lookup (l : list JSON) (i j : nat) (a b : JSON) :
  distinct_ids l = true ->
  l !! i = Some a -> l !! j = Some b -> i < j ->
  strict_eq (prop_of "id" a) (prop_of "id" b) = false.
Proof.
  revert i j. induction l as [|r l IH]; intros i j Hd Hi Hj Hlt; [discriminate|].
  simpl in Hd. apply andb_prop in Hd as [Hr Hd].
  destruct j as [|j]; [lia|]. simpl in Hj.
  destruct i as [|i].
  - simpl in Hi. injection Hi as ->.
    apply negb_true_iff in Hr.
    apply not_true_is_false. intros E.
    assert (existsb (fun e => strict_eq (prop_of "id" a) (prop_of "id" e)) l = true) as Hex.
    { apply existsb_exists. exists b. split; [|exact E].
      apply list_elem_of_In. eapply list_elem_of_lookup_2. exact Hj. }
    congruence.
  - simpl in Hi. apply (IH i j); auto. lia.
Qed.

Lemma string_id_refl (r : JSON) :
  match prop_of "id" r with Some (JStr _) => true | _ => false end = true ->
  strict_eq (prop_of "id" r) (prop_of "id" r) = true.
Proof.
  destruct (prop_of "id" r) as [[| | |s| |]|]; try discriminate.
  intros _. apply String.eqb_refl.
Qed.

Lemma first_index_self (l : list JSON) (j : nat) (r : JSON) :
  distinct_ids l = true ->
  string_ids l = true ->
  l !! j = Some r ->
  first_index (prop_of "id" r) l = Some j.
Proof.
  intros Hd Hs Hj. apply first_index_lookup. split.
  - exists r. split; [exact Hj|]. apply string_id_refl.
    unfold string_ids in Hs. rewrite forallb_forall in Hs. apply Hs.
    apply list_elem_of_In. eapply list_elem_of_lookup_2. exact Hj.
  - intros k r' Hk Hr'. now apply (distinct_ids_lookup l k j).
Qed.

(** Records that are in the collection, each at the first place of its id,
    are merged into it without a change. *)
Lemma merge_present (imported cur : list JSON) (c : nat) :
  forallb is_record cur = true ->
  forallb is_record imported = true ->
  (forall r, r ∈ imported ->
             exists i, first_index (prop_of "id" r) cur = Some i /\ cur !! i = Some r) ->
  Part000.merge imported cur c = Normal (cur, c).
Proof.
  intros Hcur. induction imported as [|r rest IH]; intros Hrec Hin; [reflexivity|].
  simpl in Hrec. apply andb_prop in Hrec as [Hr Hrest].
  cbn [Part000.merge]. rewrite merge_findIndex by assumption.
  destruct (Hin r) as (i & -> & Hi); [constructor|].
  cbn [cbind]. rewrite list_insert_id by exact Hi.
  apply IH; [exact Hrest|]. intros r' Hr'. apply Hin. now constructor.
Qed.

(** Records of ids that are new to the collection and differ from each
    other are appended in their order. *)
Lemma merge_absent (imported : list JSON) :
  forall cur c,
    forallb is_record cur = true ->
    forallb is_record imported = true ->
    distinct_ids imported = true ->
    (forall e r, e ∈ cur -> r ∈ imported ->
                 strict_eq (prop_of "id" e) (prop_of "id" r) = false) ->
    Part000.merge imported cur c = Normal ((cur ++ imported)%list, c + length imported).
Proof.
  induction imported as [|r rest IH]; intros cur c Hcur Hrec Hd Hnew.
  - simpl. now rewrite app_nil_r, Nat.add_0_r.
  - simpl in Hrec. apply andb_prop in Hrec as [Hr Hrest].
    simpl in Hd. apply andb_prop in Hd as [Hfresh Hd].
    cbn [Part000.merge]. rewrite merge_findIndex by assumption.
    assert (first_index (prop_of "id" r) cur = None) as ->.
    { apply first_index_None. intros e He. apply Hnew; [exact He|constructor]. }
    cbn [cbind]. rewrite IH.
    + rewrite <- app_assoc. simpl. f_equal. f_equal. lia.
    + rewrite forallb_app, Hcur. simpl. now rewrite Hr.
    + exact Hrest.
    + exact Hd.
    + intros e r' He Hr'. apply elem_of_app in He as [He|He].
      * apply Hnew; [exact He|now constructor].
      * apply list_elem_of_singleton in He as ->.
        apply negb_true_iff in Hfresh.
        apply not_true_is_false. intros E.
        assert (existsb (fun e => strict_eq (prop_of "id" r) (prop_of "id" e)) rest = true)
          as Hex.
        { apply existsb_exists. exists r'. split; [now apply list_elem_of_In|exact E]. }
        congruence.
Qed.

Lemma collection_set_pickerClassList (c : list string) (w : World) :
  collection (set_pickerClassList c w) = collection w.
Proof. reflexivity. Qed.

Lemma import_of_export (data : EmojiData) (w0 : World) (l l0 : list JSON) :
  forallb valid_record l = true ->
  forallb distinct_keys l = true ->
  collection w0 = JArr l0 ->
  forallb is_record l0 = true ->
  exists merged n lg,
    Part000.merge l l0 0 = Normal (merged, n) /\
    forallb distinct_keys merged = true /\
    Part000.importCustomEmojis data (JSON_stringify_2 (JArr l)) w0 =
    (Normal true,
     set_pickerClassList (classList_add displayNone (pickerClassList w0))
       (set_log (lg ++ [alert_imported n (length l - n)])%list
          (if write_ok w0 merged then written w0 merged else w0))).
Proof.
  intros Hvalid Hwf Hc Hrec.
  apply (importCustomEmojis_valid data _ w0 l l0); auto.
  now apply JSON_parse_stringify_2.
Qed.

(** X11.  Export, then import the exported file into the same store: when
    the records are valid for the import and their ids are strings, no two
    alike, the import succeeds, reports no new and as many updated emojis as
    there are records, and the collection is what it was. *)
Theorem export_then_import_changes_nothing
        (data : EmojiData) (now : string) (w : World) (l : list JSON) :
  collection w = JArr l ->
  l <> [] ->
  forallb valid_record l = true ->
  distinct_ids l = true ->
  string_ids l = true ->
  exists d text,
    fst (Part000Panel.exportCustomEmojis now w) = Normal (Some d) /\
    Part000Panel.saved_text d = Some text /\
    let w1 := snd (Part000Panel.exportCustomEmojis now w) in
    fst (Part000.importCustomEmojis data text w1) = Normal true /\
    last (log (snd (Part000.importCustomEmojis data text w1)))
      = Some (alert_imported 0 (length l)) /\
    collection (snd (Part000.importCustomEmojis data text w1)) = JArr l.
Proof.
  intros Hc Hne Hvalid Hd Hs.
  destruct (export_spec now w l Hc Hne) as (lg & ->).
  eexists _, _. split; [reflexivity|].
  unfold Part000Panel.saved_text. cbn [href fst snd].
  rewrite strip_prefix_append, percent_decode_encodeURIComponent.
  split; [reflexivity|]. cbv zeta.
  pose proof (valid_record_is_record _ Hvalid) as Hrec.
  pose proof (collection_array_distinct w l Hc) as Hwf.
  destruct (import_of_export data (set_log lg w) l l Hvalid Hwf)
    as (merged & n & lg' & Hm & Hmwf & ->);
    [now rewrite collection_set_log | exact Hrec |].
  rewrite merge_present in Hm; [|exact Hrec|exact Hrec|].
  - injection Hm as <- <-. cbn [fst snd].
    split; [reflexivity|]. split.
    + cbn [log set_pickerClassList set_log]. rewrite last_snoc.
      now rewrite Nat.sub_0_r.
    + rewrite collection_set_pickerClassList, collection_set_log.
      destruct (write_ok (set_log lg w) l).
      * now apply collection_written.
      * now rewrite collection_set_log.
  - intros r Hr. apply list_elem_of_lookup_1 in Hr as (j & Hj).
    exists j. split; [|exact Hj]. now apply first_index_self.
Qed.

Lemma export_then_import_changes_nothing_witness :
  exists d text,
    fst (Part000Panel.exportCustomEmojis "2024-05-01T10:20:30.000Z"
           (page_with [wave; smile] 1000)) = Normal (Some d) /\
    Part000Panel.saved_text d = Some text /\
    let w1 := snd (Part000Panel.exportCustomEmojis "2024-05-01T10:20:30.000Z"
                     (page_with [wave; smile] 1000)) in
    fst (Part000.importCustomEmojis sample_data text w1) = Normal true /\
    last (log (snd (Part000.importCustomEmojis sample_data text w1)))
      = Some (alert_imported 0 2) /\
    collection (snd (Part000.importCustomEmojis sample_data text w1)) = JArr [wave; smile].
Proof.
  apply (export_then_import_changes_nothing sample_data "2024-05-01T10:20:30.000Z"
           (page_with [wave; smile] 1000) [wave; smile]).
  - apply collection_written. reflexivity.
  - discriminate.
  - reflexivity.
  - reflexivity.
  - reflexivity.
Defined.

(** X12.  Export from one store, then import the exported file into a
    store whose records have other ids than the exported ones (an empty
    store, say): when the exported records are valid for the import and no
    two of them have the same id, and the storage accepts the write, the
    import reports all of them as new and none as updated, and the
    collection is the old one followed by the exported records in their
    order. *)
Theorem export_then_import_elsewhere
        (data : EmojiData) (now : string) (w w0 : World) (l l0 : list JSON) :
  collection w = JArr l ->
  l <> [] ->
  forallb valid_record l = true ->
  distinct_ids l = true ->
  collection w0 = JArr l0 ->
  forallb is_record l0 = true ->
  (forall e r, e ∈ l0 -> r ∈ l -> strict_eq (prop_of "id" e) (prop_of "id" r) = false) ->
  write_ok w0 (l0 ++ l) = true ->
  exists d text,
    fst (Part000Panel.exportCustomEmojis now w) = Normal (Some d) /\
    Part000Panel.saved_text d = Some text /\
    fst (Part000.importCustomEmojis data text w0) = Normal true /\
    last (log (snd (Part000.importCustomEmojis data text w0)))
      = Some (alert_imported (length l) 0) /\
    collection (snd (Part000.importCustomEmojis data text w0)) = JArr (l0 ++ l).
Proof.
  intros Hc Hne Hvalid Hd Hc0 Hrec0 Hnew Hok.
  destruct (export_spec now w l Hc Hne) as (lg & ->).
  eexists _, _. split; [reflexivity|].
  unfold Part000Panel.saved_text. cbn [href fst snd].
  rewrite strip_prefix_append, percent_decode_encodeURIComponent.
  split; [reflexivity|].
  pose proof (valid_record_is_record _ Hvalid) as Hrec.
  pose proof (collection_array_distinct w l Hc) as Hwf.
  destruct (import_of_export data w0 l l0 Hvalid Hwf Hc0 Hrec0)
    as (merged & n & lg' & Hm & Hmwf & ->).
  rewrite merge_absent in Hm by assumption.
  injection Hm as <- <-. cbn [fst snd].
  split; [reflexivity|]. split.
  - cbn [log set_pickerClassList set_log]. rewrite last_snoc.
    cbn [Nat.add]. now rewrite Nat.sub_diag.
  - rewrite collection_set_pickerClassList, collection_set_log, Hok.
    now apply collection_written.
Qed.

Lemma export_then_import_elsewhere_witness :
  exists d text,
    fst (Part000Panel.exportCustomEmojis "2024-05-01T10:20:30.000Z"
           (page_with [wave; smile] 1000)) = Normal (Some d) /\
    Part000Panel.saved_text d = Some text /\
    fst (Part000.importCustomEmojis sample_data text (empty_page 1000)) = Normal true /\
    last (log (snd (Part000.importCustomEmojis sample_data text (empty_page 1000))))
      = Some (alert_imported 2 0) /\
    collection (snd (Part000.importCustomEmojis sample_data text (empty_page 1000)))
      = JArr [wave; smile].
Proof.
  apply (export_then_import_elsewhere sample_data "2024-05-01T10:20:30.000Z"
           (page_with [wave; smile] 1000) (empty_page 1000) [wave; smile] []).
  - apply collection_written. reflexivity.
  - discriminate.
  - reflexivity.
  - reflexivity.
  - reflexivity.
  - reflexivity.
  - intros e r He. inversion He.
  - vm_compute. reflexivity.
Defined.

(** ** The buttons of the panel *)

Lemma Part000_refresh_update (data : EmojiData) (w : World) (l : list JSON) :
  collection w = JArr l ->
  forallb is_record l = true ->
  exists lg,
    (Part000.refreshEmojiPicker data;; Part000.updateCustomEmojiList) w =
    (Normal tt,
     set_pickerClassList (classList_add displayNone (pickerClassList w)) (set_log lg w)).
Proof.
  intros Hc Hrec. unfold bind.
  destruct (refreshEmojiPicker_records data w l Hc Hrec) as (lg1 & ->).
  destruct (updateCustomEmojiList_records
              (set_pickerClassList (classList_add displayNone (pickerClassList w))
                 (set_log lg1 w)) l) as (lg2 & ->); [exact Hc | exact Hrec |].
  exists lg2. reflexivity.
Qed.

Lemma IndexJs_refresh_update (data : EmojiData) (w : World) (l : list JSON) :
  collection w = JArr l ->
  forallb is_record l = true ->
  exists lg,
    (IndexJsPanel.refreshEmojiPicker data;; IndexJsPanel.updateCustomEmojiList) w =
    (Normal tt,
     set_pickerClassList (classList_add displayNone (pickerClassList w)) (set_log lg w)).
Proof.
  intros Hc Hrec.
  unfold bind at 1.
  unfold IndexJsPanel.refreshEmojiPicker, IndexJs.createCustomEmojiData. unfold bind at 1.
  unfold bind at 1.
  destruct (IndexJs_load_collection w) as (lg1 & ->). rewrite Hc.
  destruct (enhancedData_no_throw data l Hrec) as (d & E).
  unfold lift at 1. rewrite E.
  unfold IndexJsPanel.updateCustomEmojiList. unfold bind at 1.
  destruct (IndexJs_load_collection
              (set_pickerClassList (classList_add displayNone (pickerClassList (set_log lg1 w)))
                 (set_log lg1 w))) as (lg2 & ->).
  rewrite collection_set_pickerClassList, collection_set_log, Hc.
  unfold bind at 1. unfold lift at 1. simpl as_array. cbv iota beta.
  assert (exists ys, map_js (fun emoji =>
             cbind (get_prop "src" emoji) (fun _ =>
             cbind (get_prop "name" emoji) (fun _ => get_prop "id" emoji))) l = Normal ys)
    as (ys & E').
  { clear Hc E. induction l as [|r l IH]; [eexists; reflexivity|].
    simpl in Hrec. apply andb_prop in Hrec as [Hr Hl].
    destruct (IH Hl) as (ys & E'). simpl.
    rewrite !(get_prop_record _ _ Hr). simpl. rewrite E'. simpl. eauto. }
  unfold bind, lift. rewrite E'. exists lg2. reflexivity.
Qed.

Lemma upsert_forallb (P : JSON -> bool) (id : option JSON) (r : JSON) (l : list JSON) :
  forallb P l = true -> P r = true -> forallb P (upsert id r l) = true.
Proof.
  intros Hl Hr. unfold upsert. destruct (first_index id l).
  - now apply forallb_insert.
  - rewrite forallb_app, Hl. simpl. now rewrite Hr.
Qed.

Lemma collection_if_written (w : World) (l l' : list JSON) :
  collection w = JArr l ->
  forallb distinct_keys l' = true ->
  collection (if write_ok w l' then written w l' else w)
  = JArr (if write_ok w l' then l' else l).
Proof.
  intros Hc Hwf. destruct (write_ok w l'); [now apply collection_written | exact Hc].
Qed.

Lemma visible_set_log (lg : list LogEntry) (w : World) : visible (set_log lg w) = visible w.
Proof. reflexivity. Qed.

Lemma hidden_after_add (lg : list LogEntry) (c : list string) (w : World) :
  visible (set_log lg (set_pickerClassList (classList_add displayNone c) w)) = false.
Proof.
  unfold visible. cbn [pickerClassList set_log set_pickerClassList].
  now rewrite contains_classList_add.
Qed.

Lemma pickerClassList_if_written (w : World) (l' : list JSON) :
  pickerClassList (if write_ok w l' then written w l' else w) = pickerClassList w.
Proof. now destruct (write_ok w l'). Qed.

Lemma seq_assoc {A : Type} (a b : M unit) (k : M A) (w : World) :
  (a;; b;; k) w = ((a;; b);; k) w.
Proof. unfold bind. destruct (a w) as [[[]|e] w1]; reflexivity. Qed.

Lemma Part000_refresh_update_then {A : Type} (data : EmojiData) (w : World) (l : list JSON)
      (k : M A) :
  collection w = JArr l ->
  forallb is_record l = true ->
  exists lg,
    (Part000.refreshEmojiPicker data;; Part000.updateCustomEmojiList;; k) w =
    k (set_pickerClassList (classList_add displayNone (pickerClassList w)) (set_log lg w)).
Proof.
  intros Hc Hrec. rewrite seq_assoc. unfold bind at 1.
  destruct (Part000_refresh_update data w l Hc Hrec) as (lg & ->). now exists lg.
Qed.

Lemma IndexJs_refresh_update_then {A : Type} (data : EmojiData) (w : World) (l : list JSON)
      (k : M A) :
  collection w = JArr l ->
  forallb is_record l = true ->
  exists lg,
    (IndexJsPanel.refreshEmojiPicker data;; IndexJsPanel.updateCustomEmojiList;; k) w =
    k (set_pickerClassList (classList_add displayNone (pickerClassList w)) (set_log lg w)).
Proof.
  intros Hc Hrec. rewrite seq_assoc. unfold bind at 1.
  destruct (IndexJs_refresh_update data w l Hc Hrec) as (lg & ->). now exists lg.
Qed.

Lemma image_url_ok (fetch : string -> FetchResult) (m : Manager) (w : World) (u : string) :
  (imageSource m = Url /\ trim (emojiUrl m) = u /\ url_pattern u = true /\
   exists contentType, fetch u = Response true (Some contentType) /\
                       startsWith "image/" contentType = true) \/
  (imageSource m = Upload /\
   exists file, emojiFile m = Some file /\
                N.leb (file_size file) Part000Panel.maxSize = true /\
                includes Part000Panel.allowedTypes (file_type file) = true /\
                file_dataURL file = Normal u) ->
  Part000Panel.image_url fetch m w = (Normal (Some u), w).
Proof.
  unfold Part000Panel.image_url.
  intros [(-> & Hu & Hpat & ct & Hfetch & Hct)|(-> & f & -> & Hsize & Htype & Hread)].
  - rewrite Hu.
    destruct (String.eqb_spec u "") as [E|_]; [now apply url_pattern_nonempty in Hpat|].
    unfold bind, Part000Panel.validateImageUrl. rewrite Hpat. cbn [negb].
    unfold try_catch. rewrite Hfetch. unfold ret at 1. rewrite Hct. reflexivity.
  - unfold bind at 1. unfold Part000Panel.validateImageFile.
    rewrite N.ltb_antisym, Hsize, Htype. cbn [negb]. unfold ret at 1. cbn [negb].
    unfold try_catch, bind, Part000Panel.fileToDataURL, lift. rewrite Hread. reflexivity.
Qed.

Lemma onAddEmojiClick_run
      (data : EmojiData) (fetch : string -> FetchResult) (m : Manager) (w : World)
      (l : list JSON) (u : string) :
  collection w = JArr l ->
  forallb is_record l = true ->
  id_pattern (trim (emojiId m)) = true ->
  trim (emojiName m) <> "" ->
  name_in_use (trim (emojiName m)) (trim (emojiId m)) l = false ->
  Part000Panel.image_url fetch m w = (Normal (Some u), w) ->
  let l' := upsert (Some (JStr (trim (emojiId m))))
              (newEmoji (trim (emojiId m)) (trim (emojiName m)) u
                 (keywords_of (emojiKeywords m))) l in
  exists lg,
    Part000Panel.onAddEmojiClick data fetch m w =
    (Normal (Part000Panel.cleared m),
     set_log (lg ++ [alert (Part000Panel.added_message (trim (emojiName m)))])%list
       (set_pickerClassList (classList_add displayNone (pickerClassList w))
          (if write_ok w l' then written w l' else w))).
Proof.
  intros Hc Hrec Hid Hname Hfree Hsrc l'.
  unfold Part000Panel.onAddEmojiClick.
  destruct (String.eqb_spec (trim (emojiId m)) "") as [E|_];
    [now apply id_pattern_nonempty in Hid|].
  destruct (String.eqb_spec (trim (emojiName m)) "") as [E|_]; [contradiction|].
  rewrite Hid. cbn [orb negb].
  unfold bind at 1. rewrite Hsrc.
  unfold bind at 1.
  destruct (Part000_add_spec w l (trim (emojiId m)) (trim (emojiName m)) u
              (keywords_of (emojiKeywords m)) Hc Hrec) as (lg & Hadd).
  rewrite Hfree in Hadd. rewrite Hadd. fold l'.
  set (w1 := set_log lg (if write_ok w l' then written w l' else w)).
  assert (Hwf : forallb distinct_keys l' = true).
  { apply upsert_forallb; [now apply (collection_array_distinct w)|].
    apply newEmoji_distinct_keys. }
  assert (Hc1 : collection w1 = JArr (if write_ok w l' then l' else l)).
  { now apply collection_after_write. }
  assert (Hrec1 : forallb is_record (if write_ok w l' then l' else l) = true).
  { destruct (write_ok w l'); [|exact Hrec]. now apply upsert_forallb. }
  destruct (Part000_refresh_update_then data w1 _
              (emit (alert (Part000Panel.added_message (trim (emojiName m))));;
               ret (Part000Panel.cleared m)) Hc1 Hrec1) as (lg1 & ->).
  exists lg1. unfold bind, emit, ret. subst w1.
  destruct (write_ok w l'); reflexivity.
Qed.

(** X13.  The add button of part_000 on a form that passes its checks (an
    id of the allowed alphabet, a name, and either a URL the network
    confirms as an image or a picked file that is valid and readable), when
    no other record bears the name: the form is cleared and set back to the
    upload source, the picker is hidden, and the last alert announces the
    success.  The storage holds the collection with the new record put in
    by id if it accepted the write; if it refused, the collection is the old
    one, and the success is announced all the same. *)
Theorem onAddEmojiClick_adds
        (data : EmojiData) (fetch : string -> FetchResult) (m : Manager) (w : World)
        (l : list JSON) (u : string) :
  collection w = JArr l ->
  forallb is_record l = true ->
  id_pattern (trim (emojiId m)) = true ->
  trim (emojiName m) <> "" ->
  name_in_use (trim (emojiName m)) (trim (emojiId m)) l = false ->
  (imageSource m = Url /\ trim (emojiUrl m) = u /\ url_pattern u = true /\
   exists contentType, fetch u = Response true (Some contentType) /\
                       startsWith "image/" contentType = true) \/
  (imageSource m = Upload /\
   exists file, emojiFile m = Some file /\
                N.leb (file_size file) Part000Panel.maxSize = true /\
                includes Part000Panel.allowedTypes (file_type file) = true /\
                file_dataURL file = Normal u) ->
  let record :=
    newEmoji (trim (emojiId m)) (trim (emojiName m)) u (keywords_of (emojiKeywords m)) in
  let l' := upsert (Some (JStr (trim (emojiId m)))) record l in
  let w' := snd (Part000Panel.onAddEmojiClick data fetch m w) in
  fst (Part000Panel.onAddEmojiClick data fetch m w) = Normal (Part000Panel.cleared m) /\
  last (log w') = Some (alert (Part000Panel.added_message (trim (emojiName m)))) /\
  visible w' = false /\
  collection w' = JArr (if write_ok w l' then l' else l).
Proof.
  intros Hc Hrec Hid Hname Hfree Hsrc record l' w'. subst w'.
  destruct (onAddEmojiClick_run data fetch m w l u Hc Hrec Hid Hname Hfree
              (image_url_ok fetch m w u Hsrc)) as (lg & ->).
  fold record l'. cbn [fst snd].
  split; [reflexivity|]. split; [|split].
  - cbn [log set_log]. apply last_snoc.
  - apply hidden_after_add.
  - rewrite collection_set_log, collection_set_pickerClassList.
    apply collection_if_written; [exact Hc|].
    apply upsert_forallb; [now apply (collection_array_distinct w)|].
    apply newEmoji_distinct_keys.
Qed.

Lemma onAddEmojiClick_adds_witness :
  let m := form " wave " "Wave" "hello, hi" "https://x/wave.png" in
  let w := empty_page 0 in
  fst (Part000Panel.onAddEmojiClick sample_data fetch_image m w)
    = Normal (Part000Panel.cleared m) /\
  last (log (snd (Part000Panel.onAddEmojiClick sample_data fetch_image m w)))
    = Some (alert (Part000Panel.added_message "Wave")) /\
  collection (snd (Part000Panel.onAddEmojiClick sample_data fetch_image m w)) = JArr [].
Proof.
  intros m w.
  destruct (onAddEmojiClick_adds sample_data fetch_image m w [] "https://x/wave.png")
    as (H1 & H2 & _ & H4).
  - reflexivity.
  - reflexivity.
  - reflexivity.
  - discriminate.
  - reflexivity.
  - left. split; [reflexivity|]. split; [reflexivity|]. split; [reflexivity|].
    exists "image/png". split; reflexivity.
  - split; [exact H1|]. split; [exact H2|exact H4].
Defined.

Lemma without_keeps (id : string) (l : list JSON) (r : JSON) :
  r ∈ l -> prop_of "id" r <> Some (JStr id) -> r ∈ without id l.
Proof.
  intros Hin Hne. unfold without. apply list_elem_of_In, filter_In.
  split; [now apply list_elem_of_In|].
  apply negb_true_iff, not_true_is_false. intros E.
  now apply strict_eq_string in E.
Qed.

Lemma onRemoveEmojiClick_run (data : EmojiData) (id : string) (w : World) (l : list JSON) :
  collection w = JArr l ->
  forallb is_record l = true ->
  exists lg,
    Part000Panel.onRemoveEmojiClick data id true w =
    (Normal tt,
     set_log (lg ++ [alert (Part000Panel.removed_message id)])%list
       (set_pickerClassList (classList_add displayNone (pickerClassList w))
          (if write_ok w (without id l) then written w (without id l) else w))).
Proof.
  intros Hc Hrec.
  unfold Part000Panel.onRemoveEmojiClick. unfold bind at 1.
  destruct (Part000_remove_spec w l id Hc Hrec) as (lg & ->).
  set (l' := without id l).
  set (w1 := set_log lg (if write_ok w l' then written w l' else w)).
  assert (Hwf : forallb distinct_keys l' = true).
  { apply forallb_filter. now apply (collection_array_distinct w). }
  assert (Hc1 : collection w1 = JArr (if write_ok w l' then l' else l)).
  { now apply collection_after_write. }
  assert (Hrec1 : forallb is_record (if write_ok w l' then l' else l) = true).
  { destruct (write_ok w l'); [|exact Hrec]. now apply forallb_filter. }
  destruct (Part000_refresh_update_then data w1 _
              (emit (alert (Part000Panel.removed_message id))) Hc1 Hrec1) as (lg1 & ->).
  exists lg1. unfold emit. subst w1.
  destruct (write_ok w l'); reflexivity.
Qed.

(** X14.  The remove button of part_000 on a store of records.  Declined
    in the confirmation dialogue, it changes nothing.  Confirmed, it hides
    the picker and announces the removal of the id, whether or not a record
    had that id and whether or not the storage accepted the write; the
    collection is the records of another id if the write was accepted and
    the old collection if not.  The id of the button is a string, so a
    record whose id is not a string, a number an import brought in for
    example, stays in the collection whatever button is pressed. *)
Theorem onRemoveEmojiClick_spec (data : EmojiData) (id : string) (w : World) (l : list JSON) :
  collection w = JArr l ->
  forallb is_record l = true ->
  let w' := snd (Part000Panel.onRemoveEmojiClick data id true w) in
  Part000Panel.onRemoveEmojiClick data id false w = (Normal tt, w) /\
  fst (Part000Panel.onRemoveEmojiClick data id true w) = Normal tt /\
  last (log w') = Some (alert (Part000Panel.removed_message id)) /\
  visible w' = false /\
  collection w' = JArr (if write_ok w (without id l) then without id l else l) /\
  (forall r, r ∈ l -> (forall s, prop_of "id" r <> Some (JStr s)) ->
             exists l', collection w' = JArr l' /\ r ∈ l').
Proof.
  intros Hc Hrec w'. subst w'.
  split; [reflexivity|].
  destruct (onRemoveEmojiClick_run data id w l Hc Hrec) as (lg & ->).
  cbn [fst snd].
  assert (Hc1 : collection
                  (set_log (lg ++ [alert (Part000Panel.removed_message id)])%list
                     (set_pickerClassList (classList_add displayNone (pickerClassList w))
                        (if write_ok w (without id l) then written w (without id l) else w)))
                = JArr (if write_ok w (without id l) then without id l else l)).
  { rewrite collection_set_log, collection_set_pickerClassList.
    apply collection_if_written; [exact Hc|].
    apply forallb_filter. now apply (collection_array_distinct w). }
  split; [reflexivity|]. split; [|split; [|split]].
  - cbn [log set_log]. apply last_snoc.
  - apply hidden_after_add.
  - exact Hc1.
  - intros r Hin Hid. eexists. split; [exact Hc1|].
    destruct (write_ok w (without id l)); [|exact Hin]. apply without_keeps; auto.
Qed.

Lemma onRemoveEmojiClick_spec_witness :
  let l := [wave; JObj [("id", JNum 5); ("name", JStr "Five"); ("src", JStr "https://x/5.png")]] in
  let w := page_with l 1000 in
  fst (Part000Panel.onRemoveEmojiClick sample_data "5" true w) = Normal tt /\
  last (log (snd (Part000Panel.onRemoveEmojiClick sample_data "5" true w)))
    = Some (alert (Part000Panel.removed_message "5")) /\
  collection (snd (Part000Panel.onRemoveEmojiClick sample_data "5" true w)) = JArr l.
Proof.
  intros l w.
  destruct (onRemoveEmojiClick_spec sample_data "5" w l) as (_ & H1 & H2 & _ & H4 & _).
  - apply collection_written. reflexivity.
  - reflexivity.
  - split; [exact H1|]. split; [exact H2|].
    rewrite H4. vm_compute. reflexivity.
Defined.

Lemma onClearAllEmojisClick_run (data : EmojiData) (w : World) :
  write_ok w [] = true ->
  exists lg,
    Part000Panel.onClearAllEmojisClick data true w =
    (Normal tt,
     set_log (lg ++ [alert "All custom emojis have been deleted"])%list
       (set_pickerClassList (classList_add displayNone (pickerClassList w)) (written w []))).
Proof.
  intros Hok.
  unfold Part000Panel.onClearAllEmojisClick. unfold bind at 1.
  rewrite Part000_save_spec, Hok.
  assert (Hc1 : collection (written w []) = JArr []) by now apply collection_written.
  destruct (Part000_refresh_update_then data (written w []) []
              (emit (alert "All custom emojis have been deleted")) Hc1 eq_refl) as (lg1 & ->).
  exists lg1. reflexivity.
Qed.

(** X15.  The clear-all button of part_000.  Declined, it changes nothing.
    Confirmed, and the storage accepting the write, it leaves the slot with
    the text of the empty array whatever the slot held before, text that is
    no JSON and text that is no array included; the picker is hidden, the
    deletion announced, and the dataset composed afterwards is the base
    dataset. *)
Theorem onClearAllEmojisClick_spec (data : EmojiData) (w : World) :
  write_ok w [] = true ->
  let w' := snd (Part000Panel.onClearAllEmojisClick data true w) in
  Part000Panel.onClearAllEmojisClick data false w = (Normal tt, w) /\
  fst (Part000Panel.onClearAllEmojisClick data true w) = Normal tt /\
  slot w' = Some "[]" /\
  collection w' = JArr [] /\
  visible w' = false /\
  last (log w') = Some (alert "All custom emojis have been deleted") /\
  fst (Part000.createCustomEmojiData data w') = Normal data.
Proof.
  intros Hok w'. subst w'.
  split; [reflexivity|].
  destruct (onClearAllEmojisClick_run data w Hok) as (lg & ->).
  cbn [fst snd].
  assert (Hc1 : collection
                  (set_log (lg ++ [alert "All custom emojis have been deleted"])%list
                     (set_pickerClassList (classList_add displayNone (pickerClassList w))
                        (written w []))) = JArr []).
  { rewrite collection_set_log, collection_set_pickerClassList.
    now apply collection_written. }
  split; [reflexivity|]. split; [|split; [|split; [|split]]].
  - unfold slot. cbn. apply lookup_insert_eq.
  - exact Hc1.
  - apply hidden_after_add.
  - cbn [log set_log]. apply last_snoc.
  - unfold Part000.createCustomEmojiData, bind.
    match goal with
    | |- context [Part000.loadCustomEmojis ?x] =>
        destruct (Part000_load_collection x) as (lg2 & ->)
    end.
    rewrite Hc1. reflexivity.
Qed.

Lemma onClearAllEmojisClick_spec_witness :
  fst (Part000.removeCustomEmoji "wave" (page_with_text "5" 100)) = Throw TypeError /\
  slot (snd (Part000Panel.onClearAllEmojisClick sample_data true (page_with_text "5" 100)))
    = Some "[]" /\
  fst (Part000.createCustomEmojiData sample_data
         (snd (Part000Panel.onClearAllEmojisClick sample_data true (page_with_text "5" 100))))
    = Normal sample_data.
Proof.
  split; [reflexivity|].
  destruct (onClearAllEmojisClick_spec sample_data (page_with_text "5" 100))
    as (_ & _ & H1 & _ & _ & _ & H2).
  - vm_compute. reflexivity.
  - split; [exact H1|exact H2].
Defined.

(** ** Sequences of operations on the store *)

Lemma first_index_absent (id : string) (l : list JSON) :
  (forall r, r ∈ l -> prop_of "id" r <> Some (JStr id)) ->
  first_index (Some (JStr id)) l = None.
Proof.
  intros H. apply first_index_None. intros r Hr.
  apply not_true_is_false. intros E. apply strict_eq_string in E. now apply (H r).
Qed.

Lemma without_app (id : string) (l1 l2 : list JSON) :
  without id (l1 ++ l2) = (without id l1 ++ without id l2)%list.
Proof. unfold without. apply List.filter_app. Qed.

Lemma without_newEmoji (id name url : string) (keywords : list string) :
  without id [newEmoji id name url keywords] = [].
Proof. unfold without. simpl. now rewrite String.eqb_refl. Qed.

(** X16.  Adding a record under an id that no record has, then removing
    that id, gives back the collection as it was, in both scripts (in
    part_000 provided no other record bears the name), when the storage
    accepts the two writes. *)
Theorem add_then_remove_restores
        (w : World) (l : list JSON) (id name url : string) (keywords : list string) :
  collection w = JArr l ->
  forallb is_record l = true ->
  (forall r, r ∈ l -> prop_of "id" r <> Some (JStr id)) ->
  let l' := (l ++ [newEmoji id name url keywords])%list in
  write_ok w l' = true ->
  write_ok (written w l') l = true ->
  collection (snd (IndexJs.removeCustomEmoji id
                     (snd (IndexJs.addCustomEmoji id name url keywords w)))) = JArr l /\
  (name_in_use name id l = false ->
   collection (snd (Part000.removeCustomEmoji id
                      (snd (Part000.addCustomEmoji id name url keywords w)))) = JArr l).
Proof.
  intros Hc Hrec Hnew l' Hok1 Hok2.
  pose proof (collection_array_distinct w l Hc) as Hwf.
  assert (Hup : upsert (Some (JStr id)) (newEmoji id name url keywords) l = l').
  { unfold upsert. now rewrite first_index_absent. }
  assert (Hwf' : forallb distinct_keys l' = true).
  { unfold l'. rewrite forallb_app, Hwf. cbn [forallb andb].
    now rewrite newEmoji_distinct_keys. }
  assert (Hrec' : forallb is_record l' = true).
  { unfold l'. rewrite forallb_app, Hrec. reflexivity. }
  assert (Hwo : without id l' = l).
  { unfold l'. rewrite without_app, without_newEmoji, app_nil_r.
    now apply without_absent. }
  split.
  - destruct (IndexJs_add_spec w l id name url keywords Hc Hrec) as (lg & ->).
    rewrite Hup, Hok1. cbn [snd].
    assert (Hc1 : collection (set_log lg (written w l')) = JArr l').
    { rewrite collection_set_log. now apply collection_written. }
    destruct (IndexJs_remove_spec _ l' id Hc1 Hrec') as (lg' & ->).
    rewrite Hwo, write_ok_set_log, Hok2. cbn [snd].
    rewrite collection_set_log. now apply collection_written.
  - intros Hfree.
    destruct (Part000_add_spec w l id name url keywords Hc Hrec) as (lg & Hadd).
    rewrite Hfree, Hup, Hok1 in Hadd. rewrite Hadd. cbn [snd].
    assert (Hc1 : collection (set_log lg (written w l')) = JArr l').
    { rewrite collection_set_log. now apply collection_written. }
    destruct (Part000_remove_spec _ l' id Hc1 Hrec') as (lg' & ->).
    rewrite Hwo, write_ok_set_log, Hok2. cbn [snd].
    rewrite collection_set_log. now apply collection_written.
Qed.

Lemma add_then_remove_restores_witness :
  collection (snd (IndexJs.removeCustomEmoji "smile"
                     (snd (IndexJs.addCustomEmoji "smile" "Smile" "https://x/s.png" ["happy"]
                             (page_with [wave] 1000))))) = JArr [wave] /\
  (name_in_use "Smile" "smile" [wave] = false ->
   collection (snd (Part000.removeCustomEmoji "smile"
                      (snd (Part000.addCustomEmoji "smile" "Smile" "https://x/s.png" ["happy"]
                              (page_with [wave] 1000))))) = JArr [wave]).
Proof.
  apply (add_then_remove_restores (page_with [wave] 1000) [wave]
           "smile" "Smile" "https://x/s.png" ["happy"]).
  - apply collection_written. reflexivity.
  - reflexivity.
  - intros r Hr. apply list_elem_of_singleton in Hr as ->. discriminate.
  - vm_compute. reflexivity.
  - vm_compute. reflexivity.
Defined.

Lemma existsb_insert_false {A : Type} (p : A -> bool) (l : list A) (i : nat) (x : A) :
  existsb p l = false -> p x = false -> existsb p (<[i := x]> l) = false.
Proof.
  revert i. induction l as [|y l IH]; intros i Hl Hx; [reflexivity|].
  simpl in Hl. apply orb_false_iff in Hl as [Hy Hl].
  destruct i as [|i]; simpl.
  - now rewrite Hx.
  - rewrite Hy. now apply IH.
Qed.

Lemma existsb_upsert_false (p : JSON -> bool) (id : option JSON) (r : JSON) (l : list JSON) :
  existsb p l = false -> p r = false -> existsb p (upsert id r l) = false.
Proof.
  intros Hl Hr. unfold upsert. destruct (first_index id l).
  - now apply existsb_insert_false.
  - rewrite existsb_app, Hl. simpl. now rewrite Hr.
Qed.

Lemma first_index_upsert (id name url : string) (keywords : list string) (l : list JSON) :
  let r := newEmoji id name url keywords in
  exists i,
    first_index (Some (JStr id)) (upsert (Some (JStr id)) r l) = Some i /\
    upsert (Some (JStr id)) r l !! i = Some r /\
    (forall j, j <> i -> upsert (Some (JStr id)) r l !! j = l !! j) /\
    i = match first_index (Some (JStr id)) l with Some i => i | None => length l end.
Proof.
  intros r. unfold upsert.
  assert (Hr : strict_eq (prop_of "id" r) (Some (JStr id)) = true).
  { simpl. apply String.eqb_refl. }
  destruct (first_index (Some (JStr id)) l) as [i|] eqn:E.
  - exists i. apply first_index_lookup in E as ((x & Hx & _) & Hbefore).
    pose proof (lookup_lt_Some _ _ _ Hx) as Hlt.
    split; [|split; [|split]].
    + apply first_index_lookup. split.
      * exists r. split; [now apply list_lookup_insert_eq | exact Hr].
      * intros j y Hj Hy. rewrite list_lookup_insert_ne in Hy by lia.
        now apply (Hbefore j).
    + now apply list_lookup_insert_eq.
    + intros j Hj. now apply list_lookup_insert_ne.
    + reflexivity.
  - exists (length l). pose proof (proj1 (first_index_None _ _) E) as Hnone.
    split; [|split; [|split]].
    + apply first_index_lookup. split.
      * exists r. split; [|exact Hr].
        rewrite lookup_app_r by lia. now rewrite Nat.sub_diag.
      * intros j y Hj Hy. rewrite lookup_app_l in Hy by exact Hj.
        apply Hnone. eapply list_elem_of_lookup_2. exact Hy.
    + rewrite lookup_app_r by lia. now rewrite Nat.sub_diag.
    + intros j Hj. destruct (Nat.lt_ge_cases j (length l)) as [Hlt|Hge].
      * now apply lookup_app_l.
      * rewrite lookup_app_r by lia.
        rewrite (lookup_ge_None_2 l j) by lia.
        destruct (j - length l) as [|n] eqn:En; [lia|]. reflexivity.
    + reflexivity.
Qed.

Lemma upsert_again (id name url : string) (keywords : list string) (l : list JSON) :
  upsert (Some (JStr id)) (newEmoji id name url keywords)
    (upsert (Some (JStr id)) (newEmoji id name url keywords) l)
  = upsert (Some (JStr id)) (newEmoji id name url keywords) l.
Proof.
  destruct (first_index_upsert id name url keywords l) as (i & Hi & Hr & _).
  unfold upsert at 1. rewrite Hi. now apply list_insert_id.
Qed.

Lemma name_in_use_upsert (id name url : string) (keywords : list string) (l : list JSON) :
  name_in_use name id l = false ->
  name_in_use name id (upsert (Some (JStr id)) (newEmoji id name url keywords) l) = false.
Proof.
  intros H. unfold name_in_use. apply existsb_upsert_false; [exact H|].
  simpl. rewrite !String.eqb_refl. reflexivity.
Qed.

(** X17.  After an add the storage accepted (in index.js always, in
    part_000 when no other record bears the name), the first record found
    under the id is the new record, at the place of the first record that
    had the id before or else at the end, and the other places hold what
    they held.  Adding the same record a second time changes nothing in the
    storage, in both scripts, whether or not the first write was accepted
    and whether or not another record bears the name. *)
Theorem add_is_idempotent
        (w : World) (l : list JSON) (id name url : string) (keywords : list string) :
  collection w = JArr l ->
  forallb is_record l = true ->
  let r := newEmoji id name url keywords in
  let l' := upsert (Some (JStr id)) r l in
  let w1 := snd (IndexJs.addCustomEmoji id name url keywords w) in
  let w2 := snd (Part000.addCustomEmoji id name url keywords w) in
  (write_ok w l' = true ->
   collection w1 = JArr l' /\
   (name_in_use name id l = false -> collection w2 = JArr l') /\
   exists i,
     first_index (Some (JStr id)) l' = Some i /\
     l' !! i = Some r /\
     (forall j, j <> i -> l' !! j = l !! j) /\
     i = match first_index (Some (JStr id)) l with Some i => i | None => length l end) /\
  localStorage (snd (IndexJs.addCustomEmoji id name url keywords w1)) = localStorage w1 /\
  localStorage (snd (Part000.addCustomEmoji id name url keywords w2)) = localStorage w2.
Proof.
  intros Hc Hrec r l' w1 w2.
  pose proof (collection_array_distinct w l Hc) as Hwf.
  assert (Hwf' : forallb distinct_keys l' = true).
  { apply upsert_forallb; [exact Hwf|apply newEmoji_distinct_keys]. }
  assert (Hrec' : forallb is_record l' = true) by now apply upsert_forallb.
  destruct (IndexJs_add_spec w l id name url keywords Hc Hrec) as (lg1 & H1).
  destruct (Part000_add_spec w l id name url keywords Hc Hrec) as (lg2 & H2).
  fold r in H1, H2. fold l' in H1, H2.
  assert (E1 : w1 = set_log lg1 (if write_ok w l' then written w l' else w)).
  { unfold w1. now rewrite H1. }
  assert (E2 : w2 = if name_in_use name id l then set_log lg2 w
                    else set_log lg2 (if write_ok w l' then written w l' else w)).
  { unfold w2. rewrite H2. now destruct (name_in_use name id l). }
  clearbody w1 w2. subst w1 w2. clear H1 H2.
  assert (Hagain : upsert (Some (JStr id)) r l' = l') by apply upsert_again.
  split; [|split].
  - intros Hok. rewrite Hok.
    split; [rewrite collection_set_log; now apply collection_written|].
    split.
    + intros ->. rewrite collection_set_log. now apply collection_written.
    + destruct (first_index_upsert id name url keywords l) as (i & Hi & Hr & Hother & Hplace).
      now exists i.
  - destruct (write_ok w l') eqn:Hok.
    + assert (Hc1 : collection (set_log lg1 (written w l')) = JArr l').
      { rewrite collection_set_log. now apply collection_written. }
      destruct (IndexJs_add_spec _ l' id name url keywords Hc1 Hrec') as (lg & ->).
      fold r. rewrite Hagain.
      rewrite write_ok_set_log, (write_ok_written w l' Hok). cbn [snd].
      cbn [localStorage set_log]. now rewrite written_set_log, written_written.
    + assert (Hc1 : collection (set_log lg1 w) = JArr l) by now rewrite collection_set_log.
      destruct (IndexJs_add_spec _ l id name url keywords Hc1 Hrec) as (lg & ->).
      fold r l'. rewrite write_ok_set_log, Hok. reflexivity.
  - destruct (name_in_use name id l) eqn:Hname.
    + assert (Hc1 : collection (set_log lg2 w) = JArr l) by now rewrite collection_set_log.
      destruct (Part000_add_spec _ l id name url keywords Hc1 Hrec) as (lg & ->).
      rewrite Hname. reflexivity.
    + assert (Hfree' : name_in_use name id l' = false) by now apply name_in_use_upsert.
      destruct (write_ok w l') eqn:Hok.
      * assert (Hc1 : collection (set_log lg2 (written w l')) = JArr l').
        { rewrite collection_set_log. now apply collection_written. }
        destruct (Part000_add_spec _ l' id name url keywords Hc1 Hrec') as (lg & ->).
        fold r. rewrite Hfree', Hagain.
        rewrite write_ok_set_log, (write_ok_written w l' Hok). cbn [snd].
        cbn [localStorage set_log]. now rewrite written_set_log, written_written.
      * assert (Hc1 : collection (set_log lg2 w) = JArr l) by now rewrite collection_set_log.
        destruct (Part000_add_spec _ l id name url keywords Hc1 Hrec) as (lg & ->).
        rewrite Hname. fold r l'. rewrite write_ok_set_log, Hok. reflexivity.
Qed.

Lemma add_is_idempotent_witness :
  let w := page_with [wave; smile] 1000 in
  let w1 := snd (IndexJs.addCustomEmoji "hello" "Wave" "https://x/h.png" [] w) in
  let w2 := snd (Part000.addCustomEmoji "smile" "Grin" "https://x/g.png" ["happy"] w) in
  name_in_use "Wave" "hello" [wave; smile] = true /\
  localStorage (snd (IndexJs.addCustomEmoji "hello" "Wave" "https://x/h.png" [] w1))
  = localStorage w1 /\
  localStorage (snd (Part000.addCustomEmoji "smile" "Grin" "https://x/g.png" ["happy"] w2))
  = localStorage w2.
Proof.
  intros w w1 w2. split; [reflexivity|]. split.
  - destruct (add_is_idempotent w [wave; smile] "hello" "Wave" "https://x/h.png" [])
      as (_ & H & _).
    + apply collection_written. reflexivity.
    + reflexivity.
    + exact H.
  - destruct (add_is_idempotent w [wave; smile] "smile" "Grin" "https://x/g.png" ["happy"])
      as (_ & _ & H).
    + apply collection_written. reflexivity.
    + reflexivity.
    + exact H.
Defined.

Lemma Part000_load_log (w : World) :
  exists extra,
    snd (Part000.loadCustomEmojis w) = set_log (log w ++ extra)%list w /\
    forall e, ~ In (console_error "Error adding emoji:" e) extra.
Proof.
  unfold Part000.loadCustomEmojis, try_catch, bind, getItem.
  assert (Hnil : (Normal (JArr []), w).2 = set_log (log w ++ [])%list w /\
                 forall e, ~ In (console_error "Error adding emoji:" e) []).
  { split; [|intros e []]. cbn [snd]. now rewrite app_nil_r, set_log_same. }
  destruct (localStorage w !! CUSTOM_EMOJI_STORAGE_KEY) as [text|]; [|exists []; exact Hnil].
  destruct (negb (String.eqb text "")); [|exists []; exact Hnil].
  unfold lift. destruct (JSON_parse text) as [v|e0].
  - exists []. split; [|intros e []]. cbn [snd]. now rewrite app_nil_r, set_log_same.
  - exists [console_error "Error loading custom emojis:" e0;
            alert "Failed to load custom emojis. Please try again."].
    split.
    + unfold emit, ret. cbn [snd]. unfold set_log. cbn [log]. now rewrite <- app_assoc.
    + intros e [H|[H|[]]]; discriminate H.
Qed.

(** X18.  On a store of records, [addCustomEmoji] of part_000 returns
    false exactly when another record bears the name, and then the storage
    is untouched; in every other case it returns true, a refused write
    included, and its handler for a storage error never runs: the console
    gets no message of that handler.  [addCustomEmoji] of index.js returns
    true in every case. *)
Theorem addCustomEmoji_result
        (w : World) (l : list JSON) (id name url : string) (keywords : list string) :
  collection w = JArr l ->
  forallb is_record l = true ->
  fst (Part000.addCustomEmoji id name url keywords w) = Normal (negb (name_in_use name id l)) /\
  (name_in_use name id l = true ->
   localStorage (snd (Part000.addCustomEmoji id name url keywords w)) = localStorage w) /\
  (forall e, In (console_error "Error adding emoji:" e)
                (log (snd (Part000.addCustomEmoji id name url keywords w))) ->
             In (console_error "Error adding emoji:" e) (log w)) /\
  fst (IndexJs.addCustomEmoji id name url keywords w) = Normal true.
Proof.
  intros Hc Hrec.
  destruct (IndexJs_add_spec w l id name url keywords Hc Hrec) as (lg1 & ->).
  split; [|split; [|split]]; try reflexivity.
  - destruct (Part000_add_spec w l id name url keywords Hc Hrec) as (lg & ->).
    now destruct (name_in_use name id l).
  - intros Hin.
    destruct (Part000_add_spec w l id name url keywords Hc Hrec) as (lg & ->).
    now rewrite Hin.
  - unfold Part000.addCustomEmoji. unfold bind at 1.
    destruct (Part000_load_log w) as (extra & Hw1 & Hextra).
    destruct (Part000_load_collection w) as (lg0 & Hload). rewrite Hload in Hw1 |- *.
    cbn [snd] in Hw1. rewrite Hw1, Hc. clear Hw1 Hload lg0.
    unfold bind at 1. unfold lift at 1. cbn [as_array].
    unfold bind at 1. unfold lift at 1. rewrite (some_records _ _ _ Hrec).
    assert (Hold : forall e, In (console_error "Error adding emoji:" e) (log w ++ extra) ->
                             In (console_error "Error adding emoji:" e) (log w)).
    { intros e He. apply in_app_or in He as [He|He]; [exact He|]. now apply Hextra in He. }
    destruct (name_in_use name id l).
    + unfold bind, emit, ret. cbn [snd log set_log]. intros e He.
      apply in_app_or in He as [He|He]; [now apply Hold|].
      simpl in He. destruct He as [He|[]]. discriminate He.
    + unfold bind at 1. unfold lift at 1. rewrite (findIndex_records _ _ Hrec).
      unfold try_catch, bind. rewrite Part000_save_spec.
      unfold ret. cbn [snd]. intros e He.
      destruct (write_ok (set_log (log w ++ extra) w) _).
      * rewrite written_set_log in He. cbn [log set_log] in He. now apply Hold.
      * cbn [log set_log] in He.
        apply in_app_or in He as [He|He].
        -- apply in_app_or in He as [He|He]; [now apply Hold|].
           simpl in He. destruct He as [He|[]]. discriminate He.
        -- simpl in He. destruct He as [He|[]]. discriminate He.
Qed.

Lemma addCustomEmoji_result_witness :
  fst (Part000.addCustomEmoji "wave" "Wave" "https://x/y.png" [] (empty_page 0)) = Normal true /\
  fst (Part000.addCustomEmoji "hello" "Wave" "https://x/h.png" [] (page_with [wave] 1000))
    = Normal false.
Proof.
  split.
  - apply (addCustomEmoji_result (empty_page 0) [] "wave" "Wave" "https://x/y.png" []);
      reflexivity.
  - apply (addCustomEmoji_result (page_with [wave] 1000) [wave]
             "hello" "Wave" "https://x/h.png" []); [|reflexivity].
    apply collection_written. reflexivity.
Defined.

(** ** The composed emoji table *)

Lemma assign_same_key (acc : Accumulator) (key : string) (emoji : JSON) :
  key <> "__proto__" -> fst (assign acc key emoji) !! key = Some emoji.
Proof.
  intros Hk. destruct acc as [own proto]. unfold assign.
  destruct (String.eqb_spec key "__proto__") as [E|_]; [contradiction|].
  cbn [fst]. apply lookup_insert_eq.
Qed.

Lemma last_with_key_cons (k : string) (r : JSON) (l : list JSON) :
  last_with_key k (r :: l) =
  match last_with_key k l with
  | Some x => Some x
  | None => if String.eqb (toPropertyKey (prop_of "id" r)) k then Some r else None
  end.
Proof.
  unfold last_with_key. cbn [List.filter].
  destruct (String.eqb (toPropertyKey (prop_of "id" r)) k); [|now destruct (last _)].
  apply last_cons.
Qed.

Lemma reduce_by_id_last (l : list JSON) :
  forall acc acc',
    forallb is_record l = true ->
    reduce_by_id acc l = Normal acc' ->
    forall k, k <> "__proto__" ->
      fst acc' !! k = match last_with_key k l with
                      | Some r => Some r
                      | None => fst acc !! k
                      end.
Proof.
  induction l as [|r l IH]; intros acc acc' Hrec Hred k Hk.
  - simpl in Hred. now injection Hred as <-.
  - simpl in Hrec. apply andb_prop in Hrec as [Hr Hl].
    cbn [reduce_by_id] in Hred. rewrite (get_prop_record _ _ Hr) in Hred.
    cbn [cbind] in Hred.
    rewrite (IH _ _ Hl Hred k Hk), last_with_key_cons.
    destruct (last_with_key k l); [reflexivity|].
    destruct (String.eqb_spec (toPropertyKey (prop_of "id" r)) k) as [E|E].
    + rewrite E. now apply assign_same_key.
    + now apply assign_other_key.
Qed.

Lemma reduce_by_id_proto (l : list JSON) :
  forall acc acc',
    forallb is_record l = true ->
    (forall r, r ∈ l -> prop_of "__proto__" r = None) ->
    reduce_by_id acc l = Normal acc' ->
    fst acc !! "__proto__" = None ->
    (snd acc = None \/ exists r, snd acc = Some r /\ is_record r = true /\
                                 prop_of "__proto__" r = None) ->
    fst acc' !! "__proto__" = None.
Proof.
  induction l as [|r l IH]; intros acc acc' Hrec Hnone Hred Hown Hproto.
  - simpl in Hred. now injection Hred as <-.
  - simpl in Hrec. apply andb_prop in Hrec as [Hr Hl].
    cbn [reduce_by_id] in Hred. rewrite (get_prop_record _ _ Hr) in Hred.
    cbn [cbind] in Hred.
    apply (IH _ _ Hl (fun q Hq => Hnone q (list_elem_of_further _ _ _ Hq)) Hred).
    + destruct (String.eqb_spec (toPropertyKey (prop_of "id" r)) "__proto__") as [E|E].
      * rewrite E. destruct acc as [own proto]. cbn [fst snd] in *.
        unfold assign. cbn [String.eqb Ascii.eqb Bool.eqb]. rewrite Hown.
        destruct r as [| | | | |props]; try discriminate Hr.
        destruct Hproto as [->|(p & -> & Hp & Hpp)]; [exact Hown|].
        destruct p as [| | | | |pprops]; try discriminate Hp.
        cbn [prop_of] in Hpp. rewrite Hpp. exact Hown.
      * rewrite assign_other_key by exact E. exact Hown.
    + destruct (String.eqb_spec (toPropertyKey (prop_of "id" r)) "__proto__") as [E|E].
      * rewrite E. destruct acc as [own proto]. cbn [fst snd] in *.
        unfold assign. cbn [String.eqb Ascii.eqb Bool.eqb]. rewrite Hown.
        assert (Hnew : prop_of "__proto__" r = None) by (apply Hnone; constructor).
        destruct r as [| | | | |props]; try discriminate Hr.
        destruct Hproto as [->|(p & -> & Hp & Hpp)].
        -- right. exists (JObj props). auto.
        -- destruct p as [| | | | |pprops]; try discriminate Hp.
           cbn [prop_of] in Hpp. rewrite Hpp. right. exists (JObj props). auto.
      * destruct acc as [own proto]. unfold assign.
        destruct (String.eqb_spec (toPropertyKey (prop_of "id" r)) "__proto__");
          [contradiction|]. exact Hproto.
Qed.

Lemma enhancedData_table (data : EmojiData) (l : list JSON) :
  l <> [] ->
  forallb is_record l = true ->
  exists acc,
    reduce_by_id (∅, None) l = Normal acc /\
    enhancedData data (JArr l) =
    Normal {| categories :=
                (categories data ++
                 [{| cat_id := CUSTOM_EMOJI_CATEGORY; cat_name := Some "Custom";
                     cat_emojis := map (prop_of "id") l |}])%list;
              emojis := fst acc ∪ emojis data;
              aliases := aliases data;
              sheet := sheet data |}.
Proof.
  intros Hne Hrec. unfold enhancedData.
  assert (length_is_zero (JArr l) = Normal false) as ->.
  { destruct l; [congruence|reflexivity]. }
  rewrite cbind_Normal. cbv iota.
  change (as_array (JArr l)) with (Normal l). rewrite cbind_Normal.
  rewrite (map_records _ _ Hrec), cbind_Normal.
  destruct (reduce_by_id_records l (∅, None) Hrec) as (acc & E & _).
  rewrite E, cbind_Normal. exists acc. split; reflexivity.
Qed.

Lemma createCustomEmojiData_value (data : EmojiData) (w : World) :
  fst (IndexJs.createCustomEmojiData data w) = enhancedData data (collection w) /\
  fst (Part000.createCustomEmojiData data w) = enhancedData data (collection w).
Proof.
  unfold IndexJs.createCustomEmojiData, Part000.createCustomEmojiData, bind.
  destruct (IndexJs_load_collection w) as (lg1 & ->).
  destruct (Part000_load_collection w) as (lg2 & ->).
  split; reflexivity.
Qed.

(** X19.  The emoji table [createCustomEmojiData] composes from a
    non-empty collection of records, in both scripts, for every key but
    [__proto__]: if some record has the key for its id, the entry is the
    last such record of the collection, whatever the base dataset has
    under that key; if none has, the entry is the one of the base
    dataset. *)
Theorem createCustomEmojiData_table (data : EmojiData) (w : World) (l : list JSON) :
  collection w = JArr l ->
  l <> [] ->
  forallb is_record l = true ->
  exists d,
    fst (IndexJs.createCustomEmojiData data w) = Normal d /\
    fst (Part000.createCustomEmojiData data w) = Normal d /\
    forall k, k <> "__proto__" ->
      emojis d !! k = match last_with_key k l with
                      | Some r => Some r
                      | None => emojis data !! k
                      end.
Proof.
  intros Hc Hne Hrec.
  destruct (createCustomEmojiData_value data w) as [-> ->]. rewrite Hc.
  destruct (enhancedData_table data l Hne Hrec) as (acc & Hred & ->).
  eexists. split; [reflexivity|]. split; [reflexivity|].
  intros k Hk. cbn [emojis].
  pose proof (reduce_by_id_last l _ _ Hrec Hred k Hk) as Hlast.
  cbn [fst] in Hlast. rewrite lookup_empty in Hlast.
  destruct (last_with_key k l) as [r|].
  - now apply lookup_union_Some_l.
  - now apply lookup_union_r.
Qed.

Lemma createCustomEmojiData_table_witness :
  exists d,
    fst (IndexJs.createCustomEmojiData sample_data
           (page_with [plain_record "grinning" "Mine" "https://x/1.png"; wave;
                       plain_record "grinning" "Mine too" "https://x/2.png"] 1000)) = Normal d /\
    emojis d !! "grinning" = Some (plain_record "grinning" "Mine too" "https://x/2.png") /\
    emojis d !! "smile" = None.
Proof.
  destruct (createCustomEmojiData_table sample_data
              (page_with [plain_record "grinning" "Mine" "https://x/1.png"; wave;
                          plain_record "grinning" "Mine too" "https://x/2.png"] 1000)
              [plain_record "grinning" "Mine" "https://x/1.png"; wave;
               plain_record "grinning" "Mine too" "https://x/2.png"])
    as (d & H1 & _ & H3).
  - apply collection_written. reflexivity.
  - discriminate.
  - reflexivity.
  - exists d. split; [exact H1|]. split.
    + rewrite H3 by discriminate. reflexivity.
    + rewrite H3 by discriminate. reflexivity.
Defined.

(** X20.  A record whose id is [__proto__], an id the pattern of the form
    accepts, is listed in the custom category but gets no entry in the
    table: when no record of the collection has a property of that name,
    the table has under [__proto__] what the base dataset has, in both
    scripts. *)
Theorem createCustomEmojiData_proto (data : EmojiData) (w : World) (l : list JSON) :
  collection w = JArr l ->
  l <> [] ->
  forallb is_record l = true ->
  (forall r, r ∈ l -> prop_of "__proto__" r = None) ->
  id_pattern "__proto__" = true /\
  exists d,
    fst (IndexJs.createCustomEmojiData data w) = Normal d /\
    fst (Part000.createCustomEmojiData data w) = Normal d /\
    emojis d !! "__proto__" = emojis data !! "__proto__" /\
    exists c, last (categories d) = Some c /\ cat_emojis c = map (prop_of "id") l.
Proof.
  intros Hc Hne Hrec Hnone. split; [reflexivity|].
  destruct (createCustomEmojiData_value data w) as [-> ->]. rewrite Hc.
  destruct (enhancedData_table data l Hne Hrec) as (acc & Hred & ->).
  eexists. split; [reflexivity|]. split; [reflexivity|]. split.
  - cbn [emojis]. apply lookup_union_r.
    apply (reduce_by_id_proto l (∅, None) acc Hrec Hnone Hred); [apply lookup_empty|now left].
  - cbn [categories]. eexists. split; [apply last_snoc|reflexivity].
Qed.

Lemma createCustomEmojiData_proto_witness :
  exists d,
    fst (Part000.createCustomEmojiData sample_data
           (page_with [newEmoji "__proto__" "Proto" "https://x/p.png" []] 1000)) = Normal d /\
    emojis d !! "__proto__" = None /\
    exists c, last (categories d) = Some c /\ cat_emojis c = [Some (JStr "__proto__")].
Proof.
  destruct (createCustomEmojiData_proto sample_data
              (page_with [newEmoji "__proto__" "Proto" "https://x/p.png" []] 1000)
              [newEmoji "__proto__" "Proto" "https://x/p.png" []])
    as (_ & d & _ & H2 & H3 & H4).
  - apply collection_written. reflexivity.
  - discriminate.
  - reflexivity.
  - intros r Hr. apply list_elem_of_singleton in Hr as ->. reflexivity.
  - exists d. split; [exact H2|]. split; [|exact H4].
    rewrite H3. reflexivity.
Defined.

(** ** The language of the picker *)

Lemma split_on_nonempty (sep : ascii) (s : string) : split_on sep s <> [].
Proof.
  induction s as [|c s IH]; simpl; [discriminate|].
  destruct (Ascii.eqb c sep); [discriminate|].
  destruct (split_on sep s); discriminate.
Qed.

Lemma split_on_first (sep : ascii) (a b : string) :
  all_chars (fun c => negb (Ascii.eqb c sep)) a = true ->
  hd "" (split_on sep (a ++ String sep b)) = a /\ hd "" (split_on sep a) = a.
Proof.
  induction a as [|c a IH]; intros H.
  - simpl. rewrite Ascii.eqb_refl. split; reflexivity.
  - cbn [all_chars] in H. apply andb_prop in H as [Hc Ha].
    apply negb_true_iff in Hc. destruct (IH Ha) as [IH1 IH2].
    cbn [String.append split_on]. rewrite Hc. split.
    + pose proof (split_on_nonempty sep (a ++ String sep b)) as Hne.
      destruct (split_on sep (a ++ String sep b)); [congruence|].
      simpl in *. now rewrite IH1.
    + pose proof (split_on_nonempty sep a) as Hne.
      destruct (split_on sep a); [congruence|].
      simpl in *. now rewrite IH2.
Qed.

Lemma getLanguageCode_pure (w : World) :
  exists code, getLanguageCode w = (Normal code, w).
Proof.
  unfold getLanguageCode, bind, getItem.
  destruct (localStorage w !! "language") as [language|]; [|eexists; reflexivity].
  destruct (negb (String.eqb language "")); eexists; reflexivity.
Qed.

(** X21.  [getLocaleData] never throws, changes nothing, and always picks
    the locale file of one of the twenty-two codes it lists.  Without a
    stored language, or with the empty one, that is [en].  Of a stored
    language only the part before the first hyphen counts, trimmed and in
    lower case: a region makes no difference; and a code that is not
    listed gives [en]. *)
Theorem getLocaleData_spec (w : World) :
  (exists code,
     In code locales /\
     getLocaleData w = (Normal ("@emoji-mart/data/i18n/" ++ code ++ ".json"), w)) /\
  (localStorage w !! "language" = None \/ localStorage w !! "language" = Some "" ->
   getLocaleData w = (Normal "@emoji-mart/data/i18n/en.json", w)) /\
  (forall a b,
     all_chars (fun c => negb (Ascii.eqb c "-")) a = true ->
     localStorage w !! "language" = Some (a ++ String "-" b) \/
     (a <> "" /\ localStorage w !! "language" = Some a) ->
     getLocaleData w =
     (Normal (if includes locales (toLowerCase (trim a))
              then "@emoji-mart/data/i18n/" ++ toLowerCase (trim a) ++ ".json"
              else "@emoji-mart/data/i18n/en.json"), w)).
Proof.
  split; [|split].
  - unfold getLocaleData, bind.
    destruct (getLanguageCode_pure w) as (code & ->).
    destruct (includes locales code) eqn:E.
    + exists code. split; [|reflexivity].
      unfold includes in E. apply existsb_exists in E as (x & Hx & Heq).
      apply String.eqb_eq in Heq. now subst x.
    + exists "en". split; [|reflexivity]. simpl. tauto.
  - intros [H|H]; unfold getLocaleData, getLanguageCode, bind, getItem; rewrite H; reflexivity.
  - intros a b Ha Hlang.
    assert (Hcode : getLanguageCode w = (Normal (toLowerCase (trim a)), w)).
    { unfold getLanguageCode, bind, getItem.
      destruct (split_on_first "-" a b Ha) as [H1 H2].
      destruct Hlang as [->|[Hne ->]].
      - destruct (String.eqb_spec (a ++ String "-" b) "") as [E|_].
        + destruct a; discriminate E.
        + cbn [negb]. unfold ret. now rewrite H1.
      - destruct (String.eqb_spec a "") as [E|_]; [contradiction|].
        cbn [negb]. unfold ret. now rewrite H2. }
    unfold getLocaleData, bind. rewrite Hcode.
    destruct (includes locales (toLowerCase (trim a))); reflexivity.
Qed.

(** ** The ids of the collection *)

Lemma ids_stay_distinct_witness :
  exists l1 l2,
    collection (snd (IndexJs.addCustomEmoji "smile" "Grin" "https://x/g.png" []
                       (page_with [wave; smile] 1000))) = JArr l1 /\
    collection (snd (Part000.addCustomEmoji "smile" "Grin" "https://x/g.png" []
                       (page_with [wave; smile] 1000))) = JArr l2 /\
    distinct_ids l1 = true /\ distinct_ids l2 = true.
Proof.
  destruct (ids_stay_distinct (page_with [wave; smile] 1000) [wave; smile]) as (H & _).
  - apply collection_written. reflexivity.
  - reflexivity.
  - reflexivity.
  - exact (H "smile" "Grin" "https://x/g.png" []).
Defined.

(** ** The keywords of the form *)

Lemma strip_space_suffix (s r : string) :
  strip_space s = Some r -> exists pre, s = pre ++ r /\ pre <> "".
Proof.
  unfold strip_space.
  destruct s as [|c s]; [discriminate|].
  destruct (_ || _); [intros [= <-]; exists (String c ""); split; [reflexivity|discriminate]|].
  destruct s as [|d s]; [discriminate|].
  destruct (Nat.eqb (nat_of_ascii c) 194).
  { destruct (Nat.eqb (nat_of_ascii d) 160); [|discriminate].
    intros [= <-]. exists (String c (String d "")). split; [reflexivity|discriminate]. }
  destruct s as [|e s]; [discriminate|].
  repeat match goal with
         | |- context [if ?b then _ else _] => destruct b
         end;
    try discriminate;
    intros [= <-]; exists (String c (String d (String e ""))); split;
    solve [reflexivity | discriminate].
Qed.

Lemma strip_space_app (s r post : string) :
  strip_space s = Some r -> strip_space (s ++ post) = Some (r ++ post).
Proof.
  unfold strip_space.
  destruct s as [|c s]; [discriminate|]. cbn [String.append].
  destruct (_ || _); [now intros [= <-]|].
  destruct s as [|d s]; [discriminate|]. cbn [String.append].
  destruct (Nat.eqb (nat_of_ascii c) 194).
  { destruct (Nat.eqb (nat_of_ascii d) 160); [|discriminate]. now intros [= <-]. }
  destruct s as [|e s]; [discriminate|]. cbn [String.append].
  repeat match goal with
         | |- context [if ?b then _ else _] => destruct b
         end;
    try discriminate; now intros [= <-].
Qed.

Lemma strip_space_length (s r : string) :
  strip_space s = Some r -> String.length r < String.length s.
Proof.
  intros H. apply strip_space_suffix in H as (pre & -> & Hpre).
  rewrite append_length. destruct pre; [congruence|]. simpl. lia.
Qed.

Lemma trimStart_steps_enough (n : nat) :
  forall m s, String.length s <= n -> String.length s <= m ->
              trimStart_steps n s = trimStart_steps m s.
Proof.
  induction n as [|n IH]; intros m s Hn Hm.
  - destruct s; [|simpl in Hn; lia]. destruct m; reflexivity.
  - destruct m as [|m].
    + destruct s; [reflexivity|simpl in Hm; lia].
    + cbn [trimStart_steps]. destruct (strip_space s) as [r|] eqn:E; [|reflexivity].
      apply strip_space_length in E. apply IH; lia.
Qed.

Lemma trimStart_unfold (s : string) :
  trimStart s = match strip_space s with
                | Some r => trimStart r
                | None => s
                end.
Proof.
  unfold trimStart. destruct (String.length s) as [|n] eqn:En.
  - destruct s; [reflexivity|discriminate].
  - cbn [trimStart_steps]. destruct (strip_space s) as [r|] eqn:E; [|reflexivity].
    apply strip_space_length in E. apply trimStart_steps_enough; lia.
Qed.

Lemma by_length (P : string -> Prop) :
  (forall s, (forall r, String.length r < String.length s -> P r) -> P s) -> forall s, P s.
Proof.
  intros H s. remember (String.length s) as n eqn:En.
  revert s En. induction n as [n IH] using lt_wf_ind. intros s ->.
  apply H. intros r Hr. now apply (IH (String.length r)).
Qed.

Lemma trimStart_suffix (s : string) : exists pre, s = pre ++ trimStart s.
Proof.
  induction s as [s IH] using by_length.
  rewrite trimStart_unfold. destruct (strip_space s) as [r|] eqn:E.
  - destruct (IH r (strip_space_length _ _ E)) as (pre' & Hr).
    apply strip_space_suffix in E as (pre & -> & _).
    exists (pre ++ pre'). rewrite append_assoc. now rewrite <- Hr.
  - now exists "".
Qed.

Lemma trimStart_fixed (s : string) : strip_space (trimStart s) = None.
Proof.
  induction s as [s IH] using by_length.
  rewrite trimStart_unfold. destruct (strip_space s) as [r|] eqn:E; [|exact E].
  apply IH. now apply strip_space_length.
Qed.

Lemma trimStart_of_trimmed (s : string) : strip_space s = None -> trimStart s = s.
Proof. intros H. now rewrite trimStart_unfold, H. Qed.

Lemma blank_app (x post : string) :
  trimStart x = "" -> trimStart post = "" -> trimStart (x ++ post) = "".
Proof.
  induction x as [x IH] using by_length. intros Hx Hpost.
  rewrite trimStart_unfold in Hx. destruct (strip_space x) as [r|] eqn:E.
  - rewrite trimStart_unfold, (strip_space_app _ _ post E).
    apply IH; [now apply strip_space_length | exact Hx | exact Hpost].
  - subst x. exact Hpost.
Qed.

Lemma trimEnd_decomp (s : string) :
  exists post, s = trimEnd s ++ post /\ trimStart post = "".
Proof.
  induction s as [|c s (post & Hs & Hpost)]; [now exists ""|].
  cbn [trimEnd]. destruct (String.eqb_spec (trimStart (String c s)) "") as [E|E].
  - now exists (String c s).
  - exists post. split; [|exact Hpost]. cbn [String.append]. now rewrite <- Hs.
Qed.

Lemma trimEnd_idem (s : string) : trimEnd (trimEnd s) = trimEnd s.
Proof.
  induction s as [|c s IH]; [reflexivity|].
  cbn [trimEnd]. destruct (String.eqb_spec (trimStart (String c s)) "") as [E|E];
    [reflexivity|].
  cbn [trimEnd]. rewrite IH.
  destruct (String.eqb_spec (trimStart (String c (trimEnd s))) "") as [E'|_]; [|reflexivity].
  exfalso. apply E.
  destruct (trimEnd_decomp s) as (post & Hs & Hpost).
  rewrite Hs at 1.
  change (String c (trimEnd s ++ post)) with (String c (trimEnd s) ++ post).
  now apply blank_app.
Qed.

Lemma trimEnd_trimmed_start (t : string) :
  strip_space t = None -> trimStart (trimEnd t) = trimEnd t.
Proof.
  intros Ht. destruct (strip_space (trimEnd t)) as [r|] eqn:E.
  - destruct (trimEnd_decomp t) as (post & Hs & _).
    apply (strip_space_app _ _ post) in E. rewrite <- Hs in E. congruence.
  - now apply trimStart_of_trimmed.
Qed.

Lemma trim_idem (s : string) : trim (trim s) = trim s.
Proof.
  unfold trim. rewrite trimEnd_trimmed_start by apply trimStart_fixed.
  apply trimEnd_idem.
Qed.

Lemma all_chars_app (p : ascii -> bool) (a b : string) :
  all_chars p (a ++ b) = all_chars p a && all_chars p b.
Proof.
  induction a as [|c a IH]; [reflexivity|].
  cbn [String.append all_chars]. now rewrite IH, andb_assoc.
Qed.

Lemma all_chars_trim (p : ascii -> bool) (s : string) :
  all_chars p s = true -> all_chars p (trim s) = true.
Proof.
  intros H. unfold trim.
  destruct (trimStart_suffix s) as (pre & Hs).
  destruct (trimEnd_decomp (trimStart s)) as (post & Ht & _).
  rewrite Hs, Ht, !all_chars_app in H.
  apply andb_prop in H as [_ H]. now apply andb_prop in H as [H _].
Qed.

Lemma split_on_pieces (sep : ascii) (s p : string) :
  In p (split_on sep s) -> all_chars (fun c => negb (Ascii.eqb c sep)) p = true.
Proof.
  revert p. induction s as [|c s IH]; intros p Hp.
  - simpl in Hp. destruct Hp as [<-|[]]. reflexivity.
  - cbn [split_on] in Hp. destruct (Ascii.eqb c sep) eqn:Ec.
    + destruct Hp as [<-|Hp]; [reflexivity|now apply IH].
    + destruct (split_on sep s) as [|q qs] eqn:Es.
      * destruct Hp as [<-|[]]. cbn [all_chars]. now rewrite Ec.
      * destruct Hp as [<-|Hp].
        -- cbn [all_chars]. rewrite Ec. cbn [negb andb]. apply IH. now left.
        -- apply IH. now right.
Qed.

(** X22.  The keywords the add buttons take from the keywords input: none
    is empty, none contains a comma, and none starts or ends with white
    space (trimming it again changes nothing). *)
Theorem keywords_of_spec (value k : string) :
  In k (keywords_of value) ->
  k <> "" /\
  all_chars (fun c => negb (Ascii.eqb c ",")) k = true /\
  trim k = k.
Proof.
  unfold keywords_of. intros H.
  apply filter_In in H as [H Hne].
  apply in_map_iff in H as (p & <- & Hp).
  split; [|split].
  - apply negb_true_iff in Hne. now apply String.eqb_neq.
  - apply all_chars_trim. now apply (split_on_pieces "," (trim value)).
  - apply trim_idem.
Qed.

Lemma keywords_of_spec_witness :
  keywords_of "  happy , smile,, face  " = ["happy"; "smile"; "face"] /\
  "smile" <> "" /\
  all_chars (fun c => negb (Ascii.eqb c ",")) "smile" = true /\
  trim "smile" = "smile".
Proof.
  split; [reflexivity|].
  apply (keywords_of_spec "  happy , smile,, face  " "smile").
  vm_compute. right. left. reflexivity.
Defined.

(** ** The buttons of the panel of index.js *)

Lemma IndexJs_onAddEmojiClick_run (data : EmojiData) (m : Manager) (w : World) (l : list JSON) :
  collection w = JArr l ->
  forallb is_record l = true ->
  trim (emojiId m) <> "" ->
  trim (emojiName m) <> "" ->
  trim (emojiUrl m) <> "" ->
  let l' := upsert (Some (JStr (trim (emojiId m))))
              (newEmoji (trim (emojiId m)) (trim (emojiName m)) (trim (emojiUrl m))
                 (keywords_of (emojiKeywords m))) l in
  exists lg,
    IndexJsPanel.onAddEmojiClick data m w =
    (Normal (IndexJsPanel.cleared m),
     set_log lg
       (set_pickerClassList (classList_add displayNone (pickerClassList w))
          (if write_ok w l' then written w l' else w))).
Proof.
  intros Hc Hrec Hid Hname Hurl l'.
  unfold IndexJsPanel.onAddEmojiClick.
  destruct (String.eqb_spec (trim (emojiId m)) "") as [E|_]; [contradiction|].
  destruct (String.eqb_spec (trim (emojiName m)) "") as [E|_]; [contradiction|].
  destruct (String.eqb_spec (trim (emojiUrl m)) "") as [E|_]; [contradiction|].
  cbn [orb]. unfold bind at 1.
  destruct (IndexJs_add_spec w l (trim (emojiId m)) (trim (emojiName m)) (trim (emojiUrl m))
              (keywords_of (emojiKeywords m)) Hc Hrec) as (lg & ->).
  fold l'.
  set (w1 := set_log lg (if write_ok w l' then written w l' else w)).
  assert (Hwf : forallb distinct_keys l' = true).
  { apply upsert_forallb; [now apply (collection_array_distinct w)|].
    apply newEmoji_distinct_keys. }
  assert (Hc1 : collection w1 = JArr (if write_ok w l' then l' else l)).
  { now apply collection_after_write. }
  assert (Hrec1 : forallb is_record (if write_ok w l' then l' else l) = true).
  { destruct (write_ok w l'); [|exact Hrec]. now apply upsert_forallb. }
  destruct (IndexJs_refresh_update_then data w1 _ (ret (IndexJsPanel.cleared m)) Hc1 Hrec1)
    as (lg1 & ->).
  exists lg1. unfold ret. subst w1.
  destruct (write_ok w l'); reflexivity.
Qed.

(** X23.  The add button of index.js on a store of records.  If the
    trimmed id, name or URL is empty, the click costs one alert and changes
    nothing else.  Otherwise nothing more is checked, neither the alphabet
    of the id nor the address nor the names in use: the record is put in by
    id if the storage accepts the write, the four text inputs are cleared
    and the picker is hidden whether or not it does, and the text area is
    left alone. *)
Theorem IndexJs_onAddEmojiClick_spec
        (data : EmojiData) (m : Manager) (w : World) (l : list JSON) :
  collection w = JArr l ->
  forallb is_record l = true ->
  (trim (emojiId m) = "" \/ trim (emojiName m) = "" \/ trim (emojiUrl m) = "" ->
   IndexJsPanel.onAddEmojiClick data m w =
   (Normal m, set_log (log w ++ [alert "Please fill in all required fields"])%list w)) /\
  (trim (emojiId m) <> "" -> trim (emojiName m) <> "" -> trim (emojiUrl m) <> "" ->
   let l' := upsert (Some (JStr (trim (emojiId m))))
               (newEmoji (trim (emojiId m)) (trim (emojiName m)) (trim (emojiUrl m))
                  (keywords_of (emojiKeywords m))) l in
   let w' := snd (IndexJsPanel.onAddEmojiClick data m w) in
   fst (IndexJsPanel.onAddEmojiClick data m w) = Normal (IndexJsPanel.cleared m) /\
   collection w' = JArr (if write_ok w l' then l' else l) /\
   visible w' = false /\
   textarea w' = textarea w).
Proof.
  intros Hc Hrec. split.
  - intros H. unfold IndexJsPanel.onAddEmojiClick.
    destruct (String.eqb_spec (trim (emojiId m)) "") as [E|E]; [reflexivity|].
    destruct (String.eqb_spec (trim (emojiName m)) "") as [E'|E']; [reflexivity|].
    destruct (String.eqb_spec (trim (emojiUrl m)) "") as [E''|E'']; [reflexivity|].
    tauto.
  - intros Hid Hname Hurl l' w'. subst w'.
    destruct (IndexJs_onAddEmojiClick_run data m w l Hc Hrec Hid Hname Hurl) as (lg & ->).
    fold l'. cbn [fst snd].
    split; [reflexivity|]. split; [|split].
    + rewrite collection_set_log, collection_set_pickerClassList.
      apply collection_if_written; [exact Hc|].
      apply upsert_forallb; [now apply (collection_array_distinct w)|].
      apply newEmoji_distinct_keys.
    + apply hidden_after_add.
    + now destruct (write_ok w l').
Qed.

Lemma IndexJs_onAddEmojiClick_spec_witness :
  let m := form "thumbs up" "Wave" "" "not an address" in
  let w := page_with [wave] 1000 in
  let r := newEmoji "thumbs up" "Wave" "not an address" [] in
  fst (IndexJsPanel.onAddEmojiClick sample_data m w) = Normal (IndexJsPanel.cleared m) /\
  collection (snd (IndexJsPanel.onAddEmojiClick sample_data m w)) = JArr [wave; r].
Proof.
  intros m w r.
  destruct (IndexJs_onAddEmojiClick_spec sample_data m w [wave]) as (_ & H).
  - apply collection_written. reflexivity.
  - reflexivity.
  - assert (H1 : trim (emojiId m) <> "") by (vm_compute; discriminate).
    assert (H2 : trim (emojiName m) <> "") by (vm_compute; discriminate).
    assert (H3 : trim (emojiUrl m) <> "") by (vm_compute; discriminate).
    specialize (H H1 H2 H3). cbv zeta in H.
    destruct H as (Ha & Hb & _).
    split; [exact Ha|]. rewrite Hb. vm_compute. reflexivity.
Defined.

(** X24.  The remove button of index.js on a store of records.  Declined
    in the confirmation dialogue, it changes nothing.  Confirmed, it never
    throws, hides the picker, and leaves the records of another id if the
    storage accepts the write and the old collection if it does not; a
    record whose id is not a string stays in either case. *)
Theorem IndexJs_onRemoveEmojiClick_spec
        (data : EmojiData) (id : string) (w : World) (l : list JSON) :
  collection w = JArr l ->
  forallb is_record l = true ->
  let w' := snd (IndexJsPanel.onRemoveEmojiClick data id true w) in
  IndexJsPanel.onRemoveEmojiClick data id false w = (Normal tt, w) /\
  fst (IndexJsPanel.onRemoveEmojiClick data id true w) = Normal tt /\
  visible w' = false /\
  collection w' = JArr (if write_ok w (without id l) then without id l else l) /\
  (forall r, r ∈ l -> (forall s, prop_of "id" r <> Some (JStr s)) ->
             exists l', collection w' = JArr l' /\ r ∈ l').
Proof.
  intros Hc Hrec w'. subst w'.
  split; [reflexivity|].
  assert (Hrun : exists lg,
             IndexJsPanel.onRemoveEmojiClick data id true w =
             (Normal tt,
              set_pickerClassList (classList_add displayNone (pickerClassList w))
                (set_log lg (if write_ok w (without id l)
                             then written w (without id l) else w)))).
  { unfold IndexJsPanel.onRemoveEmojiClick. unfold bind at 1.
    destruct (IndexJs_remove_spec w l id Hc Hrec) as (lg & ->).
    set (l' := without id l).
    set (w1 := set_log lg (if write_ok w l' then written w l' else w)).
    assert (Hwf : forallb distinct_keys l' = true).
    { apply forallb_filter. now apply (collection_array_distinct w). }
    assert (Hc1 : collection w1 = JArr (if write_ok w l' then l' else l)).
    { now apply collection_after_write. }
    assert (Hrec1 : forallb is_record (if write_ok w l' then l' else l) = true).
    { destruct (write_ok w l'); [|exact Hrec]. now apply forallb_filter. }
    destruct (IndexJs_refresh_update data w1 _ Hc1 Hrec1) as (lg1 & ->).
    exists lg1. subst w1. destruct (write_ok w l'); reflexivity. }
  destruct Hrun as (lg & ->). cbn [fst snd].
  assert (Hc1 : collection
                  (set_pickerClassList (classList_add displayNone (pickerClassList w))
                     (set_log lg (if write_ok w (without id l)
                                  then written w (without id l) else w)))
                = JArr (if write_ok w (without id l) then without id l else l)).
  { rewrite collection_set_pickerClassList, collection_set_log.
    apply collection_if_written; [exact Hc|].
    apply forallb_filter. now apply (collection_array_distinct w). }
  split; [reflexivity|]. split; [|split].
  - unfold visible. cbn [pickerClassList set_pickerClassList].
    now rewrite contains_classList_add.
  - exact Hc1.
  - intros r Hin Hid. eexists. split; [exact Hc1|].
    destruct (write_ok w (without id l)); [|exact Hin]. apply without_keeps; auto.
Qed.

Lemma IndexJs_onRemoveEmojiClick_spec_witness :
  let w := page_with [wave; smile] 1000 in
  fst (IndexJsPanel.onRemoveEmojiClick sample_data "wave" true w) = Normal tt /\
  collection (snd (IndexJsPanel.onRemoveEmojiClick sample_data "wave" true w)) = JArr [smile].
Proof.
  intros w.
  destruct (IndexJs_onRemoveEmojiClick_spec sample_data "wave" w [wave; smile])
    as (_ & H1 & _ & H3 & _).
  - apply collection_written. reflexivity.
  - reflexivity.
  - split; [exact H1|]. rewrite H3. vm_compute. reflexivity.
Defined.

(** ** A slot that holds something else than an array *)

Lemma as_array_not_array (v : JSON) :
  (forall l, v <> JArr l) -> as_array v = Throw TypeError.
Proof.
  intros H. destruct v as [| | | |l|]; try reflexivity. now destruct (H l).
Qed.

(** X26.  When the slot holds JSON text of anything but an array (a
    number, a string, an object, [null]), [addCustomEmoji] and
    [removeCustomEmoji] of both scripts throw a TypeError and leave the
    storage as it is: from then on no emoji can be added or removed. *)
Theorem not_an_array_blocks_add_and_remove
        (w : World) (id name url : string) (keywords : list string) :
  (forall l, collection w <> JArr l) ->
  (fst (IndexJs.addCustomEmoji id name url keywords w) = Throw TypeError /\
   localStorage (snd (IndexJs.addCustomEmoji id name url keywords w)) = localStorage w) /\
  (fst (Part000.addCustomEmoji id name url keywords w) = Throw TypeError /\
   localStorage (snd (Part000.addCustomEmoji id name url keywords w)) = localStorage w) /\
  (fst (IndexJs.removeCustomEmoji id w) = Throw TypeError /\
   localStorage (snd (IndexJs.removeCustomEmoji id w)) = localStorage w) /\
  (fst (Part000.removeCustomEmoji id w) = Throw TypeError /\
   localStorage (snd (Part000.removeCustomEmoji id w)) = localStorage w).
Proof.
  intros H. pose proof (as_array_not_array _ H) as Harr.
  unfold IndexJs.addCustomEmoji, Part000.addCustomEmoji,
    IndexJs.removeCustomEmoji, Part000.removeCustomEmoji.
  destruct (IndexJs_load_collection w) as (lg1 & H1).
  destruct (Part000_load_collection w) as (lg2 & H2).
  repeat split; unfold bind at 1; rewrite ?H1, ?H2; unfold bind at 1;
    unfold lift at 1; rewrite Harr; reflexivity.
Qed.

Lemma not_an_array_blocks_add_and_remove_witness :
  collection (page_with_text "{}" 100) = JObj [] /\
  fst (Part000.addCustomEmoji "wave" "Wave" "https://x/y.png" [] (page_with_text "{}" 100))
    = Throw TypeError /\
  fst (Part000.removeCustomEmoji "wave" (page_with_text "{}" 100)) = Throw TypeError.
Proof.
  split; [reflexivity|].
  destruct (not_an_array_blocks_add_and_remove (page_with_text "{}" 100)
              "wave" "Wave" "https://x/y.png" []) as (_ & (H1 & _) & _ & (H2 & _)).
  - intros l. vm_compute. discriminate.
  - split; [exact H1|exact H2].
Defined.

(** X27.  [importCustomEmojis] never throws, whatever the file and
    whatever the slot holds: every failure inside it ends in its handler,
    which returns false.  The change listener of the import input never
    throws either; it hands the file to [importCustomEmojis] only when the
    type of the file is [application/json], and for a file of another type
    it alerts and stores nothing. *)
Theorem import_never_throws (data : EmojiData) (w : World) :
  (forall text, exists b, fst (Part000.importCustomEmojis data text w) = Normal b) /\
  (forall file, fst (Part000Panel.onImportFileChange data file w) = Normal tt) /\
  (forall file,
     file_type file = "application/json" ->
     snd (Part000Panel.onImportFileChange data (Some file) w)
     = snd (Part000.importCustomEmojis data (file_text file) w)) /\
  (forall file,
     file_type file <> "application/json" ->
     Part000Panel.onImportFileChange data (Some file) w
     = (Normal tt, set_log (log w ++ [alert "Please select a valid JSON file"])%list w)).
Proof.
  assert (Himport : forall text,
             exists b, fst (Part000.importCustomEmojis data text w) = Normal b).
  { intros text. unfold Part000.importCustomEmojis, try_catch.
    match goal with
    | |- context [match ?body with _ => _ end] => destruct body as [[b|e] w1]
    end.
    - now exists b.
    - exists false. reflexivity. }
  split; [exact Himport|]. split; [|split].
  - intros [file|]; [|reflexivity].
    unfold Part000Panel.onImportFileChange.
    destruct (String.eqb (file_type file) "application/json"); [|reflexivity].
    unfold bind. destruct (Himport (file_text file)) as (b & Hb).
    destruct (Part000.importCustomEmojis data (file_text file) w) as [[b'|e] w1];
      [reflexivity|discriminate Hb].
  - intros file Htype. unfold Part000Panel.onImportFileChange.
    rewrite Htype, String.eqb_refl.
    unfold bind. destruct (Himport (file_text file)) as (b & Hb).
    destruct (Part000.importCustomEmojis data (file_text file) w) as [[b'|e] w1];
      [reflexivity|discriminate Hb].
  - intros file Htype. unfold Part000Panel.onImportFileChange.
    destruct (String.eqb_spec (file_type file) "application/json"); [contradiction|].
    reflexivity.
Qed.
